(** * picksLeaguesApi: token, session and OAuth-callback lifecycle

    A shallow embedding of the authentication core of the API:
    - the storage layout of [drizzle/migrations/0000_nice_agent_brand.sql]
      and the row types of [db/schema.ts];
    - [TokenService] (auth/token-service.ts);
    - [SessionService] (auth/session-service.ts);
    - the [/auth] router of auth/routes.ts, with its in-memory [states] map.

    Conventions of the embedding.
    - A [Date] and a [timestamp] column are a [Z]: milliseconds since the
      epoch.  The process runs with a fixed UTC offset, so
      [d.setSeconds(d.getSeconds() + n)] moves [d] by [n * 1000] ms.
    - A table is the list of its rows in storage order; a query without
      [ORDER BY] returns rows in that order.
    - Every read of the outside world (the clock, [randomUUID], the values
      Postgres computes for column defaults, the identity provider) is an
      explicit argument of the function that performs it, in the order in
      which the source performs the reads.
    - An [await]ed promise is an [Outcome]: resolved with a value or
      rejected with an error.
    - A value of a [uuid] column is the text Postgres prints for it.  A
      JavaScript string compared with such a column goes through the uuid
      input function of Postgres, [uuid_in]; a string it does not accept
      makes the statement fail.
    - A value written to a [jsonb] column is stored as JSON: a [Date]
      becomes its ISO string. *)

From stdpp Require Import gmap strings list fin_maps pretty.
From Stdlib Require Import ZArith Ascii.

Local Open Scope string_scope.
Local Open Scope list_scope.
Local Open Scope Z_scope.

(** ** Basic types *)

Definition Timestamp := Z.
Definition Uuid := string.

(** JavaScript values that cross the boundaries modelled here. *)
Inductive JsValue :=
| JsString (s : string)
| JsNumber (n : Z)
| JsDate (t : Timestamp).

Global Instance JsValue_eq_dec : EqDecision JsValue.
Proof. solve_decision. Defined.

(** What a thrown error carries. *)
Inductive Failure :=
| JsError (message : string)
| UniqueViolation (table : string) (key : list string)
| ForeignKeyViolation (constraint : string)
| InvalidUuid (text : string).

Global Instance Failure_eq_dec : EqDecision Failure.
Proof. solve_decision. Defined.

(** The result of awaiting a promise. *)
Inductive Outcome (A : Type) :=
| Resolved (a : A)
| Rejected (e : Failure).
Arguments Resolved {A} a.
Arguments Rejected {A} e.

(** [await] in sequence: the first rejection propagates. *)
Global Instance Outcome_ret : MRet Outcome := λ A a, Resolved a.
Global Instance Outcome_bind : MBind Outcome := λ A B k o,
  match o with
  | Resolved a => k a
  | Rejected e => Rejected e
  end.

(** What a statement returned, and the database after it: a rejected
    statement wrote nothing. *)
Definition returned {A S} (o : Outcome (A * S)) : Outcome A :=
  match o with
  | Resolved (a, _) => Resolved a
  | Rejected e => Rejected e
  end.

Definition written {A S} (before : S) (o : Outcome (A * S)) : S :=
  match o with
  | Resolved (_, after) => after
  | Rejected _ => before
  end.

(** ** uuid texts

    The input function of the [uuid] type: 32 hexadecimal digits of either
    case, an optional hyphen after each group of four digits, optional
    braces around the whole; nothing else, no blanks.  The value is printed
    in lower case as 8-4-4-4-12.  A text that is not accepted fails the
    statement with "invalid input syntax for type uuid" (22P02). *)

Definition hexValue (c : Ascii.ascii) : option nat :=
  let n := Ascii.nat_of_ascii c in
  if bool_decide (48 ≤ n ≤ 57)%nat then Some (n - 48)%nat
  else if bool_decide (97 ≤ n ≤ 102)%nat then Some (n - 87)%nat
  else if bool_decide (65 ≤ n ≤ 70)%nat then Some (n - 55)%nat
  else None.

Definition hexDigit (v : nat) : Ascii.ascii :=
  if bool_decide (v < 10)%nat then Ascii.ascii_of_nat (48 + v)
  else Ascii.ascii_of_nat (87 + v).

(** [left] bytes remain to be read, [i] is the index of the next byte. *)
Fixpoint readUuidBytes (left i : nat) (src : string)
    : option (list nat * string) :=
  match left with
  | O => Some ([], src)
  | S left' =>
    match src with
    | String a (String b rest) =>
      match hexValue a, hexValue b with
      | Some x, Some y =>
        let rest' :=
          match rest with
          | String "-"%char rest'' =>
            if Nat.odd i && bool_decide (i < 15)%nat then rest'' else rest
          | _ => rest
          end in
        match readUuidBytes left' (S i) rest' with
        | Some (digits, tail) => Some (x :: y :: digits, tail)
        | None => None
        end
      | _, _ => None
      end
    | _ => None
    end
  end.

Fixpoint uuid_out_from (pos : nat) (digits : list nat) : string :=
  match digits with
  | [] => ""
  | d :: rest =>
    let sep :=
      if bool_decide (pos = 8 ∨ pos = 12 ∨ pos = 16 ∨ pos = 20)%nat
      then "-" else "" in
    sep +:+ String (hexDigit d) (uuid_out_from (S pos) rest)
  end.

Definition uuid_out (digits : list nat) : Uuid := uuid_out_from 0 digits.

Definition uuid_in (source : string) : option Uuid :=
  let '(braces, src) :=
    match source with
    | String "{"%char rest => (true, rest)
    | _ => (false, source)
    end in
  match readUuidBytes 16 0 src with
  | Some (digits, tail) =>
    let tail' :=
      if braces then match tail with String "}"%char t => Some t | _ => None end
      else Some tail in
    match tail' with
    | Some "" => Some (uuid_out digits)
    | _ => None
    end
  | None => None
  end.

(** ** JSON values of a [jsonb] column

    [Date.prototype.toISOString], for the instants a [Date] can hold. *)

Definition decimal (width : nat) (n : Z) : string :=
  (fix go (w : nat) (n : Z) (acc : string) : string :=
     match w with
     | O => acc
     | S w' =>
       go w' (n / 10)
          (String (Ascii.ascii_of_nat (48 + Z.to_nat (n mod 10))) acc)
     end) width n "".

(** Year, month and day of the day number [days] counted from 1970-01-01,
    in the proleptic Gregorian calendar. *)
Definition civilFromDays (days : Z) : Z * Z * Z :=
  let z := days + 719468 in
  let era := z / 146097 in
  let doe := z - era * 146097 in
  let yoe := (doe - doe / 1460 + doe / 36524 - doe / 146096) / 365 in
  let doy := doe - (365 * yoe + yoe / 4 - yoe / 100) in
  let mp := (5 * doy + 2) / 153 in
  let d := doy - (153 * mp + 2) / 5 + 1 in
  let m := if bool_decide (mp < 10) then mp + 3 else mp - 9 in
  let y := yoe + era * 400 + (if bool_decide (m ≤ 2) then 1 else 0) in
  (y, m, d).

Definition toISOString (t : Timestamp) : string :=
  let days := t / 86400000 in
  let ms := t mod 86400000 in
  let '(y, m, d) := civilFromDays days in
  let year :=
    if bool_decide (0 ≤ y ≤ 9999) then decimal 4 y
    else if bool_decide (y < 0) then "-" +:+ decimal 6 (- y)
    else "+" +:+ decimal 6 y in
  year +:+ "-" +:+ decimal 2 m +:+ "-" +:+ decimal 2 d +:+ "T"
  +:+ decimal 2 (ms / 3600000) +:+ ":" +:+ decimal 2 (ms / 60000 mod 60)
  +:+ ":" +:+ decimal 2 (ms / 1000 mod 60) +:+ "." +:+ decimal 3 (ms mod 1000)
  +:+ "Z".

(** [JSON.stringify] on the way in, [JSON.parse] on the way out: strings
    and numbers come back as they went, a [Date] comes back as a string. *)
Definition jsonValue (v : JsValue) : JsValue :=
  match v with
  | JsDate t => JsString (toISOString t)
  | _ => v
  end.

Definition jsonb (data : gmap string JsValue) : gmap string JsValue :=
  jsonValue <$> data.

(** ** The migration: drizzle/migrations/0000_nice_agent_brand.sql *)

Module Migration.

Inductive SqlType := uuid | text | timestamp | boolean | jsonb.

Inductive SqlDefault := gen_random_uuid | now | false_literal.

Record Column := {
  colName : string;
  colType : SqlType;
  colPrimaryKey : bool;
  colUnique : bool;
  colNotNull : bool;
  colDefault : option SqlDefault;
}.

Record Table := {
  tableName : string;
  columns : list Column;
  (** table-level [UNIQUE (...)] clauses *)
  uniqueClauses : list (list string);
}.

Record ForeignKey := {
  fkName : string;
  fkTable : string;
  fkColumn : string;
  fkRefTable : string;
  fkRefColumn : string;
}.

Definition col (n : string) (t : SqlType) (pk : bool)
    (d : option SqlDefault) : Column :=
  {| colName := n; colType := t; colPrimaryKey := pk; colUnique := false;
     colNotNull := true; colDefault := d |}.

Definition refresh_tokens : Table :=
  {| tableName := "refresh_tokens";
     columns :=
       [ col "id" uuid true (Some gen_random_uuid);
         col "user_id" uuid false None;
         col "token" text false None;
         col "expires_at" timestamp false None;
         col "is_revoked" boolean false (Some false_literal);
         col "created_at" timestamp false (Some now) ];
     uniqueClauses := [] |}.

Definition sessions : Table :=
  {| tableName := "sessions";
     columns :=
       [ col "id" uuid true (Some gen_random_uuid);
         col "user_id" uuid false None;
         col "data" jsonb false None;
         col "expires_at" timestamp false None;
         col "created_at" timestamp false (Some now);
         col "last_accessed_at" timestamp false (Some now) ];
     uniqueClauses := [] |}.

Definition users : Table :=
  {| tableName := "users";
     columns :=
       [ col "id" uuid true (Some gen_random_uuid);
         col "provider" text false None;
         col "provider_id" text false None;
         col "email" text false None;
         col "name" text false None;
         col "created_at" timestamp false (Some now) ];
     uniqueClauses := [] |}.

Definition refresh_tokens_user_id_users_id_fk : ForeignKey :=
  {| fkName := "refresh_tokens_user_id_users_id_fk";
     fkTable := "refresh_tokens"; fkColumn := "user_id";
     fkRefTable := "users"; fkRefColumn := "id" |}.

Definition sessions_user_id_users_id_fk : ForeignKey :=
  {| fkName := "sessions_user_id_users_id_fk";
     fkTable := "sessions"; fkColumn := "user_id";
     fkRefTable := "users"; fkRefColumn := "id" |}.

Definition foreignKeys : list ForeignKey :=
  [ refresh_tokens_user_id_users_id_fk; sessions_user_id_users_id_fk ].

(** The column sets on which Postgres keeps a unique index for a table:
    the primary key, every column declared [UNIQUE], every table-level
    [UNIQUE] clause. *)
Definition uniqueKeys (t : Table) : list (list string) :=
  ((λ c, [colName c]) <$>
     filter (λ c, colPrimaryKey c || colUnique c = true) (columns t))
  ++ uniqueClauses t.

End Migration.

(** ** Row types: db/schema.ts *)

Module User.
Record t := {
  id : Uuid;
  provider : string;
  providerId : string;
  email : string;
  name : string;
  createdAt : Timestamp;
}.
End User.

Module RefreshToken.
Record t := {
  id : Uuid;
  userId : Uuid;
  token : string;
  expiresAt : Timestamp;
  isRevoked : bool;
  createdAt : Timestamp;
}.
End RefreshToken.

Module Session.
Record t := {
  id : Uuid;
  userId : Uuid;
  data : gmap string JsValue;
  expiresAt : Timestamp;
  createdAt : Timestamp;
  lastAccessedAt : Timestamp;
}.
End Session.

Global Instance User_eq_dec : EqDecision User.t.
Proof. solve_decision. Defined.
Global Instance RefreshToken_eq_dec : EqDecision RefreshToken.t.
Proof. solve_decision. Defined.
Global Instance Session_eq_dec : EqDecision Session.t.
Proof. solve_decision. Defined.

(** [$inferInsert]: the columns without a default are required. *)
Record NewUser := {
  nu_provider : string;
  nu_providerId : string;
  nu_email : string;
  nu_name : string;
}.

Record NewRefreshToken := {
  nrt_userId : Uuid;
  nrt_token : string;
  nrt_expiresAt : Timestamp;
}.

Record NewSession := {
  ns_userId : Uuid;
  ns_data : gmap string JsValue;
  ns_expiresAt : Timestamp;
}.

(** The values Postgres computes for the defaults of one inserted row:
    [gen_random_uuid()] and [now()]. *)
Record Generated := {
  genId : Uuid;
  genNow : Timestamp;
}.

(** ** The database *)

Record Db := {
  users : list User.t;
  refreshTokens : list RefreshToken.t;
  sessions : list Session.t;
}.

Definition emptyDb : Db :=
  {| users := []; refreshTokens := []; sessions := [] |}.

(** The content of one cell, for comparing rows on a unique key. *)
Inductive Cell :=
| CText (s : string)
| CTime (t : Timestamp)
| CBool (b : bool)
| CJson (d : gmap string JsValue).

Global Instance Cell_eq_dec : EqDecision Cell.
Proof. solve_decision. Defined.

Definition userCell (u : User.t) (c : string) : option Cell :=
  if decide (c = "id") then Some (CText (User.id u))
  else if decide (c = "provider") then Some (CText (User.provider u))
  else if decide (c = "provider_id") then Some (CText (User.providerId u))
  else if decide (c = "email") then Some (CText (User.email u))
  else if decide (c = "name") then Some (CText (User.name u))
  else if decide (c = "created_at") then Some (CTime (User.createdAt u))
  else None.

Definition refreshTokenCell (r : RefreshToken.t) (c : string) : option Cell :=
  if decide (c = "id") then Some (CText (RefreshToken.id r))
  else if decide (c = "user_id") then Some (CText (RefreshToken.userId r))
  else if decide (c = "token") then Some (CText (RefreshToken.token r))
  else if decide (c = "expires_at") then Some (CTime (RefreshToken.expiresAt r))
  else if decide (c = "is_revoked") then Some (CBool (RefreshToken.isRevoked r))
  else if decide (c = "created_at") then Some (CTime (RefreshToken.createdAt r))
  else None.

Definition sessionCell (s : Session.t) (c : string) : option Cell :=
  if decide (c = "id") then Some (CText (Session.id s))
  else if decide (c = "user_id") then Some (CText (Session.userId s))
  else if decide (c = "data") then Some (CJson (Session.data s))
  else if decide (c = "expires_at") then Some (CTime (Session.expiresAt s))
  else if decide (c = "created_at") then Some (CTime (Session.createdAt s))
  else if decide (c = "last_accessed_at")
       then Some (CTime (Session.lastAccessedAt s))
  else None.

(** Two rows agree on every column of [key]. *)
Definition agreeOn {R} (cell : R → string → option Cell)
    (key : list string) (r r' : R) : bool :=
  forallb (λ c, bool_decide (cell r c = cell r' c)) key.

(** The first unique key of the table on which [r] collides with a stored
    row, if any. *)
Definition violatedKey {R} (cell : R → string → option Cell)
    (t : Migration.Table) (rows : list R) (r : R) : option (list string) :=
  List.find (λ key, existsb (agreeOn cell key r) rows) (Migration.uniqueKeys t).

(** [INSERT]: rejected when a unique index of the table is violated,
    otherwise the row is appended. *)
Definition insertRow {R} (cell : R → string → option Cell)
    (t : Migration.Table) (rows : list R) (r : R) : Outcome (list R) :=
  match violatedKey cell t rows r with
  | Some key => Rejected (UniqueViolation (Migration.tableName t) key)
  | None => Resolved (rows ++ [r])
  end.

(** The foreign keys of the migration both point at [users.id]. *)
Definition userExists (db : Db) (uid : Uuid) : bool :=
  existsb (λ u, bool_decide (User.id u = uid)) (users db).

Definition checkUserFk (db : Db) (fk : Migration.ForeignKey) (uid : Uuid)
    : Outcome unit :=
  if userExists db uid then Resolved tt
  else Rejected (ForeignKeyViolation (Migration.fkName fk)).

Definition insertUser (g : Generated) (n : NewUser) (db : Db)
    : Outcome (User.t * Db) :=
  let u := {| User.id := genId g; User.provider := nu_provider n;
              User.providerId := nu_providerId n; User.email := nu_email n;
              User.name := nu_name n; User.createdAt := genNow g |} in
  rows ← insertRow userCell Migration.users (users db) u;
  Resolved (u, {| users := rows; refreshTokens := refreshTokens db;
                  sessions := sessions db |}).

Definition insertRefreshToken (g : Generated) (n : NewRefreshToken) (db : Db)
    : Outcome (RefreshToken.t * Db) :=
  let r := {| RefreshToken.id := genId g;
              RefreshToken.userId := nrt_userId n;
              RefreshToken.token := nrt_token n;
              RefreshToken.expiresAt := nrt_expiresAt n;
              RefreshToken.isRevoked := false;
              RefreshToken.createdAt := genNow g |} in
  _ ← checkUserFk db Migration.refresh_tokens_user_id_users_id_fk
        (nrt_userId n);
  rows ← insertRow refreshTokenCell Migration.refresh_tokens
           (refreshTokens db) r;
  Resolved (r, {| users := users db; refreshTokens := rows;
                  sessions := sessions db |}).

Definition insertSession (g : Generated) (n : NewSession) (db : Db)
    : Outcome (Session.t * Db) :=
  let s := {| Session.id := genId g; Session.userId := ns_userId n;
              Session.data := jsonb (ns_data n);
              Session.expiresAt := ns_expiresAt n;
              Session.createdAt := genNow g;
              Session.lastAccessedAt := genNow g |} in
  _ ← checkUserFk db Migration.sessions_user_id_users_id_fk (ns_userId n);
  rows ← insertRow sessionCell Migration.sessions (sessions db) s;
  Resolved (s, {| users := users db; refreshTokens := refreshTokens db;
                  sessions := rows |}).

(** [UPDATE ... SET ... WHERE]: every row satisfying the condition is
    replaced, the others stay, order is kept. *)
Definition updateWhere {R} (p : R → bool) (f : R → R) (rows : list R) : list R :=
  (λ r, if p r then f r else r) <$> rows.

(** [SELECT ... WHERE]. *)
Definition selectWhere {R} (p : R → bool) (rows : list R) : list R :=
  List.filter p rows.

(** [DELETE ... WHERE]. *)
Definition deleteWhere {R} (p : R → bool) (rows : list R) : list R :=
  List.filter (λ r, negb (p r)) rows.

(** ** TokenService: auth/token-service.ts *)

Definition REFRESH_TOKEN_EXPIRES_IN : Z := 30 * 24 * 60 * 60.
Definition ACCESS_TOKEN_EXPIRES_IN : string := "1h".

Module TokenPayload.
Record t := {
  userId : string;
  provider : string;
}.
End TokenPayload.

(** The object returned by [generateTokens]. *)
Module GeneratedTokens.
Record t := {
  accessToken : string;
  refreshToken : string;
  expiresIn : JsValue;
}.
End GeneratedTokens.

(** The object returned by [refreshAccessToken]. *)
Module RefreshedToken.
Record t := {
  accessToken : string;
  expiresIn : JsValue;
}.
End RefreshedToken.

(** [d.setSeconds(d.getSeconds() + n)] *)
Definition addSeconds (d : Timestamp) (n : Z) : Timestamp := d + n * 1000.

Module TokenService.
Section TokenService.

(** [jwt.sign(payload, process.env.JWT_SECRET!, { expiresIn })] called at
    instant [iat]; it throws, for instance, when the secret is unset. *)
Variable jwtSign : Timestamp → TokenPayload.t → string → Outcome string.

(** Reads, in order: the clock inside [jwt.sign], [randomUUID()],
    [new Date()], the defaults of the inserted row. *)
Definition generateTokens (iat : Timestamp) (uuid : string)
    (now : Timestamp) (g : Generated)
    (userId provider : string) (db : Db)
    : Outcome (GeneratedTokens.t * Db) :=
  accessToken ← jwtSign iat
    {| TokenPayload.userId := userId; TokenPayload.provider := provider |}
    ACCESS_TOKEN_EXPIRES_IN;
  let refreshToken := uuid in
  let expiresAt := addSeconds now REFRESH_TOKEN_EXPIRES_IN in
  let newRefreshToken :=
    {| nrt_userId := userId; nrt_token := refreshToken;
       nrt_expiresAt := expiresAt |} in
  '(_, db') ← insertRefreshToken g newRefreshToken db;
  mret ({| GeneratedTokens.accessToken := accessToken;
           GeneratedTokens.refreshToken := refreshToken;
           GeneratedTokens.expiresIn := JsNumber REFRESH_TOKEN_EXPIRES_IN |},
        db').

(** The [where] clause of [refreshAccessToken]:
    [and(eq(token, refreshToken), eq(isRevoked, false),
         lt(expiresAt, new Date()))]. *)
Definition refreshCondition (refreshToken : string) (now : Timestamp)
    (r : RefreshToken.t) : bool :=
  bool_decide (RefreshToken.token r = refreshToken)
  && bool_decide (RefreshToken.isRevoked r = false)
  && bool_decide (RefreshToken.expiresAt r < now).

(** Reads, in order: [new Date()], the clock inside [jwt.sign].
    The database is only read. *)
Definition refreshAccessToken (now iat : Timestamp)
    (refreshToken : string) (db : Db) : Outcome RefreshedToken.t :=
  match selectWhere (refreshCondition refreshToken now) (refreshTokens db) with
  | [] => Rejected (JsError "Invalid refresh token")
  | token :: _ =>
    match selectWhere (λ u, bool_decide (User.id u = RefreshToken.userId token))
            (users db) with
    | [] => Rejected (JsError "User not found")
    | user :: _ =>
      accessToken ← jwtSign iat
        {| TokenPayload.userId := User.id user;
           TokenPayload.provider := User.provider user |}
        ACCESS_TOKEN_EXPIRES_IN;
      mret {| RefreshedToken.accessToken := accessToken;
              RefreshedToken.expiresIn := JsString ACCESS_TOKEN_EXPIRES_IN |}
    end
  end.

Definition setRevoked (r : RefreshToken.t) : RefreshToken.t :=
  {| RefreshToken.id := RefreshToken.id r;
     RefreshToken.userId := RefreshToken.userId r;
     RefreshToken.token := RefreshToken.token r;
     RefreshToken.expiresAt := RefreshToken.expiresAt r;
     RefreshToken.isRevoked := true;
     RefreshToken.createdAt := RefreshToken.createdAt r |}.

Definition revokeRefreshToken (refreshToken : string) (db : Db) : Db :=
  {| users := users db;
     refreshTokens :=
       updateWhere (λ r, bool_decide (RefreshToken.token r = refreshToken))
         setRevoked (refreshTokens db);
     sessions := sessions db |}.

(** The [where] clause of [cleanupExpiredTokens]:
    [or(lt(expiresAt, new Date()), eq(isRevoked, true))]. *)
Definition cleanupCondition (now : Timestamp) (r : RefreshToken.t) : bool :=
  bool_decide (RefreshToken.expiresAt r < now)
  || bool_decide (RefreshToken.isRevoked r = true).

Definition cleanupExpiredTokens (now : Timestamp) (db : Db) : Db :=
  {| users := users db;
     refreshTokens := deleteWhere (cleanupCondition now) (refreshTokens db);
     sessions := sessions db |}.

End TokenService.
End TokenService.

(** ** SessionService: auth/session-service.ts *)

Definition SESSION_DURATION : Z := 24 * 60 * 60.

Module SessionService.

Definition createSession (now : Timestamp) (g : Generated)
    (userId : Uuid) (data : gmap string JsValue) (db : Db)
    : Outcome (Session.t * Db) :=
  let expiresAt := addSeconds now SESSION_DURATION in
  insertSession g
    {| ns_userId := userId; ns_data := data; ns_expiresAt := expiresAt |} db.

Definition byId (sessionId : Uuid) (s : Session.t) : bool :=
  bool_decide (Session.id s = sessionId).

Definition touch (t : Timestamp) (s : Session.t) : Session.t :=
  {| Session.id := Session.id s; Session.userId := Session.userId s;
     Session.data := Session.data s; Session.expiresAt := Session.expiresAt s;
     Session.createdAt := Session.createdAt s;
     Session.lastAccessedAt := t |}.

Definition setSessions (db : Db) (rows : list Session.t) : Db :=
  {| users := users db; refreshTokens := refreshTokens db;
     sessions := rows |}.

(** [eq(column, text)] on a uuid column: the text is read by [uuid_in]. *)
Definition uuidParam (text : string) : Outcome Uuid :=
  match uuid_in text with
  | Some id => Resolved id
  | None => Rejected (InvalidUuid text)
  end.

(** Reads: [new Date()] of the expiry test (only made when a row was
    found), then [new Date()] of the update. *)
Definition getSession (tCheck tTouch : Timestamp) (sessionId : string)
    (db : Db) : Outcome (option Session.t * Db) :=
  id ← uuidParam sessionId;
  match selectWhere (byId id) (sessions db) with
  | [] => mret (None, db)
  | session :: _ =>
    if bool_decide (Session.expiresAt session < tCheck) then mret (None, db)
    else
      mret (Some session,
            setSessions db
              (updateWhere (byId id) (touch tTouch) (sessions db)))
  end.

(** [{ ...session.data, ...data }]: the keys of [data] win. *)
Definition mergeData (old new : gmap string JsValue) : gmap string JsValue :=
  new ∪ old.

Definition updateSession (tCheck tTouch : Timestamp) (sessionId : string)
    (data : gmap string JsValue) (db : Db)
    : Outcome (option Session.t * Db) :=
  id ← uuidParam sessionId;
  match selectWhere (byId id) (sessions db) with
  | [] => mret (None, db)
  | session :: _ =>
    if bool_decide (Session.expiresAt session < tCheck) then mret (None, db)
    else
      let set (s : Session.t) :=
        {| Session.id := Session.id s; Session.userId := Session.userId s;
           Session.data := jsonb (mergeData (Session.data session) data);
           Session.expiresAt := Session.expiresAt s;
           Session.createdAt := Session.createdAt s;
           Session.lastAccessedAt := tTouch |} in
      mret (head (set <$> selectWhere (byId id) (sessions db)),
            setSessions db (updateWhere (byId id) set (sessions db)))
  end.

Definition deleteSession (sessionId : string) (db : Db) : Outcome Db :=
  id ← uuidParam sessionId;
  mret (setSessions db (deleteWhere (byId id) (sessions db))).

Definition deleteUserSessions (userId : string) (db : Db) : Outcome Db :=
  id ← uuidParam userId;
  mret (setSessions db
          (deleteWhere (λ s, bool_decide (Session.userId s = id))
             (sessions db))).

Definition cleanupExpiredSessions (now : Timestamp) (db : Db) : Db :=
  setSessions db
    (deleteWhere (λ s, bool_decide (Session.expiresAt s < now)) (sessions db)).

Definition extend (expiresAt lastAccessedAt : Timestamp) (s : Session.t)
    : Session.t :=
  {| Session.id := Session.id s; Session.userId := Session.userId s;
     Session.data := Session.data s; Session.expiresAt := expiresAt;
     Session.createdAt := Session.createdAt s;
     Session.lastAccessedAt := lastAccessedAt |}.

(** Reads: [new Date()] for the new expiry, then [new Date()] for
    [lastAccessedAt].  [returning()] yields the updated rows; the first
    one, if any, is returned. *)
Definition extendSession (tExpiry tTouch : Timestamp) (sessionId : string)
    (db : Db) : Outcome (option Session.t * Db) :=
  let expiresAt := addSeconds tExpiry SESSION_DURATION in
  id ← uuidParam sessionId;
  mret (head (extend expiresAt tTouch <$> selectWhere (byId id) (sessions db)),
        setSessions db
          (updateWhere (byId id) (extend expiresAt tTouch) (sessions db))).

Definition getUserSessions (now : Timestamp) (userId : string) (db : Db)
    : Outcome (list Session.t) :=
  id ← uuidParam userId;
  mret (selectWhere
          (λ s, bool_decide (Session.userId s = id)
                && bool_decide (Session.expiresAt s > now))
          (sessions db)).

End SessionService.

(** ** The [/auth] router: auth/routes.ts *)

(** An entry of the in-memory [states] map. *)
Module PendingExchange.
Record t := {
  codeVerifier : string;
  state : string;
  provider : string;
}.
End PendingExchange.

(** The normalised profile [userInfoJson]. *)
Module UserInfo.
Record t := {
  email : string;
  name : string;
  sub : string;
}.
End UserInfo.

(** The profile returned by [https://discord.com/api/users/@me]. *)
Module DiscordUser.
Record t := {
  id : string;
  email : string;
  username : string;
  discriminator : string;
}.
End DiscordUser.

(** What the handler uses of a [fetch] response. *)
Module FetchResponse.
Record t := {
  ok : bool;
  status : Z;
  text : Outcome string;
}.
End FetchResponse.

(** [req.session], as declared in auth/session-middleware.ts. *)
Module RequestSession.
Record t := {
  id : string;
  userId : string;
  data : gmap string JsValue;
  expiresAt : Timestamp;
}.
End RequestSession.

Inductive ResponseBody :=
| ErrorBody (error : string)
| MessageBody (message : string)
| LoginBody (tokens : GeneratedTokens.t) (sessionId : Uuid)
| RefreshBody (tokens : RefreshedToken.t)
| SessionBody (session : RequestSession.t)
| RedirectTo (href : string).

Module Response.
Record t := {
  status : Z;
  body : ResponseBody;
}.
End Response.

(** What the router closes over and mutates: the [states] map of
    [createAuthRouter] and the database. *)
Record World := {
  states : gmap string PendingExchange.t;
  db : Db;
}.

(** The reads of the outside world made by one callback after the profile
    was fetched, in source order. *)
Record CallbackReads := {
  userDefaults : Generated;      (* insert into users *)
  tokenIat : Timestamp;          (* jwt.sign *)
  tokenUuid : string;            (* randomUUID() *)
  tokenNow : Timestamp;          (* new Date() in generateTokens *)
  tokenDefaults : Generated;     (* insert into refresh_tokens *)
  lastLogin : Timestamp;         (* lastLogin: new Date() *)
  sessionNow : Timestamp;        (* new Date() in createSession *)
  sessionDefaults : Generated;   (* insert into sessions *)
}.

(** The body of a [try] block: it runs against the database, and a
    rejection keeps the writes made before it. *)
Definition Attempt (A : Type) : Type := Db → Outcome A * Db.

Global Instance Attempt_ret : MRet Attempt := λ A a db, (Resolved a, db).
Global Instance Attempt_bind : MBind Attempt := λ A B k m db,
  match m db with
  | (Resolved a, db') => k a db'
  | (Rejected e, db') => (Rejected e, db')
  end.

(** Awaiting something that does not touch the database. *)
Definition await {A} (o : Outcome A) : Attempt A := λ db, (o, db).

(** One statement against the database; a rejected statement writes
    nothing. *)
Definition statement {A} (q : Db → Outcome (A * Db)) : Attempt A := λ db,
  match q db with
  | Resolved (a, db') => (Resolved a, db')
  | Rejected e => (Rejected e, db)
  end.

Definition readDb {A} (q : Db → A) : Attempt A := λ db, (Resolved (q db), db).

Definition respond (status : Z) (body : ResponseBody) : Response.t :=
  {| Response.status := status; Response.body := body |}.

(** ** The session middleware: auth/session-middleware.ts

    [sessionId] is the [x-session-id] header.  Reads: those of
    [getSession], then [new Date()], then those of [extendSession].  An
    error of either call is caught and logged; what was attached or written
    before it stays. *)
Definition sessionMiddleware (tCheck tTouch now tExpiry tTouch' : Timestamp)
    (sessionId : option string) (db : Db) : option RequestSession.t * Db :=
  match sessionId with
  | None | Some "" => (None, db)
  | Some sessionId =>
    match SessionService.getSession tCheck tTouch sessionId db with
    | Rejected _ => (None, db)
    | Resolved (None, db1) => (None, db1)
    | Resolved (Some session, db1) =>
      let reqSession :=
        {| RequestSession.id := Session.id session;
           RequestSession.userId := Session.userId session;
           RequestSession.data := Session.data session;
           RequestSession.expiresAt := Session.expiresAt session |} in
      let timeUntilExpiry := Session.expiresAt session - now in
      if bool_decide (timeUntilExpiry < 1000 * 60 * 60)
      then (Some reqSession,
            written db1
              (SessionService.extendSession tExpiry tTouch' sessionId db1))
      else (Some reqSession, db1)
    end
  end.

Module Routes.
Section Routes.

(** [clients[provider as keyof OAuthClients]] is truthy. *)
Variable hasClient : string → bool.
(** [process.env.BASE_URL] as interpolated into a template string. *)
Variable BASE_URL : string.
(** [client.calculatePKCECodeChallenge(codeVerifier)] *)
Variable calculatePKCECodeChallenge : string → Outcome string.
(** [client.buildAuthorizationUrl(config, parameters).href], with the
    provider naming the configuration. *)
Variable buildAuthorizationUrl :
  string → list (string * string) → Outcome string.
(** [client.authorizationCodeGrant(config, currentUrl,
      { pkceCodeVerifier, expectedState })], resolved to
    [authTokens.access_token]. *)
Variable authorizationCodeGrant :
  string → string → string → string → Outcome string.
(** [fetch("https://discord.com/api/users/@me", ...)] with the bearer
    token. *)
Variable fetchDiscord : string → Outcome FetchResponse.t.
(** [JSON.parse(responseBody)] read as a Discord user. *)
Variable parseDiscordUser : string → Outcome DiscordUser.t.
(** [client.fetchProtectedResource(config, access_token, userinfo, "GET")],
    resolved to [body.toString()] when there is a body. *)
Variable fetchProtectedResource : string → string → Outcome (option string).
(** [JSON.parse(...)] read as [{ email, name, sub }]. *)
Variable parseUserInfo : string → Outcome UserInfo.t.
Variable jwtSign : Timestamp → TokenPayload.t → string → Outcome string.

(** [GET /login/:provider].  Reads: [randomPKCECodeVerifier()] and
    [randomState()].  A rejected result is an exception escaping the
    handler. *)
Definition loginHandler (codeVerifier state : string) (provider : string)
    (w : World) : Outcome Response.t * World :=
  if negb (hasClient provider)
  then (Resolved (respond 400 (ErrorBody "Invalid provider")), w)
  else
    match calculatePKCECodeChallenge codeVerifier with
    | Rejected e => (Rejected e, w)
    | Resolved codeChallenge =>
      let w' :=
        {| states :=
             <[state := {| PendingExchange.codeVerifier := codeVerifier;
                           PendingExchange.state := state;
                           PendingExchange.provider := provider |}]>
               (states w);
           db := db w |} in
      let parameters :=
        [ ("redirect_uri", BASE_URL +:+ "/auth/callback/" +:+ provider);
          ("scope", if decide (provider = "discord")
                    then "identify email" else "openid email profile");
          ("code_challenge", codeChallenge);
          ("code_challenge_method", "S256");
          ("state", state) ] in
      (href ← buildAuthorizationUrl provider parameters;
       mret (respond 302 (RedirectTo href)), w')
    end.

(** The user-info step of the callback: the Discord branch and the
    OpenID Connect branch, both ending in [userInfoJson]. *)
Definition fetchUserInfo (provider access_token : string)
    : Outcome UserInfo.t :=
  if decide (provider = "discord") then
    userInfoResponse ← fetchDiscord access_token;
    if negb (FetchResponse.ok userInfoResponse) then
      Rejected (JsError ("Discord API error: "
                         +:+ pretty (FetchResponse.status userInfoResponse)))
    else
      responseBody ← FetchResponse.text userInfoResponse;
      discordUser ← parseDiscordUser responseBody;
      mret {| UserInfo.email := DiscordUser.email discordUser;
              UserInfo.name := DiscordUser.username discordUser;
              UserInfo.sub := DiscordUser.id discordUser |}
  else
    userInfoResponse ← fetchProtectedResource provider access_token;
    match userInfoResponse with
    | None => Rejected (JsError "Failed to fetch user info")
    | Some body => parseUserInfo body
    end.

(** "Find or create user":
    [select().from(users).where(eq(users.providerId, userInfoJson.sub))]
    then an insert when the result is empty. *)
Definition findOrCreateUser (g : Generated) (provider : string)
    (userInfoJson : UserInfo.t) : Attempt Uuid :=
  existingUser ← readDb (λ db,
    selectWhere
      (λ u, bool_decide (User.providerId u = UserInfo.sub userInfoJson))
      (users db));
  match existingUser with
  | [] =>
    let newUser :=
      {| nu_provider := provider;
         nu_providerId := UserInfo.sub userInfoJson;
         nu_email := UserInfo.email userInfoJson;
         nu_name := UserInfo.name userInfoJson |} in
    user ← statement (insertUser g newUser);
    mret (User.id user)
  | u :: _ => mret (User.id u)
  end.

Definition sessionData (provider : string) (userInfoJson : UserInfo.t)
    (lastLogin : Timestamp) : gmap string JsValue :=
  <["provider" := JsString provider]>
    (<["email" := JsString (UserInfo.email userInfoJson)]>
       (<["name" := JsString (UserInfo.name userInfoJson)]>
          (<["lastLogin" := JsDate lastLogin]> ∅))).

(** The [try] block of [GET /callback/:provider]. *)
Definition callbackAttempt (provider currentUrl : string)
    (storedState : PendingExchange.t) (r : CallbackReads)
    : Attempt ResponseBody :=
  access_token ← await (authorizationCodeGrant provider currentUrl
                          (PendingExchange.codeVerifier storedState)
                          (PendingExchange.state storedState));
  userInfoJson ← await (fetchUserInfo provider access_token);
  userId ← findOrCreateUser (userDefaults r) provider userInfoJson;
  tokens ← statement (TokenService.generateTokens jwtSign
                        (tokenIat r) (tokenUuid r) (tokenNow r)
                        (tokenDefaults r) userId provider);
  session ← statement (SessionService.createSession
                         (sessionNow r) (sessionDefaults r) userId
                         (sessionData provider userInfoJson (lastLogin r)));
  mret (LoginBody tokens (Session.id session)).

(** [GET /callback/:provider], up to its first [await]: the checks on the
    configuration and on the presented state.  [queryState] is
    [req.query.state] when it is a string. *)
Definition callbackCheck (provider : string) (queryState : option string)
    (w : World) : Response.t + PendingExchange.t :=
  if negb (hasClient provider)
  then inl (respond 400 (ErrorBody "Invalid provider"))
  else
    match queryState ≫= (λ s, states w !! s) with
    | None => inl (respond 400 (ErrorBody "Invalid state"))
    | Some storedState =>
      if negb (bool_decide (PendingExchange.provider storedState = provider))
      then inl (respond 400 (ErrorBody "Invalid state"))
      else inr storedState
    end.

(** The [try] / [catch] / [finally] of the handler, for the entry the check
    found. *)
Definition callbackSettle (provider currentUrl : string)
    (storedState : PendingExchange.t) (r : CallbackReads) (w : World)
    : Response.t * World :=
  let '(result, db') :=
    callbackAttempt provider currentUrl storedState r (db w) in
  let res :=
    match result with
    | Resolved body => respond 200 body
    | Rejected _ => respond 500 (ErrorBody "Authentication failed")
    end in
  (res, {| states := delete (PendingExchange.state storedState) (states w);
           db := db' |}).

(** The handler when no other request is served between its check and its
    [finally]. *)
Definition callbackHandler (provider : string) (queryState : option string)
    (currentUrl : string) (r : CallbackReads) (w : World)
    : Response.t * World :=
  match callbackCheck provider queryState w with
  | inl res => (res, w)
  | inr storedState => callbackSettle provider currentUrl storedState r w
  end.

(** [POST /refresh] *)
Definition refreshHandler (now iat : Timestamp)
    (refreshToken : option string) (w : World) : Response.t * World :=
  match refreshToken with
  | None | Some "" =>
    (respond 400 (ErrorBody "Refresh token is required"), w)
  | Some refreshToken =>
    match TokenService.refreshAccessToken jwtSign now iat refreshToken (db w) with
    | Resolved tokens => (respond 200 (RefreshBody tokens), w)
    | Rejected _ => (respond 401 (ErrorBody "Invalid refresh token"), w)
    end
  end.

(** [POST /revoke] *)
Definition revokeHandler (refreshToken : option string) (w : World)
    : Response.t * World :=
  match refreshToken with
  | None | Some "" =>
    (respond 400 (ErrorBody "Refresh token is required"), w)
  | Some refreshToken =>
    (respond 200 (MessageBody "Token revoked successfully"),
     {| states := states w;
        db := TokenService.revokeRefreshToken refreshToken (db w) |})
  end.

(** [GET /session]: [session] is [req.session], which only a session
    middleware would set. *)
Definition getSessionHandler (session : option RequestSession.t) (w : World)
    : Response.t * World :=
  match session with
  | None => (respond 401 (ErrorBody "No active session"), w)
  | Some session => (respond 200 (SessionBody session), w)
  end.

(** [DELETE /session].  A rejected result is an exception escaping the
    handler. *)
Definition deleteSessionHandler (session : option RequestSession.t)
    (w : World) : Outcome Response.t * World :=
  match session with
  | None => (Resolved (respond 401 (ErrorBody "No active session")), w)
  | Some session =>
    match SessionService.deleteSession (RequestSession.id session) (db w) with
    | Resolved db' =>
      (Resolved (respond 200 (MessageBody "Session terminated")),
       {| states := states w; db := db' |})
    | Rejected e => (Rejected e, w)
    end
  end.

(** [DELETE /sessions] *)
Definition deleteSessionsHandler (session : option RequestSession.t)
    (w : World) : Outcome Response.t * World :=
  match session with
  | None => (Resolved (respond 401 (ErrorBody "No active session")), w)
  | Some session =>
    match SessionService.deleteUserSessions (RequestSession.userId session)
            (db w) with
    | Resolved db' =>
      (Resolved (respond 200 (MessageBody "All sessions terminated")),
       {| states := states w; db := db' |})
    | Rejected e => (Rejected e, w)
    end
  end.

(** The requests served by the router. *)
Inductive Request :=
| Login (codeVerifier state provider : string)
| Callback (provider : string) (queryState : option string)
    (currentUrl : string) (r : CallbackReads)
| Refresh (now iat : Timestamp) (refreshToken : option string)
| Revoke (refreshToken : option string)
| GetSession (session : option RequestSession.t)
| DeleteSession (session : option RequestSession.t)
| DeleteSessions (session : option RequestSession.t).

(** Requests handled one after the other. *)
Definition handle (w : World) (q : Request) : World :=
  match q with
  | Login codeVerifier state provider =>
    (loginHandler codeVerifier state provider w).2
  | Callback provider queryState currentUrl r =>
    (callbackHandler provider queryState currentUrl r w).2
  | Refresh now iat refreshToken =>
    (refreshHandler now iat refreshToken w).2
  | Revoke refreshToken => (revokeHandler refreshToken w).2
  | GetSession session => (getSessionHandler session w).2
  | DeleteSession session => (deleteSessionHandler session w).2
  | DeleteSessions session => (deleteSessionsHandler session w).2
  end.

Definition run (w : World) (qs : list Request) : World :=
  foldl handle w qs.

(** [createAuthRouter] starts with an empty [states] map over whatever
    the database holds. *)
Definition createAuthRouter (db0 : Db) : World :=
  {| states := ∅; db := db0 |}.

End Routes.
End Routes.

(** ** Invariants of the stores *)

(** [sessions.id] is the primary key. *)
Definition sessionKeysUnique (db : Db) : Prop :=
  NoDup (Session.id <$> sessions db).

(** Every entry of [states] is stored under its own [state] value:
    [states.set(state, { codeVerifier, state, provider })]. *)
Definition statesKeyed (w : World) : Prop :=
  ∀ k p, states w !! k = Some p → PendingExchange.state p = k.

(** The request registers an entry under the state value [s]. *)
Definition registersState (s : string) (q : Routes.Request) : Prop :=
  match q with
  | Routes.Login _ state _ => state = s
  | _ => False
  end.

(** [users.id] and [refresh_tokens.id] are primary keys too. *)
Definition userKeysUnique (db : Db) : Prop :=
  NoDup (User.id <$> users db).

Definition tokenKeysUnique (db : Db) : Prop :=
  NoDup (RefreshToken.id <$> refreshTokens db).

(** The two foreign keys of the migration: every refresh token and every
    session belongs to a stored user. *)
Definition referencesHold (db : Db) : Prop :=
  (∀ r, r ∈ refreshTokens db → userExists db (RefreshToken.userId r) = true)
  ∧ (∀ s, s ∈ sessions db → userExists db (Session.userId s) = true).

(** What Postgres guarantees of a stored database. *)
Definition constraintsHold (db : Db) : Prop :=
  userKeysUnique db ∧ tokenKeysUnique db ∧ sessionKeysUnique db
  ∧ referencesHold db.

(** One statement of the callback, seen from the database: it either
    wrote nothing or it was the successful insert. *)
Definition userStep (db db' : Db) : Prop :=
  db' = db ∨ ∃ g n u, insertUser g n db = Resolved (u, db').

Definition tokenStep (db db' : Db) : Prop :=
  db' = db ∨ ∃ g n r, insertRefreshToken g n db = Resolved (r, db').

Definition sessionStep (db db' : Db) : Prop :=
  db' = db ∨ ∃ g n s, insertSession g n db = Resolved (s, db').

(** A stored refresh token seen later: unchanged, or revoked meanwhile. *)
Definition sameOrRevoked (r r' : RefreshToken.t) : Prop :=
  r' = r
  ∨ r' = {| RefreshToken.id := RefreshToken.id r;
            RefreshToken.userId := RefreshToken.userId r;
            RefreshToken.token := RefreshToken.token r;
            RefreshToken.expiresAt := RefreshToken.expiresAt r;
            RefreshToken.isRevoked := true;
            RefreshToken.createdAt := RefreshToken.createdAt r |}.

(** A later database with respect to an earlier one: the stored users are
    still there, in place and unchanged, and so are the stored refresh
    tokens, up to revocation. *)
Definition evolves (db db' : Db) : Prop :=
  users db `prefix_of` users db'
  ∧ ∀ (i : nat) r, refreshTokens db !! i = Some r →
      ∃ r', refreshTokens db' !! i = Some r' ∧ sameOrRevoked r r'.

(** ** A concrete deployment, for running the model

    Google and Discord are configured and accept every code.  Discord
    reports the profile of id ["42"].  On the OpenID Connect branch the
    user-info response has a body, a stream, whose [toString()] is not
    JSON: [JSON.parse] throws. *)

Module Scenario.

Definition hasClient (provider : string) : bool :=
  bool_decide (provider = "google") || bool_decide (provider = "discord").

Definition BASE_URL : string := "http://localhost:3000".

Definition calculatePKCECodeChallenge (codeVerifier : string)
    : Outcome string :=
  Resolved ("S256:" +:+ codeVerifier).

Definition buildAuthorizationUrl (provider : string)
    (parameters : list (string * string)) : Outcome string :=
  Resolved ("https://" +:+ provider +:+ ".example/authorize").

Definition authorizationCodeGrant (provider currentUrl pkceCodeVerifier
    expectedState : string) : Outcome string :=
  Resolved "provider-access-token".

(** A provider that rejects the code. *)
Definition rejectingCodeGrant (provider currentUrl pkceCodeVerifier
    expectedState : string) : Outcome string :=
  Rejected (JsError "invalid_grant").

Definition fetchDiscord (access_token : string) : Outcome FetchResponse.t :=
  Resolved {| FetchResponse.ok := true; FetchResponse.status := 200;
              FetchResponse.text := Resolved "discord-profile" |}.

(** Discord answering 401. *)
Definition failingFetchDiscord (access_token : string)
    : Outcome FetchResponse.t :=
  Resolved {| FetchResponse.ok := false; FetchResponse.status := 401;
              FetchResponse.text := Resolved "" |}.

Definition parseDiscordUser (body : string) : Outcome DiscordUser.t :=
  Resolved {| DiscordUser.id := "42"; DiscordUser.email := "dee@example.com";
              DiscordUser.username := "dee";
              DiscordUser.discriminator := "0" |}.

Definition fetchProtectedResource (provider access_token : string)
    : Outcome (option string) :=
  Resolved (Some "[object ReadableStream]").

Definition parseUserInfo (body : string) : Outcome UserInfo.t :=
  Rejected (JsError "Unexpected token o in JSON at position 1").

Definition jwtSign (iat : Timestamp) (payload : TokenPayload.t)
    (expiresIn : string) : Outcome string :=
  Resolved ("jwt." +:+ TokenPayload.userId payload +:+ "."
            +:+ TokenPayload.provider payload).

Definition loginHandler :=
  Routes.loginHandler hasClient BASE_URL calculatePKCECodeChallenge
    buildAuthorizationUrl.

Definition callbackHandler :=
  Routes.callbackHandler hasClient authorizationCodeGrant fetchDiscord
    parseDiscordUser fetchProtectedResource parseUserInfo jwtSign.

Definition callbackCheck := Routes.callbackCheck hasClient.

Definition callbackSettle :=
  Routes.callbackSettle authorizationCodeGrant fetchDiscord parseDiscordUser
    fetchProtectedResource parseUserInfo jwtSign.

Definition run :=
  Routes.run hasClient BASE_URL calculatePKCECodeChallenge
    buildAuthorizationUrl authorizationCodeGrant fetchDiscord
    parseDiscordUser fetchProtectedResource parseUserInfo jwtSign.

Definition alice : User.t :=
  {| User.id := "a0000000-0000-4000-8000-000000000001";
     User.provider := "google"; User.providerId := "42";
     User.email := "gee@example.com"; User.name := "Gee";
     User.createdAt := 1000 |}.

Definition day : Z := 24 * 60 * 60 * 1000.

(** A refresh token issued at instant 1000, valid for 30 days. *)
Definition freshToken : RefreshToken.t :=
  {| RefreshToken.id := "b0000000-0000-4000-8000-000000000001";
     RefreshToken.userId := "a0000000-0000-4000-8000-000000000001";
     RefreshToken.token := "rt-1";
     RefreshToken.expiresAt := 1000 + 30 * day;
     RefreshToken.isRevoked := false; RefreshToken.createdAt := 1000 |}.

Definition revokedToken : RefreshToken.t :=
  {| RefreshToken.id := "b0000000-0000-4000-8000-000000000002";
     RefreshToken.userId := "a0000000-0000-4000-8000-000000000001";
     RefreshToken.token := "rt-2";
     RefreshToken.expiresAt := 1000 + 30 * day;
     RefreshToken.isRevoked := true; RefreshToken.createdAt := 1000 |}.

(** A session created at instant 1000. *)
Definition aliceSession : Session.t :=
  {| Session.id := "c0000000-0000-4000-8000-000000000001";
     Session.userId := "a0000000-0000-4000-8000-000000000001";
     Session.data := ∅;
     Session.expiresAt := 1000 + day; Session.createdAt := 1000;
     Session.lastAccessedAt := 1000 |}.

Definition store : Db :=
  {| users := [alice];
     refreshTokens := [freshToken; revokedToken];
     sessions := [aliceSession] |}.

(** A second session of the same user, created a day later. *)
Definition laterSession : Session.t :=
  {| Session.id := "c0000000-0000-4000-8000-000000000002";
     Session.userId := "a0000000-0000-4000-8000-000000000001";
     Session.data := {[ "theme" := JsString "dark" ]};
     Session.expiresAt := 1000 + 2 * day; Session.createdAt := 1000 + day;
     Session.lastAccessedAt := 1000 + day |}.

Definition busyStore : Db :=
  {| users := [alice];
     refreshTokens := [freshToken; revokedToken];
     sessions := [aliceSession; laterSession] |}.

Definition gen (id : Uuid) (now : Timestamp) : Generated :=
  {| genId := id; genNow := now |}.

Definition reads (n : string) (now : Timestamp) : CallbackReads :=
  {| userDefaults := gen ("a0000000-0000-4000-8000-00000000000" +:+ n) now;
     tokenIat := now; tokenUuid := "rt-" +:+ n; tokenNow := now;
     tokenDefaults := gen ("b0000000-0000-4000-8000-00000000000" +:+ n) now;
     lastLogin := now; sessionNow := now;
     sessionDefaults := gen ("c0000000-0000-4000-8000-00000000000" +:+ n) now |}.

(** A second user under the identity of [alice], and a second refresh
    token under the value of [freshToken]. *)
Definition duplicateOfAlice : NewUser :=
  {| nu_provider := "google"; nu_providerId := "42";
     nu_email := "other@example.com"; nu_name := "Other" |}.

Definition duplicateOfFreshToken : NewRefreshToken :=
  {| nrt_userId := "a0000000-0000-4000-8000-000000000001";
     nrt_token := "rt-1"; nrt_expiresAt := 9000 |}.

(** A provider-side signing failure: [JWT_SECRET] is unset. *)
Definition failingJwtSign (iat : Timestamp) (payload : TokenPayload.t)
    (expiresIn : string) : Outcome string :=
  Rejected (JsError "secretOrPrivateKey must have a value").

End Scenario.

(** * Properties *)

(** ** Queries *)

Section Queries.
Context {R : Type}.
Implicit Types (p : R → bool) (f : R → R) (rows : list R).

Lemma selectWhere_elem p rows r :
  r ∈ selectWhere p rows ↔ r ∈ rows ∧ p r = true.
Proof.
  unfold selectWhere. rewrite !list_elem_of_In, filter_In. tauto.
Qed.

Lemma deleteWhere_elem p rows r :
  r ∈ deleteWhere p rows ↔ r ∈ rows ∧ p r = false.
Proof.
  unfold deleteWhere. rewrite !list_elem_of_In, filter_In.
  rewrite negb_true_iff. tauto.
Qed.

Lemma selectWhere_nil p rows :
  selectWhere p rows = [] ↔ ∀ r, r ∈ rows → p r = false.
Proof.
  unfold selectWhere. induction rows as [|x rows IH]; simpl.
  - split; [intros _ r Hr; inversion Hr | done].
  - destruct (p x) eqn:Hx.
    + split; [done |]. intros H. specialize (H x (list_elem_of_here _ _)).
      congruence.
    + rewrite IH. split.
      * intros H r Hr. apply elem_of_cons in Hr as [->|Hr]; auto.
      * intros H r Hr. apply H. by apply list_elem_of_further.
Qed.

Lemma updateWhere_length p f rows :
  length (updateWhere p f rows) = length rows.
Proof. unfold updateWhere. apply length_fmap. Qed.

Lemma updateWhere_lookup p f rows (i : nat) :
  updateWhere p f rows !! i = (λ r, if p r then f r else r) <$> rows !! i.
Proof. unfold updateWhere. apply list_lookup_fmap. Qed.

Lemma updateWhere_id p f rows :
  (∀ r, r ∈ rows → p r = true → f r = r) → updateWhere p f rows = rows.
Proof.
  intros H. unfold updateWhere. induction rows as [|x rows IH]; [done|].
  simpl. f_equal.
  - destruct (p x) eqn:Hx; [|done]. apply H; [apply list_elem_of_here | done].
  - apply IH. intros r Hr. apply H. by apply list_elem_of_further.
Qed.

Lemma updateWhere_twice p f rows :
  (∀ r, p (f r) = p r) → (∀ r, f (f r) = f r) →
  updateWhere p f (updateWhere p f rows) = updateWhere p f rows.
Proof.
  intros Hp Hf. unfold updateWhere. rewrite <- list_fmap_compose.
  apply list_fmap_ext. intros i r _. simpl.
  destruct (p r) eqn:Hr.
  - by rewrite Hp, Hr, Hf.
  - by rewrite Hr.
Qed.

Lemma updateWhere_elem p f rows r :
  r ∈ rows → (if p r then f r else r) ∈ updateWhere p f rows.
Proof.
  intros Hr. unfold updateWhere.
  apply (list_elem_of_fmap_2 (λ r, if p r then f r else r)). exact Hr.
Qed.

End Queries.

(** ** Storage layout *)

Lemma existsb_false_iff {R} (p : R → bool) (rows : list R) :
  existsb p rows = false ↔ ∀ r, r ∈ rows → p r = false.
Proof.
  induction rows as [|x rows IH]; simpl.
  - split; [intros _ r Hr; inversion Hr | done].
  - rewrite orb_false_iff, IH. split.
    + intros [Hx H] r Hr. apply elem_of_cons in Hr as [->|Hr]; auto.
    + intros H. split; [apply H; left | intros r Hr; apply H; by right].
Qed.

(** On a table whose only unique key is [id], an insert is rejected exactly
    when the id is taken. *)
Lemma insertRow_primary_key_only {R} (cell : R → string → option Cell)
    (idOf : R → Uuid) (t : Migration.Table) (rows : list R) (r : R) :
  Migration.uniqueKeys t = [["id"]] →
  (∀ x, cell x "id" = Some (CText (idOf x))) →
  insertRow cell t rows r
  = if existsb (λ r', bool_decide (idOf r' = idOf r)) rows
    then Rejected (UniqueViolation (Migration.tableName t) ["id"])
    else Resolved (rows ++ [r]).
Proof.
  intros Hkeys Hid. unfold insertRow, violatedKey. rewrite Hkeys. simpl.
  assert (Hext : existsb (agreeOn cell ["id"] r) rows
                 = existsb (λ r', bool_decide (idOf r' = idOf r)) rows).
  { induction rows as [|x rows IH]; [done|]. simpl. rewrite IH. f_equal.
    rewrite !Hid, andb_true_r. apply bool_decide_ext.
    split; intros H; congruence. }
  rewrite Hext.
  destruct (existsb (λ r', bool_decide (idOf r' = idOf r)) rows); reflexivity.
Qed.

(** C4, as stated, on [Scenario.store]: a second user with the stored pair
    (google, 42) and a second refresh token with the stored value "rt-1"
    are both accepted; no uniqueness violation is raised. *)
Lemma duplicate_identity_and_token_accepted :
  ¬ (∃ key, insertUser (Scenario.gen "a0000000-0000-4000-8000-000000000002" 2000) Scenario.duplicateOfAlice
              Scenario.store
            = Rejected (UniqueViolation "users" key))
  ∧ ¬ (∃ key, insertRefreshToken (Scenario.gen "b0000000-0000-4000-8000-000000000009" 2000)
                Scenario.duplicateOfFreshToken Scenario.store
              = Rejected (UniqueViolation "refresh_tokens" key)).
Proof.
  split; intros [key H]; vm_compute in H; discriminate H.
Qed.

(** C4 (amended).  The only unique key of [users], [refresh_tokens] and
    [sessions] is the primary key [id]; there is no uniqueness constraint on
    (provider, provider_id) nor on the token value.  An insert into [users]
    succeeds whenever the generated id is free, whatever identities are
    stored, and is rejected on [id] otherwise; an insert into
    [refresh_tokens] for an existing user succeeds whenever the generated
    id is free, whatever token values are stored. *)
Theorem uniqueness_is_primary_key_only :
  Migration.uniqueKeys Migration.users = [["id"]]
  ∧ Migration.uniqueKeys Migration.refresh_tokens = [["id"]]
  ∧ Migration.uniqueKeys Migration.sessions = [["id"]]
  ∧ (∀ g n db,
       (∀ u, u ∈ users db → User.id u ≠ genId g) →
       ∃ u, insertUser g n db
            = Resolved (u, {| users := users db ++ [u];
                              refreshTokens := refreshTokens db;
                              sessions := sessions db |})
            ∧ User.id u = genId g
            ∧ User.provider u = nu_provider n
            ∧ User.providerId u = nu_providerId n)
  ∧ (∀ g n db u,
       u ∈ users db → User.id u = genId g →
       insertUser g n db = Rejected (UniqueViolation "users" ["id"]))
  ∧ (∀ g n db,
       userExists db (nrt_userId n) = true →
       (∀ r, r ∈ refreshTokens db → RefreshToken.id r ≠ genId g) →
       ∃ r, insertRefreshToken g n db
            = Resolved (r, {| users := users db;
                              refreshTokens := refreshTokens db ++ [r];
                              sessions := sessions db |})
            ∧ RefreshToken.token r = nrt_token n
            ∧ RefreshToken.isRevoked r = false).
Proof.
  split; [reflexivity|]. split; [reflexivity|]. split; [reflexivity|].
  split; [|split].
  - intros g n db Hfree. eexists. unfold insertUser.
    rewrite (insertRow_primary_key_only userCell User.id) by done.
    rewrite (proj2 (existsb_false_iff _ _)).
    + simpl. repeat split.
    + intros u Hu. apply bool_decide_eq_false. simpl. by apply Hfree.
  - intros g n db u Hu Hid. unfold insertUser.
    rewrite (insertRow_primary_key_only userCell User.id) by done.
    destruct (existsb _ (users db)) eqn:He; [done|].
    rewrite existsb_false_iff in He. specialize (He u Hu).
    apply bool_decide_eq_false in He. simpl in He. done.
  - intros g n db Hfk Hfree. eexists. unfold insertRefreshToken, checkUserFk.
    rewrite Hfk. simpl.
    rewrite (insertRow_primary_key_only refreshTokenCell RefreshToken.id)
      by done.
    rewrite (proj2 (existsb_false_iff _ _)).
    + simpl. repeat split.
    + intros r Hr. apply bool_decide_eq_false. simpl. by apply Hfree.
Qed.

(** The duplicate of (google, 42) goes into [Scenario.store] next to the
    original. *)
Lemma uniqueness_is_primary_key_only_witness :
  ∃ u, insertUser (Scenario.gen "a0000000-0000-4000-8000-000000000002" 2000) Scenario.duplicateOfAlice Scenario.store
       = Resolved (u, {| users := users Scenario.store ++ [u];
                         refreshTokens := refreshTokens Scenario.store;
                         sessions := sessions Scenario.store |})
       ∧ User.id u = "a0000000-0000-4000-8000-000000000002"
       ∧ User.provider u = User.provider Scenario.alice
       ∧ User.providerId u = User.providerId Scenario.alice.
Proof.
  destruct uniqueness_is_primary_key_only as (_ & _ & _ & Hins & _).
  apply (Hins (Scenario.gen "a0000000-0000-4000-8000-000000000002" 2000) Scenario.duplicateOfAlice Scenario.store).
  intros u Hu. apply list_elem_of_In in Hu. simpl in Hu.
  destruct Hu as [<-|[]]. simpl. discriminate.
Defined.

(** ** TokenService *)

Lemma refreshCondition_true t now r :
  TokenService.refreshCondition t now r = true ↔
  RefreshToken.token r = t ∧ RefreshToken.isRevoked r = false
  ∧ RefreshToken.expiresAt r < now.
Proof.
  unfold TokenService.refreshCondition.
  rewrite !andb_true_iff, !bool_decide_eq_true. tauto.
Qed.

Lemma revokeRefreshToken_revokes t db r :
  r ∈ refreshTokens (TokenService.revokeRefreshToken t db) →
  RefreshToken.token r = t → RefreshToken.isRevoked r = true.
Proof.
  unfold TokenService.revokeRefreshToken, updateWhere. simpl.
  intros Hr Ht. apply list_elem_of_fmap in Hr as (r0 & -> & _).
  destruct (bool_decide (RefreshToken.token r0 = t)) eqn:Hd; [done|].
  apply bool_decide_eq_false in Hd. done.
Qed.

Section TokenServiceFacts.
Variable jwtSign : Timestamp → TokenPayload.t → string → Outcome string.

(** Whenever [refreshAccessToken] resolves, it found a stored record of
    that token value, not revoked, whose expiry lies strictly in the past,
    and a user owning it. *)
Lemma refreshAccessToken_resolved_inv now iat t db res :
  TokenService.refreshAccessToken jwtSign now iat t db = Resolved res →
  ∃ r u, r ∈ refreshTokens db ∧ RefreshToken.token r = t
         ∧ RefreshToken.isRevoked r = false
         ∧ RefreshToken.expiresAt r < now
         ∧ u ∈ users db ∧ User.id u = RefreshToken.userId r.
Proof.
  unfold TokenService.refreshAccessToken.
  destruct (selectWhere (TokenService.refreshCondition t now) _)
    as [|r rs] eqn:Hsel; [done|].
  destruct (selectWhere (λ u, bool_decide (User.id u = _)) _)
    as [|u us] eqn:Husr; [done|].
  intros _. exists r, u.
  assert (Hr : r ∈ selectWhere (TokenService.refreshCondition t now)
                     (refreshTokens db)) by (rewrite Hsel; left).
  assert (Hu : u ∈ selectWhere
                 (λ u, bool_decide (User.id u = RefreshToken.userId r))
                 (users db)) by (rewrite Husr; left).
  apply selectWhere_elem in Hr as [Hr Hc].
  apply selectWhere_elem in Hu as [Hu Hi].
  apply refreshCondition_true in Hc as (? & ? & ?).
  apply bool_decide_eq_true in Hi. auto 10.
Qed.

Lemma refreshAccessToken_no_candidate now iat t db :
  (∀ r, r ∈ refreshTokens db →
        TokenService.refreshCondition t now r = false) →
  TokenService.refreshAccessToken jwtSign now iat t db
  = Rejected (JsError "Invalid refresh token").
Proof.
  intros H. unfold TokenService.refreshAccessToken.
  apply selectWhere_nil in H. by rewrite H.
Qed.

(** The part of the refresh contract that the source does keep: a revoked
    token is never accepted. *)
Lemma refreshAccessToken_after_revoke now iat t db :
  TokenService.refreshAccessToken jwtSign now iat t
    (TokenService.revokeRefreshToken t db)
  = Rejected (JsError "Invalid refresh token").
Proof.
  apply refreshAccessToken_no_candidate. intros r Hr.
  destruct (TokenService.refreshCondition t now r) eqn:Hc; [|done].
  apply refreshCondition_true in Hc as (Ht & Hrev & _).
  pose proof (revokeRefreshToken_revokes _ _ _ Hr Ht). congruence.
Qed.

End TokenServiceFacts.

(** C1 (defect of the source).  [refreshAccessToken] selects
    with [lt(expiresAt, new Date())]: a token value all of whose records
    are still within their validity window ([now <= expiresAt]) is
    rejected with "Invalid refresh token", whether or not it is revoked and
    whether or not its user exists. *)
Theorem refreshAccessToken_rejects_unexpired
    (jwtSign : Timestamp → TokenPayload.t → string → Outcome string)
    (now iat : Timestamp) (t : string) (db : Db) :
  (∀ r, r ∈ refreshTokens db → RefreshToken.token r = t →
        now ≤ RefreshToken.expiresAt r) →
  TokenService.refreshAccessToken jwtSign now iat t db
  = Rejected (JsError "Invalid refresh token").
Proof.
  intros H. apply refreshAccessToken_no_candidate. intros r Hr.
  destruct (TokenService.refreshCondition t now r) eqn:Hc; [|done].
  apply refreshCondition_true in Hc as (Ht & _ & Hlt).
  specialize (H r Hr Ht). lia.
Qed.

(** The token ["rt-1"] of [Scenario.store], issued at instant 1000 for 30
    days to an existing user and never revoked, is refused one second
    later. *)
Lemma refreshAccessToken_rejects_unexpired_witness :
  TokenService.refreshAccessToken Scenario.jwtSign 2000 2000 "rt-1"
    Scenario.store
  = Rejected (JsError "Invalid refresh token").
Proof.
  apply refreshAccessToken_rejects_unexpired.
  intros r Hr Ht. simpl in Hr.
  repeat (apply elem_of_cons in Hr as [->|Hr]); try (by inversion Hr);
    simpl in *; try discriminate; unfold Scenario.day; lia.
Defined.

(** The same token is accepted once its 30 days have passed. *)
Example refreshAccessToken_accepts_expired_token :
  TokenService.refreshAccessToken Scenario.jwtSign
    (1000 + 31 * Scenario.day) (1000 + 31 * Scenario.day) "rt-1"
    Scenario.store
  = Resolved {| RefreshedToken.accessToken := "jwt.a0000000-0000-4000-8000-000000000001.google";
                RefreshedToken.expiresIn := JsString "1h" |}.
Proof. reflexivity. Qed.

(** C5, as stated, at the boundary: the token "rt-1" of [Scenario.store]
    expires exactly at the instant of the sweep, so it satisfies
    [expiresAt <= now], yet the sweep keeps it. *)
Lemma cleanupExpiredTokens_keeps_token_expiring_now :
  let now := 1000 + 30 * Scenario.day in
  ¬ (∀ r, r ∈ refreshTokens Scenario.store →
       (r ∈ refreshTokens (TokenService.cleanupExpiredTokens now Scenario.store)
        ↔ ¬ (RefreshToken.expiresAt r ≤ now
             ∨ RefreshToken.isRevoked r = true))).
Proof.
  intros now H.
  assert (Hin : Scenario.freshToken ∈ refreshTokens Scenario.store)
    by (apply list_elem_of_In; simpl; auto).
  apply H in Hin. apply Hin.
  - apply list_elem_of_In. vm_compute. auto.
  - left. simpl. lia.
Qed.

Lemma cleanupCondition_false now r :
  TokenService.cleanupCondition now r = false ↔
  now ≤ RefreshToken.expiresAt r ∧ RefreshToken.isRevoked r = false.
Proof.
  unfold TokenService.cleanupCondition.
  rewrite orb_false_iff, !bool_decide_eq_false.
  destruct (RefreshToken.isRevoked r); split; intros [? ?];
    split; try done; lia.
Qed.

(** C5 (amended: strict comparison).  [cleanupExpiredTokens] deletes exactly
    the refresh-token records with [expiresAt < now] or [isRevoked = true]:
    what remains is the stored list, in order, without those records, and
    users and sessions are not touched. *)
Theorem cleanupExpiredTokens_exact (now : Timestamp) (db : Db) :
  let db' := TokenService.cleanupExpiredTokens now db in
  refreshTokens db'
  = filter (λ r, ¬ (RefreshToken.expiresAt r < now
                    ∨ RefreshToken.isRevoked r = true)) (refreshTokens db)
  ∧ (∀ r, r ∈ refreshTokens db' ↔
          r ∈ refreshTokens db ∧ now ≤ RefreshToken.expiresAt r
          ∧ RefreshToken.isRevoked r = false)
  ∧ users db' = users db ∧ sessions db' = sessions db.
Proof.
  simpl. split; [|split; [|done]].
  - unfold deleteWhere. induction (refreshTokens db) as [|x l IH]; [done|].
    simpl. rewrite filter_cons. rewrite IH.
    destruct (TokenService.cleanupCondition now x) eqn:Hc; simpl.
    + rewrite decide_False; [done|]. intros Hn. apply Hn.
      unfold TokenService.cleanupCondition in Hc.
      apply orb_true_iff in Hc as [Hc|Hc];
        apply bool_decide_eq_true in Hc; auto.
    + rewrite decide_True; [done|].
      apply cleanupCondition_false in Hc as [? ?]. intros [?|?]; [lia|congruence].
  - intros r. rewrite deleteWhere_elem, cleanupCondition_false. tauto.
Qed.

(** C8.  [revokeRefreshToken] never fails and is idempotent: revoking twice
    is revoking once.  Every stored record keeps its place; a record whose
    token value matches is stored with [isRevoked = true] and its other
    columns unchanged, every other record is stored as it was; afterwards
    every record of that token value is revoked.  When no record matches,
    or every matching record is already revoked, the database is
    unchanged. *)
Theorem revokeRefreshToken_idempotent (t : string) (db : Db) :
  let db' := TokenService.revokeRefreshToken t db in
  TokenService.revokeRefreshToken t db' = db'
  ∧ length (refreshTokens db') = length (refreshTokens db)
  ∧ (∀ (i : nat) r, refreshTokens db !! i = Some r →
       refreshTokens db' !! i
       = Some (if decide (RefreshToken.token r = t)
               then {| RefreshToken.id := RefreshToken.id r;
                       RefreshToken.userId := RefreshToken.userId r;
                       RefreshToken.token := RefreshToken.token r;
                       RefreshToken.expiresAt := RefreshToken.expiresAt r;
                       RefreshToken.isRevoked := true;
                       RefreshToken.createdAt := RefreshToken.createdAt r |}
               else r))
  ∧ (∀ r, r ∈ refreshTokens db' → RefreshToken.token r = t →
          RefreshToken.isRevoked r = true)
  ∧ users db' = users db ∧ sessions db' = sessions db
  ∧ ((∀ r, r ∈ refreshTokens db → RefreshToken.token r = t →
           RefreshToken.isRevoked r = true) → db' = db).
Proof.
  simpl. repeat split.
  - unfold TokenService.revokeRefreshToken. simpl. f_equal.
    by apply updateWhere_twice.
  - apply updateWhere_length.
  - intros i r Hi. rewrite updateWhere_lookup, Hi. simpl.
    destruct (decide (RefreshToken.token r = t)) as [Ht|Ht].
    + by rewrite bool_decide_true.
    + by rewrite bool_decide_false.
  - intros r Hr Ht. unfold updateWhere in Hr.
    apply list_elem_of_fmap in Hr as (r0 & -> & _).
    destruct (bool_decide (RefreshToken.token r0 = t)) eqn:Hm; [done|].
    apply bool_decide_eq_false in Hm. done.
  - intros H. unfold TokenService.revokeRefreshToken.
    rewrite updateWhere_id; [by destruct db|].
    intros r Hr Ht. apply bool_decide_eq_true in Ht.
    specialize (H r Hr Ht). destruct r; simpl in *. by subst.
Qed.

(** On [Scenario.store]: revoking ["rt-1"] turns its record, not revoked
    before, into a revoked one and leaves the other record alone; revoking
    the already revoked ["rt-2"] changes nothing. *)
Lemma revokeRefreshToken_idempotent_witness :
  RefreshToken.isRevoked Scenario.freshToken = false
  ∧ refreshTokens (TokenService.revokeRefreshToken "rt-1" Scenario.store)
      !! 0%nat
    = Some {| RefreshToken.id := "b0000000-0000-4000-8000-000000000001";
              RefreshToken.userId := "a0000000-0000-4000-8000-000000000001";
              RefreshToken.token := "rt-1";
              RefreshToken.expiresAt := 1000 + 30 * Scenario.day;
              RefreshToken.isRevoked := true;
              RefreshToken.createdAt := 1000 |}
  ∧ refreshTokens (TokenService.revokeRefreshToken "rt-1" Scenario.store)
      !! 1%nat
    = Some Scenario.revokedToken
  ∧ TokenService.revokeRefreshToken "rt-2" Scenario.store = Scenario.store.
Proof.
  split; [reflexivity|].
  destruct (revokeRefreshToken_idempotent "rt-1" Scenario.store)
    as (_ & _ & Hrows & _).
  destruct (revokeRefreshToken_idempotent "rt-2" Scenario.store)
    as (_ & _ & _ & _ & _ & _ & Hnoop).
  split; [exact (Hrows 0%nat Scenario.freshToken eq_refl)|].
  split; [exact (Hrows 1%nat Scenario.revokedToken eq_refl)|].
  apply Hnoop. intros r Hr Ht. apply list_elem_of_In in Hr. simpl in Hr.
  destruct Hr as [<-|[<-|[]]]; simpl in Ht; try discriminate.
  reflexivity.
Defined.

(** C10.  Whenever [generateTokens] returns, its [expiresIn] is the number
    2592000 (the 30-day refresh window in seconds, not the 3600 seconds of
    the access token); whenever [refreshAccessToken] returns, its
    [expiresIn] is the string "1h".  The two values differ in type. *)
Theorem expiresIn_number_versus_string
    (jwtSign : Timestamp → TokenPayload.t → string → Outcome string) :
  (∀ iat uuid now g userId provider db tokens db',
     TokenService.generateTokens jwtSign iat uuid now g userId provider db
     = Resolved (tokens, db') →
     GeneratedTokens.expiresIn tokens = JsNumber 2592000)
  ∧ (∀ now iat refreshToken db tokens,
       TokenService.refreshAccessToken jwtSign now iat refreshToken db
       = Resolved tokens →
       RefreshedToken.expiresIn tokens = JsString "1h")
  ∧ REFRESH_TOKEN_EXPIRES_IN = 30 * 86400
  ∧ JsNumber 2592000 ≠ JsString "1h".
Proof.
  repeat split; [| |done].
  - intros iat uuid now g userId provider db tokens db'.
    unfold TokenService.generateTokens.
    destruct (jwtSign iat _ _) as [accessToken|e]; simpl; [|done].
    destruct (insertRefreshToken g _ db) as [[r db1]|e]; simpl; [|done].
    intros [= <- _]. reflexivity.
  - intros now iat refreshToken db tokens.
    unfold TokenService.refreshAccessToken.
    destruct (selectWhere _ (refreshTokens db)) as [|r rs]; [done|].
    destruct (selectWhere _ (users db)) as [|u us]; [done|].
    destruct (jwtSign iat _ _) as [accessToken|e]; simpl; [|done].
    intros [= <-]. reflexivity.
Qed.

(** On [Scenario.store]: tokens generated for the existing user carry
    2592000; the refresh of the (by then expired) token ["rt-1"] carries
    "1h". *)
Lemma expiresIn_number_versus_string_witness :
  match TokenService.generateTokens Scenario.jwtSign 2000 "rt-9" 2000
          (Scenario.gen "b0000000-0000-4000-8000-000000000009" 2000) "a0000000-0000-4000-8000-000000000001" "google" Scenario.store with
  | Resolved (tokens, _) => GeneratedTokens.expiresIn tokens = JsNumber 2592000
  | Rejected _ => False
  end
  ∧ match TokenService.refreshAccessToken Scenario.jwtSign
            (1000 + 31 * Scenario.day) (1000 + 31 * Scenario.day) "rt-1"
            Scenario.store with
    | Resolved tokens => RefreshedToken.expiresIn tokens = JsString "1h"
    | Rejected _ => False
    end.
Proof.
  destruct (expiresIn_number_versus_string Scenario.jwtSign)
    as (Hgen & Hrefresh & _).
  split.
  - destruct (TokenService.generateTokens _ _ _ _ _ _ _ _)
      as [[tokens db']|e] eqn:E.
    + eapply Hgen, E.
    + vm_compute in E. discriminate E.
  - destruct (TokenService.refreshAccessToken _ _ _ _ _) as [tokens|e] eqn:E.
    + eapply Hrefresh, E.
    + vm_compute in E. discriminate E.
Defined.

(** ** SessionService *)

Lemma selectWhere_byId_absent sid (rows : list Session.t) :
  (∀ s, s ∈ rows → Session.id s ≠ sid) →
  selectWhere (SessionService.byId sid) rows = [].
Proof.
  intros H. apply selectWhere_nil. intros s Hs.
  unfold SessionService.byId. apply bool_decide_eq_false. by apply H.
Qed.

Lemma selectWhere_byId_unique (rows : list Session.t) s :
  NoDup (Session.id <$> rows) → s ∈ rows →
  selectWhere (SessionService.byId (Session.id s)) rows = [s].
Proof.
  induction rows as [|x rows IH]; intros Hnd Hs; [by inversion Hs|].
  rewrite fmap_cons in Hnd. apply NoDup_cons in Hnd as [Hx Hnd].
  unfold selectWhere. simpl. unfold SessionService.byId at 1.
  apply elem_of_cons in Hs as [->|Hs].
  - rewrite bool_decide_true by done. f_equal.
    apply selectWhere_byId_absent. intros s Hs Heq.
    apply Hx. rewrite <- Heq. by apply list_elem_of_fmap_2.
  - rewrite bool_decide_false.
    + by apply IH.
    + intros Heq. apply Hx. rewrite Heq. by apply list_elem_of_fmap_2.
Qed.

Lemma updateWhere_ids p f (rows : list Session.t) :
  (∀ s, Session.id (f s) = Session.id s) →
  Session.id <$> updateWhere p f rows = Session.id <$> rows.
Proof.
  intros Hf. unfold updateWhere. rewrite <- list_fmap_compose.
  apply list_fmap_ext. intros i s _. simpl. destruct (p s); [apply Hf | done].
Qed.

Lemma uuidParam_Some text id :
  uuid_in text = Some id → SessionService.uuidParam text = Resolved id.
Proof. intros H. unfold SessionService.uuidParam. by rewrite H. Qed.

Lemma uuidParam_None text :
  uuid_in text = None →
  SessionService.uuidParam text = Rejected (InvalidUuid text).
Proof. intros H. unfold SessionService.uuidParam. by rewrite H. Qed.

Lemma updated_elem sid (f : Session.t → Session.t) (rows : list Session.t) s :
  s ∈ rows → Session.id s = sid →
  f s ∈ updateWhere (SessionService.byId sid) f rows.
Proof.
  intros Hs Hid.
  pose proof (updateWhere_elem (SessionService.byId sid) f _ _ Hs) as H.
  unfold SessionService.byId at 1 in H.
  by rewrite bool_decide_true in H.
Qed.

(** What [getSession] computes on a text that is not a uuid, on a stored,
    unexpired session, and otherwise. *)
Lemma getSession_rejects tCheck tTouch sid db :
  uuid_in sid = None →
  SessionService.getSession tCheck tTouch sid db = Rejected (InvalidUuid sid).
Proof.
  intros H. unfold SessionService.getSession.
  by rewrite (uuidParam_None _ H).
Qed.

Lemma getSession_live tCheck tTouch sid db s :
  sessionKeysUnique db → s ∈ sessions db →
  uuid_in sid = Some (Session.id s) → tCheck ≤ Session.expiresAt s →
  SessionService.getSession tCheck tTouch sid db
  = Resolved
      (Some s,
       SessionService.setSessions db
         (updateWhere (SessionService.byId (Session.id s))
            (SessionService.touch tTouch) (sessions db))).
Proof.
  intros Hkey Hs Hid Hlive. unfold SessionService.getSession.
  rewrite (uuidParam_Some _ _ Hid). simpl.
  rewrite (selectWhere_byId_unique _ _ Hkey Hs).
  by rewrite bool_decide_false by lia.
Qed.

Lemma getSession_dead tCheck tTouch sid id db :
  uuid_in sid = Some id →
  (∀ s, s ∈ sessions db → Session.id s = id →
        Session.expiresAt s < tCheck) →
  SessionService.getSession tCheck tTouch sid db = Resolved (None, db).
Proof.
  intros Hid Hexp. unfold SessionService.getSession.
  rewrite (uuidParam_Some _ _ Hid). simpl.
  destruct (selectWhere _ (sessions db)) as [|s rest] eqn:Hsel; [done|].
  assert (Hs : s ∈ selectWhere (SessionService.byId id) (sessions db))
    by (rewrite Hsel; left).
  apply selectWhere_elem in Hs as [Hs Heq].
  apply bool_decide_eq_true in Heq.
  by rewrite bool_decide_true by auto.
Qed.

(** C6, as stated, on a session that is well within its validity: the
    record handed back by [getSession] at instant 5000 does not carry
    [lastAccessedAt = 5000]. *)
Lemma getSession_returns_record_before_bump :
  ¬ (∃ s, returned (SessionService.getSession 5000 5000
                      "c0000000-0000-4000-8000-000000000001" Scenario.store)
          = Resolved (Some s)
          ∧ Session.lastAccessedAt s = 5000).
Proof.
  intros (s & Hs & Ht). vm_compute in Hs. injection Hs as <-.
  simpl in Ht. discriminate Ht.
Qed.

(** At the boundary [expiresAt = now] the session is still served. *)
Example getSession_serves_session_expiring_now :
  returned (SessionService.getSession (1000 + Scenario.day)
              (1000 + Scenario.day) "c0000000-0000-4000-8000-000000000001" Scenario.store)
  = Resolved (Some Scenario.aliceSession).
Proof. reflexivity. Qed.

(** A header that is not a uuid text is an error of the query, not a
    missing session. *)
Example getSession_rejects_other_text :
  SessionService.getSession 5000 5000 "not-a-uuid" Scenario.store
  = Rejected (InvalidUuid "not-a-uuid").
Proof. reflexivity. Qed.

(** C6 (amended).  With [id] a key of [sessions].  A [sessionId] that is
    not a uuid text makes the query fail.  For a uuid text, [getSession]
    returns not-found and writes nothing when no session has that id or
    the session's [expiresAt < now] (a session is served iff
    [now <= expiresAt]); otherwise it returns the session as it was read,
    and in the store the session of that id, and no other row, gets
    [lastAccessedAt] set to the instant of the update, every other field of
    every row being kept. *)
Theorem getSession_found_iff_not_expired
    (tCheck tTouch : Timestamp) (sid : string) (db : Db) :
  sessionKeysUnique db →
  let out := SessionService.getSession tCheck tTouch sid db in
  (uuid_in sid = None → out = Rejected (InvalidUuid sid))
  ∧ (∀ id, uuid_in sid = Some id →
       (∀ s, s ∈ sessions db → Session.id s = id →
             Session.expiresAt s < tCheck) →
       out = Resolved (None, db))
  ∧ (∀ s, s ∈ sessions db → uuid_in sid = Some (Session.id s) →
          tCheck ≤ Session.expiresAt s →
          returned out = Resolved (Some s)
          ∧ length (sessions (written db out)) = length (sessions db)
          ∧ (∀ (i : nat) x, sessions db !! i = Some x →
               sessions (written db out) !! i
               = Some (if decide (Session.id x = Session.id s)
                       then {| Session.id := Session.id x;
                               Session.userId := Session.userId x;
                               Session.data := Session.data x;
                               Session.expiresAt := Session.expiresAt x;
                               Session.createdAt := Session.createdAt x;
                               Session.lastAccessedAt := tTouch |}
                       else x))
          ∧ users (written db out) = users db
          ∧ refreshTokens (written db out) = refreshTokens db).
Proof.
  intros Hkey. simpl. split; [apply getSession_rejects|].
  split; [intros id Hid Hdead; by eapply getSession_dead|].
  intros s Hs Hid Hlive.
  rewrite (getSession_live tCheck tTouch sid db s Hkey Hs Hid Hlive). simpl.
  split; [done|]. split; [apply updateWhere_length|]. split; [|done].
  intros i x Hi. rewrite updateWhere_lookup, Hi. simpl.
  unfold SessionService.byId.
  destruct (decide (Session.id x = Session.id s)) as [He|He].
  - by rewrite bool_decide_true.
  - by rewrite bool_decide_false.
Qed.

(** On [Scenario.store]: the session is returned with the
    [lastAccessedAt] it had, 1000, and stored with 5001. *)
Lemma getSession_found_iff_not_expired_witness :
  let out := SessionService.getSession 5000 5001 "c0000000-0000-4000-8000-000000000001" Scenario.store in
  returned out = Resolved (Some Scenario.aliceSession)
  ∧ Session.lastAccessedAt Scenario.aliceSession = 1000
  ∧ Session.lastAccessedAt <$> sessions (written Scenario.store out) !! 0%nat
    = Some 5001.
Proof.
  intros out.
  assert (Hkey : sessionKeysUnique Scenario.store).
  { unfold sessionKeysUnique. simpl. apply NoDup_singleton. }
  destruct (getSession_found_iff_not_expired 5000 5001 "c0000000-0000-4000-8000-000000000001" Scenario.store
              Hkey) as (_ & _ & Hfound).
  destruct (Hfound Scenario.aliceSession) as (H1 & _ & H2 & _).
  - simpl. left.
  - reflexivity.
  - simpl. unfold Scenario.day. lia.
  - split; [exact H1|]. split; [reflexivity|].
    unfold out. rewrite (H2 0%nat Scenario.aliceSession eq_refl).
    reflexivity.
Defined.

(** The key is kept by the statements of the service. *)
Lemma createSession_sessionKeysUnique now g userId data db s db' :
  sessionKeysUnique db →
  SessionService.createSession now g userId data db = Resolved (s, db') →
  sessionKeysUnique db'.
Proof.
  unfold sessionKeysUnique, SessionService.createSession, insertSession.
  intros Hkey. unfold mbind, Outcome_bind.
  destruct (checkUserFk db _ _); [|done].
  rewrite (insertRow_primary_key_only sessionCell Session.id) by done.
  destruct (existsb _ (sessions db)) eqn:He; [done|].
  intros [= <- <-]. simpl. rewrite fmap_app. simpl.
  apply NoDup_app. split; [done|]. split; [|apply NoDup_singleton].
  intros i Hi Hi'. apply list_elem_of_fmap in Hi as (x & -> & Hx).
  apply list_elem_of_singleton in Hi'. simpl in Hi'.
  rewrite existsb_false_iff in He. specialize (He x Hx).
  apply bool_decide_eq_false in He. done.
Qed.

(** C9.  For every session id present in the store, [extendSession] sets
    [expiresAt] to the instant of the call plus 24 hours and
    [lastAccessedAt] to the instant of the update, whatever the previous
    expiry was; afterwards [getSession] serves the session at every instant
    up to the new expiry.  Nothing requires the session to be unexpired
    beforehand. *)
Theorem extendSession_unconditional
    (tExpiry tTouch : Timestamp) (sid : string) (db : Db) (s : Session.t) :
  sessionKeysUnique db → s ∈ sessions db →
  uuid_in sid = Some (Session.id s) →
  let s' := {| Session.id := Session.id s;
               Session.userId := Session.userId s;
               Session.data := Session.data s;
               Session.expiresAt := tExpiry + 24 * 60 * 60 * 1000;
               Session.createdAt := Session.createdAt s;
               Session.lastAccessedAt := tTouch |} in
  let out := SessionService.extendSession tExpiry tTouch sid db in
  returned out = Resolved (Some s')
  ∧ s' ∈ sessions (written db out)
  ∧ Session.expiresAt s' = tExpiry + 24 * 60 * 60 * 1000
  ∧ Session.lastAccessedAt s' = tTouch
  ∧ (∀ tCheck t, tCheck ≤ tExpiry + 24 * 60 * 60 * 1000 →
       returned (SessionService.getSession tCheck t sid (written db out))
       = Resolved (Some s')).
Proof.
  intros Hkey Hs Hid. simpl.
  assert (Hwin : addSeconds tExpiry SESSION_DURATION
                 = tExpiry + 24 * 60 * 60 * 1000)
    by (unfold addSeconds, SESSION_DURATION; lia).
  unfold SessionService.extendSession. rewrite Hwin.
  rewrite (uuidParam_Some _ _ Hid). simpl.
  set (e := SessionService.extend (tExpiry + 24 * 60 * 60 * 1000) tTouch).
  assert (Hin : e s ∈ updateWhere (SessionService.byId (Session.id s)) e
                        (sessions db)) by by apply updated_elem.
  repeat split; try done.
  - by rewrite (selectWhere_byId_unique _ _ Hkey Hs).
  - intros tCheck t Hle.
    assert (Hkey' : sessionKeysUnique
                      (SessionService.setSessions db
                         (updateWhere (SessionService.byId (Session.id s)) e
                            (sessions db)))).
    { unfold sessionKeysUnique. simpl.
      rewrite updateWhere_ids; [exact Hkey | done]. }
    rewrite (getSession_live tCheck t sid _ (e s) Hkey' Hin); [done|done|].
    simpl. lia.
Qed.

(** The session of [Scenario.store] expired at instant [1000 + day].  One
    day later it is no longer served; [extendSession] at that instant
    brings it back. *)
Lemma extendSession_unconditional_witness :
  let late := 1000 + 2 * Scenario.day in
  returned (SessionService.getSession late late
              "c0000000-0000-4000-8000-000000000001" Scenario.store)
  = Resolved None
  ∧ returned
      (SessionService.getSession late late
         "c0000000-0000-4000-8000-000000000001"
         (written Scenario.store
            (SessionService.extendSession late late
               "c0000000-0000-4000-8000-000000000001" Scenario.store)))
    = Resolved (Some {| Session.id := "c0000000-0000-4000-8000-000000000001";
                        Session.userId :=
                          "a0000000-0000-4000-8000-000000000001";
                        Session.data := ∅;
                        Session.expiresAt := late + 24 * 60 * 60 * 1000;
                        Session.createdAt := 1000;
                        Session.lastAccessedAt := late |}).
Proof.
  intros late. split; [reflexivity|].
  assert (Hkey : sessionKeysUnique Scenario.store).
  { unfold sessionKeysUnique. simpl. apply NoDup_singleton. }
  assert (Hin : Scenario.aliceSession ∈ sessions Scenario.store)
    by (simpl; left).
  destruct (extendSession_unconditional late late
              "c0000000-0000-4000-8000-000000000001" Scenario.store
              Scenario.aliceSession Hkey Hin eq_refl)
    as (_ & _ & _ & _ & Husable).
  apply Husable. lia.
Defined.

(** ** The callback of the router *)

Section RoutesFacts.
Variable hasClient : string → bool.
Variable BASE_URL : string.
Variable calculatePKCECodeChallenge : string → Outcome string.
Variable buildAuthorizationUrl :
  string → list (string * string) → Outcome string.
Variable authorizationCodeGrant :
  string → string → string → string → Outcome string.
Variable fetchDiscord : string → Outcome FetchResponse.t.
Variable parseDiscordUser : string → Outcome DiscordUser.t.
Variable fetchProtectedResource : string → string → Outcome (option string).
Variable parseUserInfo : string → Outcome UserInfo.t.
Variable jwtSign : Timestamp → TokenPayload.t → string → Outcome string.

Local Abbreviation loginHandler :=
  (Routes.loginHandler hasClient BASE_URL calculatePKCECodeChallenge
     buildAuthorizationUrl).
Local Abbreviation fetchUserInfo :=
  (Routes.fetchUserInfo fetchDiscord parseDiscordUser fetchProtectedResource
     parseUserInfo).
Local Abbreviation callbackAttempt :=
  (Routes.callbackAttempt authorizationCodeGrant fetchDiscord
     parseDiscordUser fetchProtectedResource parseUserInfo jwtSign).
Local Abbreviation callbackHandler :=
  (Routes.callbackHandler hasClient authorizationCodeGrant fetchDiscord
     parseDiscordUser fetchProtectedResource parseUserInfo jwtSign).
Local Abbreviation handle :=
  (Routes.handle hasClient BASE_URL calculatePKCECodeChallenge
     buildAuthorizationUrl authorizationCodeGrant fetchDiscord
     parseDiscordUser fetchProtectedResource parseUserInfo jwtSign).
Local Abbreviation run :=
  (Routes.run hasClient BASE_URL calculatePKCECodeChallenge
     buildAuthorizationUrl authorizationCodeGrant fetchDiscord
     parseDiscordUser fetchProtectedResource parseUserInfo jwtSign).

(** The three ways out of the handler before its [try]. *)
Lemma callbackHandler_unknown_provider provider queryState url r w :
  hasClient provider = false →
  callbackHandler provider queryState url r w
  = (respond 400 (ErrorBody "Invalid provider"), w).
Proof. intros H. unfold Routes.callbackHandler, Routes.callbackCheck, Routes.callbackSettle. by rewrite H. Qed.

Lemma callbackHandler_unknown_state provider s url r w :
  hasClient provider = true → states w !! s = None →
  callbackHandler provider (Some s) url r w
  = (respond 400 (ErrorBody "Invalid state"), w).
Proof.
  intros H Hs. unfold Routes.callbackHandler, Routes.callbackCheck, Routes.callbackSettle. rewrite H. simpl.
  by rewrite Hs.
Qed.

Lemma callbackHandler_other_provider provider s url r w p :
  hasClient provider = true → states w !! s = Some p →
  PendingExchange.provider p ≠ provider →
  callbackHandler provider (Some s) url r w
  = (respond 400 (ErrorBody "Invalid state"), w).
Proof.
  intros H Hs Hp. unfold Routes.callbackHandler, Routes.callbackCheck, Routes.callbackSettle. rewrite H. simpl.
  rewrite Hs. by rewrite bool_decide_false.
Qed.

(** Past the checks, the [try] block runs and [finally] deletes the
    entry. *)
Lemma callbackHandler_accepted provider s url r w p :
  hasClient provider = true → states w !! s = Some p →
  PendingExchange.provider p = provider →
  callbackHandler provider (Some s) url r w
  = (match (callbackAttempt provider url p r (db w)).1 with
     | Resolved body => respond 200 body
     | Rejected _ => respond 500 (ErrorBody "Authentication failed")
     end,
     {| states := delete (PendingExchange.state p) (states w);
        db := (callbackAttempt provider url p r (db w)).2 |}).
Proof.
  intros H Hs Hp. unfold Routes.callbackHandler, Routes.callbackCheck, Routes.callbackSettle. rewrite H. simpl.
  rewrite Hs. rewrite bool_decide_true by done. simpl.
  by destruct (callbackAttempt provider url p r (db w)) as [[body|e] db'].
Qed.

Lemma loginHandler_statesKeyed codeVerifier state provider w :
  statesKeyed w → statesKeyed (loginHandler codeVerifier state provider w).2.
Proof.
  intros Hw. unfold Routes.loginHandler.
  destruct (hasClient provider); simpl; [|done].
  destruct (calculatePKCECodeChallenge codeVerifier); simpl; [|done].
  intros k p. simpl. rewrite lookup_insert.
  case_decide as Hk; [|by apply Hw].
  by intros [= <-].
Qed.

Lemma callbackHandler_statesKeyed provider queryState url r w :
  statesKeyed w → statesKeyed (callbackHandler provider queryState url r w).2.
Proof.
  intros Hw. unfold Routes.callbackHandler, Routes.callbackCheck, Routes.callbackSettle.
  destruct (hasClient provider); simpl; [|done].
  destruct (queryState ≫= _) as [p|]; [|done].
  destruct (bool_decide _); simpl; [|done].
  destruct (callbackAttempt provider url p r (db w)) as [result db'].
  intros k q. simpl. rewrite lookup_delete.
  case_decide; [done | by apply Hw].
Qed.

Lemma handle_statesKeyed w q : statesKeyed w → statesKeyed (handle w q).
Proof.
  intros Hw. destruct q as [cv st pr|pr qs url r|now iat t|t|c|c|c]; simpl.
  - by apply loginHandler_statesKeyed.
  - by apply callbackHandler_statesKeyed.
  - unfold Routes.refreshHandler.
    destruct t as [[|a t]|]; simpl; try done.
    by destruct (TokenService.refreshAccessToken _ _ _ _ _).
  - unfold Routes.revokeHandler. by destruct t as [[|a t]|].
  - by destruct c.
  - unfold Routes.deleteSessionHandler. destruct c as [c|]; [|done].
    by destruct (SessionService.deleteSession _ _).
  - unfold Routes.deleteSessionsHandler. destruct c as [c|]; [|done].
    by destruct (SessionService.deleteUserSessions _ _).
Qed.

(** Every world the router can reach by serving requests one after the
    other keeps its entries under their own state value. *)
Lemma run_statesKeyed db0 qs :
  statesKeyed (run (Routes.createAuthRouter db0) qs).
Proof.
  unfold Routes.run.
  assert (H0 : statesKeyed (Routes.createAuthRouter db0)).
  { intros k p. simpl. by rewrite lookup_empty. }
  revert H0. generalize (Routes.createAuthRouter db0) as w.
  induction qs as [|q qs IH]; intros w Hw; [done|].
  simpl. apply IH. by apply handle_statesKeyed.
Qed.

(** When the code exchange or the user-info step rejects, the [try] block
    stops before its first statement against the database. *)
Lemma callbackAttempt_provider_failure provider url p r db e :
  authorizationCodeGrant provider url (PendingExchange.codeVerifier p)
    (PendingExchange.state p) = Rejected e
  ∨ (∃ access_token,
       authorizationCodeGrant provider url (PendingExchange.codeVerifier p)
         (PendingExchange.state p) = Resolved access_token
       ∧ fetchUserInfo provider access_token = Rejected e) →
  callbackAttempt provider url p r db = (Rejected e, db).
Proof.
  unfold Routes.callbackAttempt, mbind, Attempt_bind, await.
  intros [Hg|(access_token & Hg & Hu)]; rewrite Hg; [done|].
  by rewrite Hu.
Qed.

(** C7.  For a callback that passed the state check: if the code exchange
    rejects, or it resolves and the user-info step rejects, the response is
    500 "Authentication failed" and the database is exactly what it was: no
    user row, no refresh token, no session was written. *)
Theorem provider_failure_writes_nothing provider s url r w p e :
  hasClient provider = true →
  states w !! s = Some p →
  PendingExchange.provider p = provider →
  authorizationCodeGrant provider url (PendingExchange.codeVerifier p)
    (PendingExchange.state p) = Rejected e
  ∨ (∃ access_token,
       authorizationCodeGrant provider url (PendingExchange.codeVerifier p)
         (PendingExchange.state p) = Resolved access_token
       ∧ fetchUserInfo provider access_token = Rejected e) →
  let res := (callbackHandler provider (Some s) url r w).1 in
  let w' := (callbackHandler provider (Some s) url r w).2 in
  res = respond 500 (ErrorBody "Authentication failed")
  ∧ users (db w') = users (db w)
  ∧ sessions (db w') = sessions (db w)
  ∧ db w' = db w.
Proof.
  intros Hc Hs Hp Hfail. simpl.
  rewrite (callbackHandler_accepted _ _ _ _ _ _ Hc Hs Hp).
  rewrite (callbackAttempt_provider_failure _ _ _ _ _ _ Hfail). done.
Qed.

(** A state value under which nothing is registered stays so as long as no
    login registers it. *)
Lemma handle_keeps_absent w q s :
  states w !! s = None → ¬ registersState s q →
  states (handle w q) !! s = None.
Proof.
  intros Hs Hq.
  destruct q as [cv st pr|pr qs url r|now iat t|t|c|c|c]; simpl.
  - unfold Routes.loginHandler. destruct (hasClient pr); simpl; [|done].
    destruct (calculatePKCECodeChallenge cv); simpl; [|done].
    rewrite lookup_insert_ne; [done|]. exact Hq.
  - unfold Routes.callbackHandler, Routes.callbackCheck,
      Routes.callbackSettle.
    destruct (hasClient pr); simpl; [|done].
    destruct (qs ≫= _) as [p|]; [|done].
    destruct (bool_decide _); simpl; [|done].
    destruct (callbackAttempt pr url p r (db w)) as [result db']. simpl.
    rewrite lookup_delete. by case_decide.
  - unfold Routes.refreshHandler.
    destruct t as [[|a t]|]; simpl; try done.
    by destruct (TokenService.refreshAccessToken _ _ _ _ _).
  - unfold Routes.revokeHandler. by destruct t as [[|a t]|].
  - by destruct c.
  - unfold Routes.deleteSessionHandler. destruct c as [c|]; [|done].
    by destruct (SessionService.deleteSession _ _).
  - unfold Routes.deleteSessionsHandler. destruct c as [c|]; [|done].
    by destruct (SessionService.deleteUserSessions _ _).
Qed.

Lemma run_keeps_absent w qs s :
  states w !! s = None → Forall (λ q, ¬ registersState s q) qs →
  states (run w qs) !! s = None.
Proof.
  unfold Routes.run. revert w.
  induction qs as [|q qs IH]; intros w Hs Hqs; [done|].
  apply Forall_cons in Hqs as [Hq Hqs]. simpl.
  apply IH; [|done]. by apply handle_keeps_absent.
Qed.

(** C2 (amended).  In every world the router reaches by serving requests
    one after the other: a callback that passes the state check (an entry
    is registered under the presented state value, for the provider of the
    path) answers 200 or 500 "Authentication failed" and in both cases
    leaves [states] without that entry; from then on, after any further
    requests among which no login registers that same state value again,
    a callback presenting it is refused with 400 and changes nothing.  A
    callback refused by the check itself answers 400 and leaves the world,
    its [states] entry included, as it was. *)
Theorem accepted_callback_consumes_state db0 qs provider s url r :
  let w := run (Routes.createAuthRouter db0) qs in
  let res := (callbackHandler provider (Some s) url r w).1 in
  let w' := (callbackHandler provider (Some s) url r w).2 in
  (∀ p, hasClient provider = true → states w !! s = Some p →
        PendingExchange.provider p = provider →
        (Response.status res = 200
         ∨ res = respond 500 (ErrorBody "Authentication failed"))
        ∧ states w' = delete s (states w)
        ∧ states w' !! s = None
        ∧ ∀ later provider' url' r',
            Forall (λ q, ¬ registersState s q) later →
            callbackHandler provider' (Some s) url' r' (run w' later)
            = (respond 400 (ErrorBody (if hasClient provider'
                                       then "Invalid state"
                                       else "Invalid provider")),
               run w' later))
  ∧ (hasClient provider = false ∨ states w !! s = None
     ∨ (∃ p, states w !! s = Some p ∧ PendingExchange.provider p ≠ provider) →
     Response.status res = 400 ∧ w' = w).
Proof.
  simpl. set (w := run (Routes.createAuthRouter db0) qs).
  assert (Hw : statesKeyed w) by apply run_statesKeyed.
  split.
  - intros p Hc Hs Hp.
    rewrite (callbackHandler_accepted _ _ _ _ _ _ Hc Hs Hp). simpl.
    rewrite (Hw _ _ Hs).
    split; [|split; [done|split; [apply lookup_delete_eq|]]].
    + destruct (callbackAttempt provider url p r (db w)).1; auto.
    + intros later provider' url' r' Hlater.
      destruct (hasClient provider') eqn:Hc'.
      * apply callbackHandler_unknown_state; [done|].
        apply run_keeps_absent; [|done]. simpl. apply lookup_delete_eq.
      * by apply callbackHandler_unknown_provider.
  - intros [Hc|[Hs|(p & Hs & Hp)]].
    + by rewrite callbackHandler_unknown_provider.
    + destruct (hasClient provider) eqn:Hc.
      * by rewrite callbackHandler_unknown_state.
      * by rewrite callbackHandler_unknown_provider.
    + destruct (hasClient provider) eqn:Hc.
      * by rewrite (callbackHandler_other_provider _ _ _ _ _ _ Hc Hs Hp).
      * by rewrite callbackHandler_unknown_provider.
Qed.

End RoutesFacts.

(** ** Find or create user *)

Lemma findOrCreateUser_existing g provider info db u rest :
  selectWhere (λ u, bool_decide (User.providerId u = UserInfo.sub info))
    (users db) = u :: rest →
  Routes.findOrCreateUser g provider info db = (Resolved (User.id u), db).
Proof.
  intros H. unfold Routes.findOrCreateUser, mbind, Attempt_bind, readDb.
  by rewrite H.
Qed.

(** X25.  A second login under the same subject id resolves to the user id
    of the first and writes nothing: once the find-or-create step has
    returned a user id, the step for any profile of that subject id,
    whatever its email, its name and the provider, returns that id again
    and leaves the database, the stored email and name included, as it
    is. *)
Lemma findOrCreateUser_repeat g g' provider provider' info info' db uid db1 :
  UserInfo.sub info' = UserInfo.sub info →
  Routes.findOrCreateUser g provider info db = (Resolved uid, db1) →
  Routes.findOrCreateUser g' provider' info' db1 = (Resolved uid, db1).
Proof.
  intros Hsub. unfold Routes.findOrCreateUser at 1.
  unfold mbind, Attempt_bind, readDb, statement.
  destruct (selectWhere _ (users db)) as [|u rest] eqn:Hsel.
  - unfold insertUser, mbind, Outcome_bind.
    destruct (insertRow userCell Migration.users (users db) _)
      as [rows|e] eqn:Hins; simpl; [|done].
    intros [= <- <-].
    unfold insertRow in Hins.
    destruct (violatedKey _ _ _ _); [done|]. injection Hins as <-.
    match goal with
    | |- context [users db ++ [?x]] =>
      rewrite (findOrCreateUser_existing g' provider' info' _ x []); [done|]
    end.
    simpl. rewrite Hsub. unfold selectWhere in *.
    rewrite List.filter_app, Hsel. simpl.
    by rewrite bool_decide_true.
  - simpl. intros [= <- <-]. eapply findOrCreateUser_existing.
    rewrite Hsub. exact Hsel.
Qed.

(** C3 (defect of the source).  The lookup is by subject id
    alone: as soon as some stored user has the subject id of the profile,
    under whatever provider, no user is created and the id of a stored user
    with that subject id is returned. *)
Theorem findOrCreateUser_ignores_provider
    (g : Generated) (provider : string) (info : UserInfo.t) (db : Db)
    (u : User.t) :
  u ∈ users db → User.providerId u = UserInfo.sub info →
  ∃ u', u' ∈ users db ∧ User.providerId u' = UserInfo.sub info
        ∧ Routes.findOrCreateUser g provider info db
          = (Resolved (User.id u'), db).
Proof.
  intros Hu Hsub.
  destruct (selectWhere
              (λ u, bool_decide (User.providerId u = UserInfo.sub info))
              (users db)) as [|u' rest] eqn:Hsel.
  - pose proof (proj1 (selectWhere_nil _ _) Hsel u Hu) as Hno.
    apply bool_decide_eq_false in Hno. done.
  - exists u'.
    assert (Hu' : u' ∈ selectWhere
                    (λ u, bool_decide (User.providerId u = UserInfo.sub info))
                    (users db)) by (rewrite Hsel; left).
    apply selectWhere_elem in Hu' as [Hin Hp].
    apply bool_decide_eq_true in Hp.
    split; [done|]. split; [done|].
    by eapply findOrCreateUser_existing.
Qed.

(** With the Google user (google, 42) stored, the Discord profile of subject
    id 42 resolves to that Google user; no (discord, 42) user is created. *)
Lemma findOrCreateUser_ignores_provider_witness :
  Routes.findOrCreateUser (Scenario.gen "a0000000-0000-4000-8000-000000000002" 2000) "discord"
    {| UserInfo.email := "dee@example.com"; UserInfo.name := "dee";
       UserInfo.sub := "42" |} Scenario.store
  = (Resolved "a0000000-0000-4000-8000-000000000001", Scenario.store).
Proof.
  destruct (findOrCreateUser_ignores_provider (Scenario.gen "a0000000-0000-4000-8000-000000000002" 2000)
              "discord"
              {| UserInfo.email := "dee@example.com"; UserInfo.name := "dee";
                 UserInfo.sub := "42" |} Scenario.store Scenario.alice)
    as (u' & Hin & _ & Hres).
  - simpl. left.
  - reflexivity.
  - apply list_elem_of_In in Hin. simpl in Hin.
    destruct Hin as [<-|[]]. exact Hres.
Defined.

(** The same through the router, on [Scenario.store], which holds the
    Google user of subject 42: after a Discord login of id 42 there is
    still that one user row, and the new refresh token and the new session
    belong to it. *)
Example discord_login_lands_on_google_user :
  let w := Scenario.run (Routes.createAuthRouter Scenario.store)
             [ Routes.Login "v-2" "S2" "discord";
               Routes.Callback "discord" (Some "S2") "/cb?state=S2&code=b"
                 (Scenario.reads "7" 2000) ] in
  users (db w) = [Scenario.alice]
  ∧ User.provider Scenario.alice = "google"
  ∧ Session.userId <$> sessions (db w)
    = ["a0000000-0000-4000-8000-000000000001";
       "a0000000-0000-4000-8000-000000000001"]
  ∧ RefreshToken.userId <$> refreshTokens (db w)
    = ["a0000000-0000-4000-8000-000000000001";
       "a0000000-0000-4000-8000-000000000001";
       "a0000000-0000-4000-8000-000000000001"]
  ∧ states w = ∅.
Proof. vm_compute. repeat split. Qed.

(** ** The router on [Scenario] *)

(** C2, as stated: a login for Discord registers the state "S1".  A first
    callback presents "S1" on the Google path and is refused with "Invalid
    state"; the entry is still registered afterwards, and a second callback
    presenting the same "S1" on the Discord path is not refused: it
    completes the login. *)
Lemma state_survives_refused_callback :
  let w := Scenario.run (Routes.createAuthRouter emptyDb)
             [ Routes.Login "v-1" "S1" "discord" ] in
  let first := Scenario.callbackHandler "google" (Some "S1")
                 "/cb?state=S1&code=a" (Scenario.reads "1" 1000) w in
  let second := Scenario.callbackHandler "discord" (Some "S1")
                  "/cb?state=S1&code=a" (Scenario.reads "2" 2000) first.2 in
  first.1 = respond 400 (ErrorBody "Invalid state")
  ∧ ¬ (states first.2 !! "S1" = None)
  ∧ ¬ (second.1 = respond 400 (ErrorBody "Invalid state"))
  ∧ Response.status second.1 = 200.
Proof.
  simpl. split; [vm_compute; reflexivity|].
  split; [intros H; vm_compute in H; discriminate H|].
  split; [intros H; vm_compute in H; discriminate H|].
  vm_compute. reflexivity.
Qed.

(** A state consumed by an accepted callback: the Discord login of "S1"
    completes with 200; a replay of "S1" is refused with "Invalid state",
    also after a login that registered another state value. *)
Lemma accepted_callback_consumes_state_witness :
  let w := Scenario.run (Routes.createAuthRouter emptyDb)
             [ Routes.Login "v-1" "S1" "discord" ] in
  let first := Scenario.callbackHandler "discord" (Some "S1")
                 "/cb?state=S1&code=a" (Scenario.reads "1" 1000) w in
  let later := Scenario.run first.2 [ Routes.Login "v-2" "S2" "discord" ] in
  Response.status first.1 = 200
  ∧ states first.2 !! "S1" = None
  ∧ Scenario.callbackHandler "discord" (Some "S1") "/cb?state=S1&code=a"
      (Scenario.reads "2" 2000) later
    = (respond 400 (ErrorBody "Invalid state"), later).
Proof.
  simpl.
  destruct (accepted_callback_consumes_state Scenario.hasClient
              Scenario.BASE_URL Scenario.calculatePKCECodeChallenge
              Scenario.buildAuthorizationUrl Scenario.authorizationCodeGrant
              Scenario.fetchDiscord Scenario.parseDiscordUser
              Scenario.fetchProtectedResource Scenario.parseUserInfo
              Scenario.jwtSign emptyDb [ Routes.Login "v-1" "S1" "discord" ]
              "discord" "S1" "/cb?state=S1&code=a" (Scenario.reads "1" 1000))
    as [Hacc _].
  destruct (Hacc {| PendingExchange.codeVerifier := "v-1";
                    PendingExchange.state := "S1";
                    PendingExchange.provider := "discord" |})
    as (_ & _ & Hgone & Hreplay).
  - reflexivity.
  - vm_compute. reflexivity.
  - reflexivity.
  - split; [vm_compute; reflexivity|]. split; [exact Hgone|].
    apply (Hreplay [ Routes.Login "v-2" "S2" "discord" ] "discord"
             "/cb?state=S1&code=a" (Scenario.reads "2" 2000)).
    apply Forall_cons. split; [simpl; discriminate | apply Forall_nil_2].
Defined.

(** Where the amended statement stops: once a login has registered "S1"
    again, a callback presenting it is accepted again. *)
Example state_registered_again_is_accepted_again :
  let w := Scenario.run (Routes.createAuthRouter emptyDb)
             [ Routes.Login "v-1" "S1" "discord";
               Routes.Callback "discord" (Some "S1") "/cb?state=S1&code=a"
                 (Scenario.reads "1" 1000);
               Routes.Login "v-2" "S1" "discord" ] in
  Response.status
    (Scenario.callbackHandler "discord" (Some "S1") "/cb?state=S1&code=b"
       (Scenario.reads "2" 2000) w).1 = 200.
Proof. vm_compute. reflexivity. Qed.

(** The provider rejects the code of a registered Google login: 500
    "Authentication failed", and [Scenario.store] is untouched. *)
Lemma provider_failure_writes_nothing_witness :
  let w := {| states := {[ "S1" := {| PendingExchange.codeVerifier := "v-1";
                                      PendingExchange.state := "S1";
                                      PendingExchange.provider := "google" |} ]};
              db := Scenario.store |} in
  let out := Routes.callbackHandler Scenario.hasClient
               Scenario.rejectingCodeGrant Scenario.fetchDiscord
               Scenario.parseDiscordUser Scenario.fetchProtectedResource
               Scenario.parseUserInfo Scenario.jwtSign
               "google" (Some "S1") "/cb?state=S1&code=a"
               (Scenario.reads "9" 3000) w in
  out.1 = respond 500 (ErrorBody "Authentication failed")
  ∧ db out.2 = Scenario.store.
Proof.
  simpl.
  destruct (provider_failure_writes_nothing Scenario.hasClient
              Scenario.rejectingCodeGrant Scenario.fetchDiscord
              Scenario.parseDiscordUser Scenario.fetchProtectedResource
              Scenario.parseUserInfo Scenario.jwtSign
              "google" "S1" "/cb?state=S1&code=a" (Scenario.reads "9" 3000)
              {| states := {[ "S1" := {| PendingExchange.codeVerifier := "v-1";
                                         PendingExchange.state := "S1";
                                         PendingExchange.provider := "google" |} ]};
                 db := Scenario.store |}
              {| PendingExchange.codeVerifier := "v-1";
                 PendingExchange.state := "S1";
                 PendingExchange.provider := "google" |}
              (JsError "invalid_grant"))
    as (Hres & _ & _ & Hdb).
  - reflexivity.
  - vm_compute. reflexivity.
  - reflexivity.
  - left. reflexivity.
  - split; [exact Hres | exact Hdb].
Defined.

(** Discord answers 401 to the profile request: the same outcome. *)
Example discord_profile_failure_writes_nothing :
  let w := {| states := {[ "S2" := {| PendingExchange.codeVerifier := "v-2";
                                      PendingExchange.state := "S2";
                                      PendingExchange.provider := "discord" |} ]};
              db := Scenario.store |} in
  Routes.callbackHandler Scenario.hasClient Scenario.authorizationCodeGrant
    Scenario.failingFetchDiscord Scenario.parseDiscordUser
    Scenario.fetchProtectedResource Scenario.parseUserInfo Scenario.jwtSign
    "discord" (Some "S2") "/cb?state=S2&code=b" (Scenario.reads "9" 3000) w
  = (respond 500 (ErrorBody "Authentication failed"),
     {| states := ∅; db := Scenario.store |}).
Proof. vm_compute. reflexivity. Qed.

(** On the OpenID Connect branch the stream body never parses: a Google
    callback with an accepted code answers 500 and writes nothing. *)
Example google_callback_cannot_complete :
  let w := {| states := {[ "S1" := {| PendingExchange.codeVerifier := "v-1";
                                      PendingExchange.state := "S1";
                                      PendingExchange.provider := "google" |} ]};
              db := Scenario.store |} in
  Scenario.callbackHandler "google" (Some "S1") "/cb?state=S1&code=a"
    (Scenario.reads "9" 3000) w
  = (respond 500 (ErrorBody "Authentication failed"),
     {| states := ∅; db := Scenario.store |}).
Proof. vm_compute. reflexivity. Qed.

(** Outside the sequential reading: two callbacks present "S1", and the
    check of the second runs while the first is still awaiting the provider,
    before its [finally].  Both checks find the entry and both callbacks
    complete. *)
Example interleaved_callbacks_both_accepted :
  let w := Scenario.run (Routes.createAuthRouter emptyDb)
             [ Routes.Login "v-1" "S1" "discord" ] in
  let p := {| PendingExchange.codeVerifier := "v-1";
              PendingExchange.state := "S1";
              PendingExchange.provider := "discord" |} in
  let first := Scenario.callbackSettle "discord" "/cb?state=S1&code=a" p
                 (Scenario.reads "1" 1000) w in
  let second := Scenario.callbackSettle "discord" "/cb?state=S1&code=a" p
                  (Scenario.reads "2" 2000) first.2 in
  Scenario.callbackCheck "discord" (Some "S1") w = inr p
  ∧ Response.status first.1 = 200
  ∧ Response.status second.1 = 200
  ∧ Session.id <$> sessions (db second.2)
    = ["c0000000-0000-4000-8000-000000000001";
       "c0000000-0000-4000-8000-000000000002"].
Proof. vm_compute. repeat split. Qed.

(** * Further properties *)

(** ** TokenService: issue, sweep, refresh *)

Section TokenServiceMore.
Variable jwtSign : Timestamp → TokenPayload.t → string → Outcome string.


(** X2.  A successful refresh signs the new access token for the stored
    owner of the selected record, with the id and the provider of the user
    row; nothing of the payload comes from the request. *)
Theorem refreshAccessToken_signs_for_owner now iat t db res :
  TokenService.refreshAccessToken jwtSign now iat t db = Resolved res →
  ∃ r u, r ∈ refreshTokens db ∧ RefreshToken.token r = t
         ∧ u ∈ users db ∧ User.id u = RefreshToken.userId r
         ∧ jwtSign iat {| TokenPayload.userId := User.id u;
                          TokenPayload.provider := User.provider u |} "1h"
           = Resolved (RefreshedToken.accessToken res).
Proof.
  unfold TokenService.refreshAccessToken.
  destruct (selectWhere (TokenService.refreshCondition t now) _)
    as [|r rs] eqn:Hsel; [done|].
  destruct (selectWhere (λ u, bool_decide (User.id u = _)) _)
    as [|u us] eqn:Husr; [done|].
  unfold ACCESS_TOKEN_EXPIRES_IN.
  destruct (jwtSign iat _ _) as [a|e] eqn:Hsign; simpl; [|done].
  intros [= <-]. exists r, u.
  assert (Hr : r ∈ selectWhere (TokenService.refreshCondition t now)
                     (refreshTokens db)) by (rewrite Hsel; left).
  assert (Hu : u ∈ selectWhere
                 (λ u, bool_decide (User.id u = RefreshToken.userId r))
                 (users db)) by (rewrite Husr; left).
  apply selectWhere_elem in Hr as [Hr Hc].
  apply selectWhere_elem in Hu as [Hu Hi].
  apply refreshCondition_true in Hc as (? & ? & ?).
  apply bool_decide_eq_true in Hi. simpl. auto 10.
Qed.

(** X3.  In a database that satisfies the foreign key of
    [refresh_tokens], the "User not found" branch is never taken: a refresh
    is rejected either with "Invalid refresh token", and then no stored
    record qualifies, or with whatever [jwt.sign] threw for the stored
    owner of a qualifying record. *)
Theorem refreshAccessToken_rejections now iat t db e :
  referencesHold db →
  TokenService.refreshAccessToken jwtSign now iat t db = Rejected e →
  (e = JsError "Invalid refresh token"
   ∧ ∀ r, r ∈ refreshTokens db →
          TokenService.refreshCondition t now r = false)
  ∨ (∃ r u, r ∈ refreshTokens db
            ∧ TokenService.refreshCondition t now r = true
            ∧ u ∈ users db ∧ User.id u = RefreshToken.userId r
            ∧ jwtSign iat {| TokenPayload.userId := User.id u;
                             TokenPayload.provider := User.provider u |}
                "1h"
              = Rejected e).
Proof.
  intros [Hfk _]. unfold TokenService.refreshAccessToken.
  destruct (selectWhere (TokenService.refreshCondition t now) _)
    as [|r rs] eqn:Hsel.
  - intros [= <-]. left. split; [done|].
    intros r Hr. destruct (TokenService.refreshCondition t now r) eqn:Hc;
      [|done].
    pose proof (proj1 (selectWhere_nil _ _) Hsel r Hr). congruence.
  - assert (Hr : r ∈ selectWhere (TokenService.refreshCondition t now)
                       (refreshTokens db)) by (rewrite Hsel; left).
    apply selectWhere_elem in Hr as [Hr Hc].
    destruct (selectWhere (λ u, bool_decide (User.id u = _)) _)
      as [|u us] eqn:Husr.
    + pose proof (Hfk r Hr) as Hex. unfold userExists in Hex.
      apply existsb_exists in Hex as (u & Hu & Hid).
      apply list_elem_of_In in Hu.
      pose proof (proj1 (selectWhere_nil _ _) Husr u Hu). congruence.
    + assert (Hu : u ∈ selectWhere
                     (λ u, bool_decide (User.id u = RefreshToken.userId r))
                     (users db)) by (rewrite Husr; left).
      apply selectWhere_elem in Hu as [Hu Hi].
      apply bool_decide_eq_true in Hi.
      unfold ACCESS_TOKEN_EXPIRES_IN.
      destruct (jwtSign iat _ _) as [a|e'] eqn:Hsign; simpl; [done|].
      intros [= <-]. right. by exists r, u.
Qed.

(** X4.  After a sweep at instant [swept], no refresh made at an instant up
    to [swept] can succeed: the sweep deletes every record the refresh
    query would select. *)
Theorem refreshAccessToken_after_cleanup swept now iat t db :
  now ≤ swept →
  TokenService.refreshAccessToken jwtSign now iat t
    (TokenService.cleanupExpiredTokens swept db)
  = Rejected (JsError "Invalid refresh token").
Proof.
  intros Hle. apply refreshAccessToken_no_candidate. intros r Hr.
  simpl in Hr. apply deleteWhere_elem in Hr as [_ Hkeep].
  apply cleanupCondition_false in Hkeep as [Hexp _].
  destruct (TokenService.refreshCondition t now r) eqn:Hc; [|done].
  apply refreshCondition_true in Hc as (_ & _ & Hlt). lia.
Qed.

End TokenServiceMore.

Lemma deleteWhere_after_revoke (t : string) (now : Timestamp)
    (l : list RefreshToken.t) :
  deleteWhere (TokenService.cleanupCondition now)
    (updateWhere (λ r, bool_decide (RefreshToken.token r = t))
       TokenService.setRevoked l)
  = filter (λ r, RefreshToken.token r ≠ t)
      (deleteWhere (TokenService.cleanupCondition now) l).
Proof.
  induction l as [|x l IH]; [done|].
  unfold deleteWhere, updateWhere in *. rewrite fmap_cons.
  cbn [List.filter]. rewrite IH. clear IH.
  destruct (decide (RefreshToken.token x = t)) as [Ht|Ht].
  - rewrite bool_decide_true by done.
    replace (TokenService.cleanupCondition now (TokenService.setRevoked x))
      with true
      by (unfold TokenService.cleanupCondition; simpl;
          by rewrite orb_true_r).
    cbn [negb]. destruct (TokenService.cleanupCondition now x); cbn [negb];
      [done|].
    rewrite filter_cons. by rewrite decide_False by (intros H; by apply H).
  - rewrite bool_decide_false by done.
    destruct (TokenService.cleanupCondition now x); cbn [negb]; [done|].
    rewrite filter_cons. by rewrite decide_True.
Qed.

(** X5.  Revoking a token value and then sweeping leaves no record of that
    value, and leaves of the other values exactly what the sweep alone
    would leave. *)
Theorem cleanup_after_revoke (t : string) (now : Timestamp) (db : Db) :
  refreshTokens
    (TokenService.cleanupExpiredTokens now
       (TokenService.revokeRefreshToken t db))
  = filter (λ r, RefreshToken.token r ≠ t)
      (refreshTokens (TokenService.cleanupExpiredTokens now db))
  ∧ Forall (λ r, RefreshToken.token r ≠ t)
      (refreshTokens
         (TokenService.cleanupExpiredTokens now
            (TokenService.revokeRefreshToken t db))).
Proof.
  assert (Heq : refreshTokens
                  (TokenService.cleanupExpiredTokens now
                     (TokenService.revokeRefreshToken t db))
                = filter (λ r, RefreshToken.token r ≠ t)
                    (refreshTokens (TokenService.cleanupExpiredTokens now db)))
    by apply deleteWhere_after_revoke.
  split; [exact Heq|].
  rewrite Heq. apply Forall_forall. intros r Hr.
  by apply list_elem_of_filter in Hr as [? _].
Qed.

(** X6.  Two sweeps amount to one sweep at the later instant. *)
Theorem cleanupExpiredTokens_twice (n1 n2 : Timestamp) (db : Db) :
  TokenService.cleanupExpiredTokens n2
    (TokenService.cleanupExpiredTokens n1 db)
  = TokenService.cleanupExpiredTokens (n1 `max` n2) db.
Proof.
  unfold TokenService.cleanupExpiredTokens. simpl. f_equal.
  unfold deleteWhere. induction (refreshTokens db) as [|x l IH]; [done|].
  simpl.
  assert (Hc : TokenService.cleanupCondition (n1 `max` n2) x
               = TokenService.cleanupCondition n1 x
                 || TokenService.cleanupCondition n2 x).
  { unfold TokenService.cleanupCondition.
    destruct (RefreshToken.isRevoked x); simpl.
    - by rewrite !orb_true_r.
    - rewrite !orb_false_r. apply eq_true_iff_eq.
      rewrite orb_true_iff, !bool_decide_eq_true. lia. }
  rewrite Hc.
  destruct (TokenService.cleanupCondition n1 x); simpl; [exact IH|].
  destruct (TokenService.cleanupCondition n2 x); simpl; [exact IH|].
  by rewrite IH.
Qed.


Lemma refreshAccessToken_signs_for_owner_witness :
  ∃ r u, r ∈ refreshTokens Scenario.store ∧ RefreshToken.token r = "rt-1"
         ∧ u ∈ users Scenario.store ∧ User.id u = RefreshToken.userId r
         ∧ Scenario.jwtSign (1000 + 31 * Scenario.day)
             {| TokenPayload.userId := User.id u;
                TokenPayload.provider := User.provider u |} "1h"
           = Resolved "jwt.a0000000-0000-4000-8000-000000000001.google".
Proof.
  apply (refreshAccessToken_signs_for_owner Scenario.jwtSign
           (1000 + 31 * Scenario.day) (1000 + 31 * Scenario.day) "rt-1"
           Scenario.store
           {| RefreshedToken.accessToken := "jwt.a0000000-0000-4000-8000-000000000001.google";
              RefreshedToken.expiresIn := JsString "1h" |}).
  reflexivity.
Defined.

Lemma store_references : referencesHold Scenario.store.
Proof.
  split; intros x Hx; apply list_elem_of_In in Hx; simpl in Hx.
  - by destruct Hx as [<-|[<-|[]]].
  - by destruct Hx as [<-|[]].
Qed.

(** On [Scenario.store], 31 days after the issue: with [JWT_SECRET] unset
    the refresh of ["rt-1"] is rejected with the error of [jwt.sign], for
    the stored owner; one second after the issue it is rejected as
    invalid. *)
Lemma refreshAccessToken_rejections_witness :
  (∃ r u, r ∈ refreshTokens Scenario.store ∧ u ∈ users Scenario.store
          ∧ User.id u = RefreshToken.userId r
          ∧ Scenario.failingJwtSign (1000 + 31 * Scenario.day)
              {| TokenPayload.userId := User.id u;
                 TokenPayload.provider := User.provider u |} "1h"
            = Rejected (JsError "secretOrPrivateKey must have a value"))
  ∧ ∀ r, r ∈ refreshTokens Scenario.store →
         TokenService.refreshCondition "rt-1" 2000 r = false.
Proof.
  split.
  - destruct (refreshAccessToken_rejections Scenario.failingJwtSign
                (1000 + 31 * Scenario.day) (1000 + 31 * Scenario.day) "rt-1"
                Scenario.store
                (JsError "secretOrPrivateKey must have a value")
                store_references eq_refl)
      as [[Habs _]|(r & u & Hr & _ & Hu & Hid & Hsign)]; [discriminate|].
    by exists r, u.
  - destruct (refreshAccessToken_rejections Scenario.jwtSign 2000 2000 "rt-1"
                Scenario.store (JsError "Invalid refresh token")
                store_references eq_refl)
      as [[_ Hnone]|(r & u & _ & _ & _ & _ & Hsign)]; [exact Hnone|].
    discriminate.
Defined.

(** On [Scenario.store], 31 days after the issue: the refresh of ["rt-1"]
    is served before the sweep and refused after it. *)
Lemma refreshAccessToken_after_cleanup_witness :
  TokenService.refreshAccessToken Scenario.jwtSign
    (1000 + 31 * Scenario.day) (1000 + 31 * Scenario.day) "rt-1"
    Scenario.store
  = Resolved {| RefreshedToken.accessToken :=
                  "jwt.a0000000-0000-4000-8000-000000000001.google";
                RefreshedToken.expiresIn := JsString "1h" |}
  ∧ TokenService.refreshAccessToken Scenario.jwtSign
      (1000 + 31 * Scenario.day) (1000 + 31 * Scenario.day) "rt-1"
      (TokenService.cleanupExpiredTokens (1000 + 31 * Scenario.day)
         Scenario.store)
    = Rejected (JsError "Invalid refresh token").
Proof.
  split; [reflexivity|].
  apply refreshAccessToken_after_cleanup. lia.
Defined.

(** ** SessionService: create, read, update, delete *)

Lemma selectWhere_app {R} (p : R → bool) (l k : list R) :
  selectWhere p (l ++ k) = selectWhere p l ++ selectWhere p k.
Proof. unfold selectWhere. apply List.filter_app. Qed.

Lemma selectWhere_deleteWhere {R} (p q : R → bool) (l : list R) :
  (∀ r, p r = true → q r = false) →
  selectWhere p (deleteWhere q l) = selectWhere p l.
Proof.
  intros H. unfold selectWhere, deleteWhere.
  induction l as [|x l IH]; [done|]. cbn [List.filter].
  destruct (q x) eqn:Hq; cbn [negb List.filter].
  - destruct (p x) eqn:Hp; [|done]. apply H in Hp. congruence.
  - by rewrite IH.
Qed.

Lemma selectWhere_deleteWhere_nil {R} (p q : R → bool) (l : list R) :
  (∀ r, p r = true → q r = true) →
  selectWhere p (deleteWhere q l) = [].
Proof.
  intros H. apply selectWhere_nil. intros r Hr.
  apply deleteWhere_elem in Hr as [_ Hq].
  destruct (p r) eqn:Hp; [|done]. apply H in Hp. congruence.
Qed.

Lemma jsonb_lookup (data : gmap string JsValue) k :
  jsonb data !! k
  = (λ v, match v with
          | JsDate t => JsString (toISOString t)
          | _ => v
          end) <$> data !! k.
Proof. unfold jsonb. by rewrite lookup_fmap. Qed.

(** X7.  Create then read.  For a stored user and a free row id,
    [createSession] appends one session, expiring 24 hours after the clock
    reading, whose data are the given data as JSON (a [Date] is stored as
    its ISO string, strings and numbers as they are), and [getSession] on
    the new id returns exactly that session at every instant up to the
    expiry. *)
Theorem createSession_then_getSession
    (now : Timestamp) (g : Generated) (userId : Uuid)
    (data : gmap string JsValue) (db : Db) (tCheck tTouch : Timestamp) :
  sessionKeysUnique db →
  userExists db userId = true →
  (∀ s, s ∈ sessions db → Session.id s ≠ genId g) →
  uuid_in (genId g) = Some (genId g) →
  tCheck ≤ now + 24 * 60 * 60 * 1000 →
  ∃ s db',
    SessionService.createSession now g userId data db = Resolved (s, db')
    ∧ sessions db' = sessions db ++ [s]
    ∧ users db' = users db ∧ refreshTokens db' = refreshTokens db
    ∧ Session.id s = genId g ∧ Session.userId s = userId
    ∧ Session.expiresAt s = now + 24 * 60 * 60 * 1000
    ∧ Session.createdAt s = genNow g ∧ Session.lastAccessedAt s = genNow g
    ∧ (∀ k, Session.data s !! k
            = (λ v, match v with
                    | JsDate t => JsString (toISOString t)
                    | _ => v
                    end) <$> data !! k)
    ∧ returned (SessionService.getSession tCheck tTouch (genId g) db')
      = Resolved (Some s).
Proof.
  intros Hkey Hu Hfree Hid Hle.
  set (s := {| Session.id := genId g; Session.userId := userId;
               Session.data := jsonb data;
               Session.expiresAt := now + 24 * 60 * 60 * 1000;
               Session.createdAt := genNow g;
               Session.lastAccessedAt := genNow g |}).
  set (db' := SessionService.setSessions db (sessions db ++ [s])).
  assert (Hcreate : SessionService.createSession now g userId data db
                    = Resolved (s, db')).
  { unfold SessionService.createSession, insertSession, checkUserFk. simpl.
    rewrite Hu. simpl.
    rewrite (insertRow_primary_key_only sessionCell Session.id) by done.
    rewrite (proj2 (existsb_false_iff _ _)).
    - simpl. unfold s, db', addSeconds, SESSION_DURATION,
        SessionService.setSessions.
      repeat f_equal; lia.
    - intros x Hx. apply bool_decide_eq_false. simpl. by apply Hfree. }
  exists s, db'. split; [exact Hcreate|].
  repeat (split; [done|]). split; [intros k; apply jsonb_lookup|].
  pose proof (createSession_sessionKeysUnique _ _ _ _ _ _ _ Hkey Hcreate)
    as Hkey'.
  rewrite (getSession_live tCheck tTouch (genId g) db' s); try done.
  simpl. apply elem_of_app. right. left.
Qed.

(** X8.  The bump of one [getSession] is what the next one returns: the
    first call hands back the record as stored, the second the record with
    [lastAccessedAt] set to the instant of the first update, and the store
    then holds it with the instant of the second update. *)
Theorem getSession_twice
    (t1 t2 t3 t4 : Timestamp) (sid : string) (db : Db) (s : Session.t) :
  sessionKeysUnique db → s ∈ sessions db →
  uuid_in sid = Some (Session.id s) →
  t1 ≤ Session.expiresAt s → t3 ≤ Session.expiresAt s →
  let first := SessionService.getSession t1 t2 sid db in
  let second := SessionService.getSession t3 t4 sid (written db first) in
  returned first = Resolved (Some s)
  ∧ returned second
    = Resolved (Some {| Session.id := Session.id s;
                        Session.userId := Session.userId s;
                        Session.data := Session.data s;
                        Session.expiresAt := Session.expiresAt s;
                        Session.createdAt := Session.createdAt s;
                        Session.lastAccessedAt := t2 |})
  ∧ {| Session.id := Session.id s; Session.userId := Session.userId s;
       Session.data := Session.data s;
       Session.expiresAt := Session.expiresAt s;
       Session.createdAt := Session.createdAt s;
       Session.lastAccessedAt := t4 |}
    ∈ sessions (written (written db first) second).
Proof.
  intros Hkey Hs Hid H1 H3. simpl.
  rewrite (getSession_live t1 t2 sid db s Hkey Hs Hid H1). simpl.
  split; [done|].
  set (db1 := SessionService.setSessions db _).
  assert (Hkey1 : sessionKeysUnique db1).
  { unfold sessionKeysUnique, db1. simpl. by rewrite updateWhere_ids. }
  assert (Hs1 : SessionService.touch t2 s ∈ sessions db1).
  { unfold db1. simpl. by apply updated_elem. }
  rewrite (getSession_live t3 t4 sid db1 _ Hkey1 Hs1) by done. simpl.
  split; [done|].
  apply (updated_elem (Session.id s) (SessionService.touch t4) _
           (SessionService.touch t2 s) Hs1 eq_refl).
Qed.

(** X9.  [updateSession] on a stored, unexpired session returns the updated
    row: same id, user, expiry and creation instant, [lastAccessedAt]
    bumped, and as data the stored data overlaid with the new data as
    JSON: the keys of the new data win, a new [Date] is stored as its ISO
    string, the stored keys the new data do not mention are kept.  The
    store holds that row, and a following [getSession] returns it. *)
Theorem updateSession_merges
    (tCheck tTouch : Timestamp) (sid : string) (data : gmap string JsValue)
    (db : Db) (s : Session.t) :
  sessionKeysUnique db → s ∈ sessions db →
  uuid_in sid = Some (Session.id s) → tCheck ≤ Session.expiresAt s →
  let out := SessionService.updateSession tCheck tTouch sid data db in
  ∃ s', returned out = Resolved (Some s')
        ∧ s' ∈ sessions (written db out)
        ∧ Session.id s' = Session.id s
        ∧ Session.userId s' = Session.userId s
        ∧ Session.expiresAt s' = Session.expiresAt s
        ∧ Session.createdAt s' = Session.createdAt s
        ∧ Session.lastAccessedAt s' = tTouch
        ∧ (∀ k v, data !! k = Some v →
             Session.data s' !! k
             = Some match v with
                    | JsDate t => JsString (toISOString t)
                    | _ => v
                    end)
        ∧ (∀ k v, data !! k = None → Session.data s !! k = Some v →
             (∀ t, v ≠ JsDate t) → Session.data s' !! k = Some v)
        ∧ (∀ k, data !! k = None → Session.data s !! k = None →
             Session.data s' !! k = None)
        ∧ (∀ t3 t4, t3 ≤ Session.expiresAt s →
             returned (SessionService.getSession t3 t4 sid (written db out))
             = Resolved (Some s')).
Proof.
  intros Hkey Hs Hid Hlive. simpl. unfold SessionService.updateSession.
  rewrite (uuidParam_Some _ _ Hid). simpl.
  rewrite (selectWhere_byId_unique _ _ Hkey Hs).
  rewrite bool_decide_false by lia. simpl.
  match goal with
  | |- context [updateWhere _ ?f _] => set (upd := f)
  end.
  exists (upd s).
  assert (Hin : upd s ∈ updateWhere (SessionService.byId (Session.id s)) upd
                          (sessions db)) by by apply updated_elem.
  repeat split; try done.
  - intros k v Hk. simpl. rewrite jsonb_lookup.
    unfold SessionService.mergeData.
    by rewrite (lookup_union_Some_l _ _ _ _ Hk).
  - intros k v Hk Hold Hnd. simpl. rewrite jsonb_lookup.
    unfold SessionService.mergeData.
    rewrite (lookup_union_r _ _ _ Hk), Hold. simpl.
    destruct v; try done. by destruct (Hnd t).
  - intros k Hk Hold. simpl. rewrite jsonb_lookup.
    unfold SessionService.mergeData.
    by rewrite (lookup_union_r _ _ _ Hk), Hold.
  - intros t3 t4 H3.
    rewrite (getSession_live t3 t4 sid _ (upd s)); try done.
    unfold sessionKeysUnique. simpl. by rewrite updateWhere_ids.
Qed.

(** X10.  [updateSession] fails on a text that is not a uuid; for a uuid
    that no stored session has, or whose session has [expiresAt < now], it
    returns nothing and writes nothing. *)
Theorem updateSession_refuses_missing_or_expired
    (tCheck tTouch : Timestamp) (sid : string) (data : gmap string JsValue)
    (db : Db) :
  (uuid_in sid = None →
   SessionService.updateSession tCheck tTouch sid data db
   = Rejected (InvalidUuid sid))
  ∧ (∀ id, uuid_in sid = Some id →
       (∀ s, s ∈ sessions db → Session.id s = id →
             Session.expiresAt s < tCheck) →
       SessionService.updateSession tCheck tTouch sid data db
       = Resolved (None, db)).
Proof.
  unfold SessionService.updateSession. split.
  - intros H. by rewrite (uuidParam_None _ H).
  - intros id Hid Hexp. rewrite (uuidParam_Some _ _ Hid). simpl.
    destruct (selectWhere _ (sessions db)) as [|s rest] eqn:Hsel; [done|].
    assert (Hs : s ∈ selectWhere (SessionService.byId id) (sessions db))
      by (rewrite Hsel; left).
    apply selectWhere_elem in Hs as [Hs Heq].
    apply bool_decide_eq_true in Heq.
    by rewrite bool_decide_true by auto.
Qed.

(** X11.  [deleteSession] fails on a text that is not a uuid.  For a uuid
    it leaves no session of that id; [getSession] on it then returns
    nothing and writes nothing, at any instant, and what [getSession]
    returns for every text of another uuid, or of none, is what it returned
    before. *)
Theorem deleteSession_then_getSession
    (t1 t2 : Timestamp) (sid : string) (db : Db) :
  (uuid_in sid = None →
   SessionService.deleteSession sid db = Rejected (InvalidUuid sid))
  ∧ (∀ id, uuid_in sid = Some id →
       ∃ db', SessionService.deleteSession sid db = Resolved db'
              ∧ Forall (λ s, Session.id s ≠ id) (sessions db')
              ∧ SessionService.getSession t1 t2 sid db' = Resolved (None, db')
              ∧ ∀ sid', uuid_in sid' ≠ Some id →
                  returned (SessionService.getSession t1 t2 sid' db')
                  = returned (SessionService.getSession t1 t2 sid' db)).
Proof.
  unfold SessionService.deleteSession. split.
  - intros H. by rewrite (uuidParam_None _ H).
  - intros id Hid. rewrite (uuidParam_Some _ _ Hid). simpl.
    eexists. split; [done|]. split; [|split].
    + apply Forall_forall. intros s Hs. simpl in Hs.
      apply deleteWhere_elem in Hs as [_ Hs].
      unfold SessionService.byId in Hs. by apply bool_decide_eq_false in Hs.
    + apply (getSession_dead t1 t2 sid id); [done|]. intros s Hs Heq.
      simpl in Hs. apply deleteWhere_elem in Hs as [_ Hs].
      unfold SessionService.byId in Hs. by apply bool_decide_eq_false in Hs.
    + intros sid' Hne. unfold SessionService.getSession.
      destruct (uuid_in sid') as [id'|] eqn:Hid'.
      * rewrite (uuidParam_Some _ _ Hid'). simpl.
        rewrite selectWhere_deleteWhere.
        -- destruct (selectWhere _ (sessions db)) as [|s rest]; [done|].
           by destruct (bool_decide _).
        -- intros r Hr. unfold SessionService.byId in *.
           apply bool_decide_eq_true in Hr. apply bool_decide_eq_false.
           congruence.
      * by rewrite (uuidParam_None _ Hid').
Qed.

(** X12.  [deleteUserSessions] fails on a text that is not a uuid.  For a
    uuid it leaves the user without active session at any instant, and the
    active sessions of every other user are listed as before. *)
Theorem deleteUserSessions_then_getUserSessions
    (now : Timestamp) (userId : string) (db : Db) :
  (uuid_in userId = None →
   SessionService.deleteUserSessions userId db
   = Rejected (InvalidUuid userId))
  ∧ (∀ id, uuid_in userId = Some id →
       ∃ db', SessionService.deleteUserSessions userId db = Resolved db'
              ∧ Forall (λ s, Session.userId s ≠ id) (sessions db')
              ∧ SessionService.getUserSessions now userId db' = Resolved []
              ∧ ∀ other, uuid_in other ≠ Some id →
                  SessionService.getUserSessions now other db'
                  = SessionService.getUserSessions now other db).
Proof.
  unfold SessionService.deleteUserSessions. split.
  - intros H. by rewrite (uuidParam_None _ H).
  - intros id Hid. rewrite (uuidParam_Some _ _ Hid). simpl.
    eexists. split; [done|]. split; [|split].
    + apply Forall_forall. intros s Hs. simpl in Hs.
      apply deleteWhere_elem in Hs as [_ Hs].
      by apply bool_decide_eq_false in Hs.
    + unfold SessionService.getUserSessions.
      rewrite (uuidParam_Some _ _ Hid). simpl. f_equal.
      apply selectWhere_deleteWhere_nil. intros r Hr.
      apply andb_true_iff in Hr as [Hr _]. exact Hr.
    + intros other Hne. unfold SessionService.getUserSessions.
      destruct (uuid_in other) as [id'|] eqn:Hid'.
      * rewrite (uuidParam_Some _ _ Hid'). simpl. f_equal.
        apply selectWhere_deleteWhere. intros r Hr.
        apply andb_true_iff in Hr as [Hr _].
        apply bool_decide_eq_true in Hr. apply bool_decide_eq_false.
        congruence.
      * by rewrite (uuidParam_None _ Hid').
Qed.

Lemma session_key_inj (db : Db) (r s : Session.t) :
  sessionKeysUnique db → r ∈ sessions db → s ∈ sessions db →
  Session.id r = Session.id s → r = s.
Proof.
  intros Hkey Hr Hs Heq.
  assert (H : r ∈ selectWhere (SessionService.byId (Session.id s))
                    (sessions db)).
  { apply selectWhere_elem. split; [done|].
    by apply bool_decide_eq_true. }
  rewrite (selectWhere_byId_unique _ _ Hkey Hs) in H.
  by apply list_elem_of_singleton in H.
Qed.

Lemma deleteWhere_keys (q : Session.t → bool) (rows : list Session.t) :
  NoDup (Session.id <$> rows) → NoDup (Session.id <$> deleteWhere q rows).
Proof.
  unfold deleteWhere. induction rows as [|x rows IH]; [done|].
  rewrite fmap_cons, NoDup_cons. intros [Hx Hnd]. cbn [List.filter].
  destruct (negb (q x)); [|by apply IH].
  rewrite fmap_cons, NoDup_cons. split; [|by apply IH].
  intros Hin. apply Hx.
  apply list_elem_of_fmap in Hin as (y & -> & Hy).
  apply list_elem_of_In, filter_In in Hy as [Hy _].
  apply list_elem_of_fmap_2. by apply list_elem_of_In.
Qed.

(** X13.  A sweep of expired sessions at an instant not after [now] changes
    neither the list of a user's active sessions at [now] nor, with [id] a
    key, what [getSession] returns at [now]: the sweep only deletes what
    both already treat as gone. *)
Theorem cleanupExpiredSessions_invisible
    (swept now tTouch : Timestamp) (db : Db) :
  sessionKeysUnique db → swept ≤ now →
  (∀ userId,
     SessionService.getUserSessions now userId
       (SessionService.cleanupExpiredSessions swept db)
     = SessionService.getUserSessions now userId db)
  ∧ (∀ sid,
       returned (SessionService.getSession now tTouch sid
                   (SessionService.cleanupExpiredSessions swept db))
       = returned (SessionService.getSession now tTouch sid db)).
Proof.
  intros Hkey Hle. split.
  - intros userId.
    unfold SessionService.getUserSessions,
      SessionService.cleanupExpiredSessions.
    destruct (SessionService.uuidParam userId) as [id|e]; [|done]. simpl.
    f_equal. apply selectWhere_deleteWhere. intros r Hr.
    apply andb_true_iff in Hr as [_ Hr].
    apply bool_decide_eq_true in Hr. apply bool_decide_eq_false. lia.
  - intros sid.
    unfold SessionService.getSession, SessionService.cleanupExpiredSessions.
    destruct (SessionService.uuidParam sid) as [id|e]; [|done]. simpl.
    destruct (selectWhere (SessionService.byId id) (sessions db))
      as [|s rest] eqn:Hsel.
    + rewrite (proj2 (selectWhere_nil _ _)); [done|].
      intros r Hr. apply deleteWhere_elem in Hr as [Hr _].
      by apply (proj1 (selectWhere_nil _ _) Hsel).
    + assert (Hs : s ∈ selectWhere (SessionService.byId id) (sessions db))
        by (rewrite Hsel; left).
      apply selectWhere_elem in Hs as [Hs Hid].
      apply bool_decide_eq_true in Hid. subst id.
      destruct (decide (Session.expiresAt s < swept)) as [Hdead|Hlive].
      * rewrite (bool_decide_true (Session.expiresAt s < now)) by lia.
        rewrite (proj2 (selectWhere_nil _ _)); [done|].
        intros r Hr. apply deleteWhere_elem in Hr as [Hr Hkeep].
        apply bool_decide_eq_false. intros Heq.
        assert (r = s) as -> by by apply (session_key_inj db).
        apply bool_decide_eq_false in Hkeep. done.
      * assert (Hin : s ∈ deleteWhere
                          (λ s, bool_decide (Session.expiresAt s < swept))
                          (sessions db)).
        { apply deleteWhere_elem. split; [done|].
          by apply bool_decide_eq_false. }
        assert (Hkey' : NoDup (Session.id <$> deleteWhere
                          (λ s, bool_decide (Session.expiresAt s < swept))
                          (sessions db)))
          by by apply deleteWhere_keys.
        rewrite (selectWhere_byId_unique _ _ Hkey' Hin).
        by destruct (bool_decide (Session.expiresAt s < now)).
Qed.

(** X14.  [extendSession] fails on a text that is not a uuid; on a uuid
    that no stored session has it returns nothing and writes nothing; on
    any uuid, the sessions stored under other ids keep their place and
    their content. *)
Theorem extendSession_only_touches_its_id
    (tExpiry tTouch : Timestamp) (sid : string) (db : Db) :
  let out := SessionService.extendSession tExpiry tTouch sid db in
  (uuid_in sid = None → out = Rejected (InvalidUuid sid))
  ∧ (∀ id, uuid_in sid = Some id →
       (∀ s, s ∈ sessions db → Session.id s ≠ id) →
       out = Resolved (None, db))
  ∧ (∀ id (i : nat) x, uuid_in sid = Some id →
       sessions db !! i = Some x → Session.id x ≠ id →
       sessions (written db out) !! i = Some x).
Proof.
  simpl. unfold SessionService.extendSession. split; [|split].
  - intros H. by rewrite (uuidParam_None _ H).
  - intros id Hid Habs. rewrite (uuidParam_Some _ _ Hid). simpl.
    rewrite selectWhere_byId_absent by done. simpl.
    rewrite updateWhere_id; [by destruct db|].
    intros r Hr Hp. unfold SessionService.byId in Hp.
    apply bool_decide_eq_true in Hp. by apply Habs in Hr.
  - intros id i x Hid Hi Hne. rewrite (uuidParam_Some _ _ Hid). simpl.
    rewrite updateWhere_lookup, Hi. simpl.
    unfold SessionService.byId. by rewrite bool_decide_false.
Qed.

(** X15.  The two readers disagree at the boundary: a session whose
    [expiresAt] equals [now] is served by [getSession] and is not listed by
    [getUserSessions]. *)
Theorem session_expiring_now_served_not_listed
    (now tTouch : Timestamp) (sid uid : string) (db : Db) (s : Session.t) :
  sessionKeysUnique db → s ∈ sessions db →
  uuid_in sid = Some (Session.id s) → uuid_in uid = Some (Session.userId s) →
  Session.expiresAt s = now →
  returned (SessionService.getSession now tTouch sid db) = Resolved (Some s)
  ∧ ∃ listed, SessionService.getUserSessions now uid db = Resolved listed
              ∧ s ∉ listed.
Proof.
  intros Hkey Hs Hid Huid Hexp. split.
  - rewrite (getSession_live now tTouch sid db s); [done..|lia].
  - unfold SessionService.getUserSessions.
    rewrite (uuidParam_Some _ _ Huid). simpl.
    eexists. split; [done|]. intros Hin.
    apply selectWhere_elem in Hin as [_ Hc].
    apply andb_true_iff in Hc as [_ Hc].
    apply bool_decide_eq_true in Hc. lia.
Qed.

(** ** The session middleware *)


(** X17.  On a stored, unexpired session the middleware attaches the
    session as read, with the expiry it had before any extension.  When
    less than one hour is left at [now], the store then holds the session
    with [expiresAt] set to 24 hours after the extension's clock reading
    and [lastAccessedAt] to the extension's second reading; otherwise it
    holds it with the old expiry and [lastAccessedAt] set by the read. *)
Theorem sessionMiddleware_extends_near_expiry
    (tCheck tTouch now tExpiry tTouch' : Timestamp) (sid : string) (db : Db)
    (s : Session.t) :
  sessionKeysUnique db → s ∈ sessions db → sid ≠ "" →
  uuid_in sid = Some (Session.id s) →
  tCheck ≤ Session.expiresAt s →
  let out := sessionMiddleware tCheck tTouch now tExpiry tTouch'
               (Some sid) db in
  out.1 = Some {| RequestSession.id := Session.id s;
                  RequestSession.userId := Session.userId s;
                  RequestSession.data := Session.data s;
                  RequestSession.expiresAt := Session.expiresAt s |}
  ∧ (Session.expiresAt s - now < 60 * 60 * 1000 →
     {| Session.id := Session.id s; Session.userId := Session.userId s;
        Session.data := Session.data s;
        Session.expiresAt := tExpiry + 24 * 60 * 60 * 1000;
        Session.createdAt := Session.createdAt s;
        Session.lastAccessedAt := tTouch' |} ∈ sessions out.2)
  ∧ (60 * 60 * 1000 ≤ Session.expiresAt s - now →
     {| Session.id := Session.id s; Session.userId := Session.userId s;
        Session.data := Session.data s;
        Session.expiresAt := Session.expiresAt s;
        Session.createdAt := Session.createdAt s;
        Session.lastAccessedAt := tTouch |} ∈ sessions out.2).
Proof.
  intros Hkey Hs Hne Hid Hlive. simpl. unfold sessionMiddleware.
  destruct sid as [|a sid]; [done|].
  rewrite (getSession_live tCheck tTouch _ db s Hkey Hs Hid Hlive).
  assert (Htouched : SessionService.touch tTouch s
                     ∈ updateWhere (SessionService.byId (Session.id s))
                         (SessionService.touch tTouch) (sessions db))
    by by apply updated_elem.
  destruct (decide (Session.expiresAt s - now < 1000 * 60 * 60))
    as [Hnear|Hfar].
  - rewrite bool_decide_true by done. simpl.
    split; [done|]. split; [|lia]. intros _.
    unfold SessionService.extendSession.
    rewrite (uuidParam_Some _ _ Hid). simpl.
    assert (Hwin : addSeconds tExpiry SESSION_DURATION
                   = tExpiry + 24 * 60 * 60 * 1000)
      by (unfold addSeconds, SESSION_DURATION; lia).
    rewrite Hwin.
    apply (updated_elem (Session.id s)
             (SessionService.extend (tExpiry + 24 * 60 * 60 * 1000) tTouch')
             _ (SessionService.touch tTouch s) Htouched eq_refl).
  - rewrite bool_decide_false by done. simpl.
    split; [done|]. split; [lia|]. intros _. exact Htouched.
Qed.

(** ** The session properties on [Scenario] *)

Lemma store_session_keys : sessionKeysUnique Scenario.store.
Proof. unfold sessionKeysUnique. simpl. apply NoDup_singleton. Qed.

Lemma store_has_session : Scenario.aliceSession ∈ sessions Scenario.store.
Proof. simpl. left. Qed.

Lemma busyStore_session_keys : sessionKeysUnique Scenario.busyStore.
Proof.
  unfold sessionKeysUnique. simpl. apply NoDup_cons. split.
  - intros H. apply list_elem_of_singleton in H. discriminate.
  - apply NoDup_singleton.
Qed.

Lemma busyStore_has_session :
  Scenario.aliceSession ∈ sessions Scenario.busyStore.
Proof. simpl. left. Qed.

(** A session created with a [Date] in its data comes back with the ISO
    string. *)
Lemma createSession_then_getSession_witness :
  ∃ s db',
    SessionService.createSession 2000
      (Scenario.gen "c0000000-0000-4000-8000-000000000009" 2000)
      "a0000000-0000-4000-8000-000000000001"
      {[ "lastLogin" := JsDate 2000; "theme" := JsString "dark" ]}
      Scenario.store
    = Resolved (s, db')
    ∧ sessions db' = [Scenario.aliceSession; s]
    ∧ Session.expiresAt s = 86402000
    ∧ Session.data s !! "lastLogin"
      = Some (JsString "1970-01-01T00:00:02.000Z")
    ∧ Session.data s !! "theme" = Some (JsString "dark")
    ∧ returned (SessionService.getSession 3000 3000
                  "c0000000-0000-4000-8000-000000000009" db')
      = Resolved (Some s).
Proof.
  destruct (createSession_then_getSession 2000
              (Scenario.gen "c0000000-0000-4000-8000-000000000009" 2000)
              "a0000000-0000-4000-8000-000000000001"
              {[ "lastLogin" := JsDate 2000; "theme" := JsString "dark" ]}
              Scenario.store 3000 3000 store_session_keys)
    as (s & db' & Hc & Hs & _ & _ & _ & _ & He & _ & _ & Hd & Hget).
  - reflexivity.
  - intros s Hs. apply list_elem_of_In in Hs. simpl in Hs.
    destruct Hs as [<-|[]]. simpl. discriminate.
  - reflexivity.
  - lia.
  - exists s, db'. split; [exact Hc|]. split; [exact Hs|].
    split; [rewrite He; reflexivity|].
    split; [rewrite Hd; reflexivity|].
    split; [rewrite Hd; reflexivity|exact Hget].
Defined.

Lemma getSession_twice_witness :
  returned
    (SessionService.getSession 6000 6001
       "c0000000-0000-4000-8000-000000000001"
       (written Scenario.store
          (SessionService.getSession 5000 5001
             "c0000000-0000-4000-8000-000000000001" Scenario.store)))
  = Resolved (Some {| Session.id := "c0000000-0000-4000-8000-000000000001";
                      Session.userId :=
                        "a0000000-0000-4000-8000-000000000001";
                      Session.data := ∅;
                      Session.expiresAt := 1000 + Scenario.day;
                      Session.createdAt := 1000;
                      Session.lastAccessedAt := 5001 |}).
Proof.
  destruct (getSession_twice 5000 5001 6000 6001
              "c0000000-0000-4000-8000-000000000001" Scenario.store
              Scenario.aliceSession store_session_keys store_has_session)
    as (_ & Hsecond & _).
  - reflexivity.
  - simpl. unfold Scenario.day. lia.
  - simpl. unfold Scenario.day. lia.
  - exact Hsecond.
Defined.

(** An update carrying a [Date] and a new key, on a session that already
    has data. *)
Lemma updateSession_merges_witness :
  ∃ s', returned
          (SessionService.updateSession 5000 5001
             "c0000000-0000-4000-8000-000000000002"
             {[ "seen" := JsDate 5000 ]} Scenario.busyStore)
        = Resolved (Some s')
        ∧ Session.data s' !! "seen"
          = Some (JsString "1970-01-01T00:00:05.000Z")
        ∧ Session.data s' !! "theme" = Some (JsString "dark")
        ∧ Session.lastAccessedAt s' = 5001.
Proof.
  destruct (updateSession_merges 5000 5001
              "c0000000-0000-4000-8000-000000000002"
              {[ "seen" := JsDate 5000 ]} Scenario.busyStore
              Scenario.laterSession busyStore_session_keys)
    as (s' & Hout & _ & _ & _ & _ & _ & Htouch & Hnew & Hold & _).
  - simpl. right. left.
  - reflexivity.
  - simpl. unfold Scenario.day. lia.
  - exists s'. split; [exact Hout|]. split; [|split; [|exact Htouch]].
    + apply (Hnew "seen" (JsDate 5000)). reflexivity.
    + apply (Hold "theme" (JsString "dark")); [reflexivity..|discriminate].
Defined.

(** A text that is no uuid, an id that is not stored, and an expired
    session. *)
Lemma updateSession_refuses_missing_or_expired_witness :
  SessionService.updateSession 5000 5001 "s-1"
    {[ "theme" := JsString "dark" ]} Scenario.store
  = Rejected (InvalidUuid "s-1")
  ∧ SessionService.updateSession 5000 5001
      "c0000000-0000-4000-8000-000000000404"
      {[ "theme" := JsString "dark" ]} Scenario.store
    = Resolved (None, Scenario.store)
  ∧ SessionService.updateSession (1000 + 2 * Scenario.day)
      (1000 + 2 * Scenario.day) "c0000000-0000-4000-8000-000000000001"
      {[ "theme" := JsString "dark" ]} Scenario.store
    = Resolved (None, Scenario.store).
Proof.
  split; [|split].
  - apply updateSession_refuses_missing_or_expired. reflexivity.
  - apply (proj2 (updateSession_refuses_missing_or_expired _ _ _ _ _)
             "c0000000-0000-4000-8000-000000000404"); [reflexivity|].
    intros s Hs Hid. apply list_elem_of_In in Hs. simpl in Hs.
    destruct Hs as [<-|[]]. discriminate.
  - apply (proj2 (updateSession_refuses_missing_or_expired _ _ _ _ _)
             "c0000000-0000-4000-8000-000000000001"); [reflexivity|].
    intros s Hs _. apply list_elem_of_In in Hs. simpl in Hs.
    destruct Hs as [<-|[]]. simpl. unfold Scenario.day. lia.
Defined.

(** Deleting the first of two stored sessions: it was served before and is
    not afterwards, the second is served as before. *)
Lemma deleteSession_then_getSession_witness :
  returned (SessionService.getSession 5000 5001
              "c0000000-0000-4000-8000-000000000001" Scenario.busyStore)
  = Resolved (Some Scenario.aliceSession)
  ∧ ∃ db',
      SessionService.deleteSession "c0000000-0000-4000-8000-000000000001"
        Scenario.busyStore = Resolved db'
      ∧ SessionService.getSession 5000 5001
          "c0000000-0000-4000-8000-000000000001" db' = Resolved (None, db')
      ∧ returned (SessionService.getSession 5000 5001
                    "c0000000-0000-4000-8000-000000000002" db')
        = Resolved (Some Scenario.laterSession).
Proof.
  split; [reflexivity|].
  destruct (proj2 (deleteSession_then_getSession 5000 5001
                     "c0000000-0000-4000-8000-000000000001"
                     Scenario.busyStore)
              "c0000000-0000-4000-8000-000000000001" eq_refl)
    as (db' & Hdel & _ & Hgone & Hother).
  exists db'. split; [exact Hdel|]. split; [exact Hgone|].
  rewrite (Hother "c0000000-0000-4000-8000-000000000002");
    [reflexivity|discriminate].
Defined.

(** Deleting the sessions of the user who has two. *)
Lemma deleteUserSessions_then_getUserSessions_witness :
  SessionService.getUserSessions 5000
    "a0000000-0000-4000-8000-000000000001" Scenario.busyStore
  = Resolved [Scenario.aliceSession; Scenario.laterSession]
  ∧ ∃ db',
      SessionService.deleteUserSessions
        "a0000000-0000-4000-8000-000000000001" Scenario.busyStore
      = Resolved db'
      ∧ SessionService.getUserSessions 5000
          "a0000000-0000-4000-8000-000000000001" db' = Resolved [].
Proof.
  split; [reflexivity|].
  destruct (proj2 (deleteUserSessions_then_getUserSessions 5000
                     "a0000000-0000-4000-8000-000000000001"
                     Scenario.busyStore)
              "a0000000-0000-4000-8000-000000000001" eq_refl)
    as (db' & Hdel & _ & Hnone & _).
  exists db'. split; [exact Hdel|exact Hnone].
Defined.

(** A sweep that deletes the first of two stored sessions, the day after
    its expiry. *)
Lemma cleanupExpiredSessions_invisible_witness :
  sessions (SessionService.cleanupExpiredSessions (2000 + Scenario.day)
              Scenario.busyStore)
  = [Scenario.laterSession]
  ∧ SessionService.getUserSessions (3000 + Scenario.day)
      "a0000000-0000-4000-8000-000000000001"
      (SessionService.cleanupExpiredSessions (2000 + Scenario.day)
         Scenario.busyStore)
    = SessionService.getUserSessions (3000 + Scenario.day)
        "a0000000-0000-4000-8000-000000000001" Scenario.busyStore
  ∧ returned
      (SessionService.getSession (3000 + Scenario.day) 0
         "c0000000-0000-4000-8000-000000000001"
         (SessionService.cleanupExpiredSessions (2000 + Scenario.day)
            Scenario.busyStore))
    = returned
        (SessionService.getSession (3000 + Scenario.day) 0
           "c0000000-0000-4000-8000-000000000001" Scenario.busyStore).
Proof.
  split; [reflexivity|].
  destruct (cleanupExpiredSessions_invisible (2000 + Scenario.day)
              (3000 + Scenario.day) 0 Scenario.busyStore
              busyStore_session_keys) as [Hlist Hget].
  - lia.
  - split; [apply Hlist|apply Hget].
Defined.

(** Extending the first of two stored sessions leaves the second in its
    place; an id that is not stored, and a text that is no uuid. *)
Lemma extendSession_only_touches_its_id_witness :
  sessions
    (written Scenario.busyStore
       (SessionService.extendSession 5000 5001
          "c0000000-0000-4000-8000-000000000001" Scenario.busyStore))
    !! 1%nat
  = Some Scenario.laterSession
  ∧ SessionService.extendSession 5000 5001
      "c0000000-0000-4000-8000-000000000404" Scenario.busyStore
    = Resolved (None, Scenario.busyStore)
  ∧ SessionService.extendSession 5000 5001 "s-1" Scenario.busyStore
    = Rejected (InvalidUuid "s-1").
Proof.
  split; [|split].
  - apply (proj2 (proj2 (extendSession_only_touches_its_id 5000 5001
                           "c0000000-0000-4000-8000-000000000001"
                           Scenario.busyStore))
             "c0000000-0000-4000-8000-000000000001" 1%nat);
      [reflexivity|reflexivity|discriminate].
  - apply (proj1 (proj2 (extendSession_only_touches_its_id 5000 5001
                           "c0000000-0000-4000-8000-000000000404"
                           Scenario.busyStore))
             "c0000000-0000-4000-8000-000000000404"); [reflexivity|].
    intros s Hs. apply list_elem_of_In in Hs. simpl in Hs.
    destruct Hs as [<-|[<-|[]]]; discriminate.
  - apply (proj1 (extendSession_only_touches_its_id 5000 5001 "s-1"
                    Scenario.busyStore)). reflexivity.
Defined.

Lemma session_expiring_now_served_not_listed_witness :
  returned (SessionService.getSession (1000 + Scenario.day) 0
              "c0000000-0000-4000-8000-000000000001" Scenario.store)
  = Resolved (Some Scenario.aliceSession)
  ∧ ∃ listed,
      SessionService.getUserSessions (1000 + Scenario.day)
        "a0000000-0000-4000-8000-000000000001" Scenario.store
      = Resolved listed
      ∧ Scenario.aliceSession ∉ listed.
Proof.
  apply (session_expiring_now_served_not_listed (1000 + Scenario.day) 0
           "c0000000-0000-4000-8000-000000000001"
           "a0000000-0000-4000-8000-000000000001" Scenario.store
           Scenario.aliceSession store_session_keys store_has_session);
    reflexivity.
Defined.


(** Half an hour before the expiry of the stored session: the request sees
    the old expiry, the store holds the new one. *)
Lemma sessionMiddleware_extends_near_expiry_witness :
  let late := 1000 + Scenario.day - 30 * 60 * 1000 in
  let out := sessionMiddleware late late late late late
               (Some "c0000000-0000-4000-8000-000000000001")
               Scenario.store in
  (RequestSession.expiresAt <$> out.1) = Some (1000 + Scenario.day)
  ∧ {| Session.id := "c0000000-0000-4000-8000-000000000001";
       Session.userId := "a0000000-0000-4000-8000-000000000001";
       Session.data := ∅;
       Session.expiresAt := late + 24 * 60 * 60 * 1000;
       Session.createdAt := 1000; Session.lastAccessedAt := late |}
    ∈ sessions out.2.
Proof.
  intros late out.
  destruct (sessionMiddleware_extends_near_expiry late late late late late
              "c0000000-0000-4000-8000-000000000001" Scenario.store
              Scenario.aliceSession store_session_keys store_has_session)
    as (Hreq & Hnear & _).
  - discriminate.
  - reflexivity.
  - simpl. unfold late, Scenario.day. lia.
  - split.
    + exact (f_equal (fmap RequestSession.expiresAt) Hreq).
    + apply Hnear. simpl. unfold late, Scenario.day. lia.
Defined.

(** ** Inserts, seen from their result *)

Lemma insertRow_resolved {R} (cell : R → string → option Cell)
    (t : Migration.Table) (rows rows' : list R) (r : R) :
  insertRow cell t rows r = Resolved rows' → rows' = rows ++ [r].
Proof.
  unfold insertRow. destruct (violatedKey cell t rows r); [done|].
  by intros [= <-].
Qed.

Lemma insertUser_resolved g n db u db' :
  insertUser g n db = Resolved (u, db') →
  u = {| User.id := genId g; User.provider := nu_provider n;
         User.providerId := nu_providerId n; User.email := nu_email n;
         User.name := nu_name n; User.createdAt := genNow g |}
  ∧ db' = {| users := users db ++ [u]; refreshTokens := refreshTokens db;
             sessions := sessions db |}
  ∧ ∀ x, x ∈ users db → User.id x ≠ genId g.
Proof.
  unfold insertUser, mbind, Outcome_bind.
  destruct (insertRow userCell Migration.users (users db) _)
    as [rows|e] eqn:Hins; [|done].
  intros [= <- <-].
  pose proof (insertRow_resolved _ _ _ _ _ Hins) as ->.
  split; [done|]. split; [done|].
  rewrite (insertRow_primary_key_only userCell User.id) in Hins by done.
  destruct (existsb _ (users db)) eqn:He; [done|].
  rewrite existsb_false_iff in He. intros x Hx.
  specialize (He x Hx). by apply bool_decide_eq_false in He.
Qed.

Lemma insertRefreshToken_resolved g n db r db' :
  insertRefreshToken g n db = Resolved (r, db') →
  r = {| RefreshToken.id := genId g; RefreshToken.userId := nrt_userId n;
         RefreshToken.token := nrt_token n;
         RefreshToken.expiresAt := nrt_expiresAt n;
         RefreshToken.isRevoked := false;
         RefreshToken.createdAt := genNow g |}
  ∧ db' = {| users := users db; refreshTokens := refreshTokens db ++ [r];
             sessions := sessions db |}
  ∧ userExists db (nrt_userId n) = true
  ∧ ∀ x, x ∈ refreshTokens db → RefreshToken.id x ≠ genId g.
Proof.
  unfold insertRefreshToken, checkUserFk, mbind, Outcome_bind.
  destruct (userExists db (nrt_userId n)) eqn:Hu; [|done].
  destruct (insertRow refreshTokenCell Migration.refresh_tokens _ _)
    as [rows|e] eqn:Hins; [|done].
  intros [= <- <-].
  pose proof (insertRow_resolved _ _ _ _ _ Hins) as ->.
  split; [done|]. split; [done|]. split; [done|].
  rewrite (insertRow_primary_key_only refreshTokenCell RefreshToken.id)
    in Hins by done.
  destruct (existsb _ (refreshTokens db)) eqn:He; [done|].
  rewrite existsb_false_iff in He. intros x Hx.
  specialize (He x Hx). by apply bool_decide_eq_false in He.
Qed.

Lemma insertSession_resolved g n db s db' :
  insertSession g n db = Resolved (s, db') →
  s = {| Session.id := genId g; Session.userId := ns_userId n;
         Session.data := jsonb (ns_data n); Session.expiresAt := ns_expiresAt n;
         Session.createdAt := genNow g; Session.lastAccessedAt := genNow g |}
  ∧ db' = {| users := users db; refreshTokens := refreshTokens db;
             sessions := sessions db ++ [s] |}
  ∧ userExists db (ns_userId n) = true
  ∧ ∀ x, x ∈ sessions db → Session.id x ≠ genId g.
Proof.
  unfold insertSession, checkUserFk, mbind, Outcome_bind.
  destruct (userExists db (ns_userId n)) eqn:Hu; [|done].
  destruct (insertRow sessionCell Migration.sessions _ _)
    as [rows|e] eqn:Hins; [|done].
  intros [= <- <-].
  pose proof (insertRow_resolved _ _ _ _ _ Hins) as ->.
  split; [done|]. split; [done|]. split; [done|].
  rewrite (insertRow_primary_key_only sessionCell Session.id) in Hins by done.
  destruct (existsb _ (sessions db)) eqn:He; [done|].
  rewrite existsb_false_iff in He. intros x Hx.
  specialize (He x Hx). by apply bool_decide_eq_false in He.
Qed.

Lemma generateTokens_resolved jwtSign iat uuid now g userId provider db
    tokens db' :
  TokenService.generateTokens jwtSign iat uuid now g userId provider db
  = Resolved (tokens, db') →
  ∃ r, insertRefreshToken g
         {| nrt_userId := userId; nrt_token := uuid;
            nrt_expiresAt := now + 30 * 86400 * 1000 |} db
       = Resolved (r, db')
       ∧ GeneratedTokens.refreshToken tokens = uuid
       ∧ GeneratedTokens.expiresIn tokens = JsNumber 2592000
       ∧ jwtSign iat {| TokenPayload.userId := userId;
                        TokenPayload.provider := provider |} "1h"
         = Resolved (GeneratedTokens.accessToken tokens).
Proof.
  unfold TokenService.generateTokens, ACCESS_TOKEN_EXPIRES_IN.
  destruct (jwtSign iat _ _) as [a|e]; simpl; [|done].
  replace (addSeconds now REFRESH_TOKEN_EXPIRES_IN)
    with (now + 30 * 86400 * 1000)
    by (unfold addSeconds, REFRESH_TOKEN_EXPIRES_IN; lia).
  destruct (insertRefreshToken g _ db) as [[r db1]|e] eqn:Hins; simpl;
    [|done].
  intros [= <- <-]. by exists r.
Qed.

Lemma userExists_elem db uid :
  userExists db uid = true ↔ ∃ u, u ∈ users db ∧ User.id u = uid.
Proof.
  unfold userExists. rewrite existsb_exists. split.
  - intros (u & Hu & Hid). exists u. split; [by apply list_elem_of_In|].
    by apply bool_decide_eq_true in Hid.
  - intros (u & Hu & Hid). exists u. split; [by apply list_elem_of_In|].
    by apply bool_decide_eq_true.
Qed.

(** ** The constraints are kept by every statement *)

Lemma NoDup_snoc_key {R} (f : R → string) (l : list R) (y : R) :
  NoDup (f <$> l) → (∀ x, x ∈ l → f x ≠ f y) → NoDup (f <$> (l ++ [y])).
Proof.
  intros Hnd Hfree. rewrite fmap_app. apply NoDup_app.
  split; [done|]. split; [|apply NoDup_singleton].
  intros i Hi Hi'. apply list_elem_of_fmap in Hi as (x & -> & Hx).
  apply list_elem_of_singleton in Hi'. by apply (Hfree x).
Qed.

Lemma userExists_grows db db' uid :
  users db `prefix_of` users db' →
  userExists db uid = true → userExists db' uid = true.
Proof.
  intros [k Hk]. rewrite !userExists_elem. intros (u & Hu & Hid).
  exists u. split; [|done]. rewrite Hk. apply elem_of_app. by left.
Qed.

Lemma referencesHold_grows db db' :
  users db `prefix_of` users db' →
  refreshTokens db' = refreshTokens db → sessions db' = sessions db →
  referencesHold db → referencesHold db'.
Proof.
  intros Hu Ht Hs [Hrt Hss]. split.
  - intros r Hr. rewrite Ht in Hr. eapply userExists_grows; eauto.
  - intros s Hin. rewrite Hs in Hin. eapply userExists_grows; eauto.
Qed.

Lemma userStep_constraints db db' :
  constraintsHold db → userStep db db' → constraintsHold db'.
Proof.
  intros Hc [->|(g & n & u & Hins)]; [done|].
  destruct Hc as (Hu & Ht & Hs & Href).
  apply insertUser_resolved in Hins as (Hrow & -> & Hfree).
  split; [|split; [done|split; [done|]]].
  - unfold userKeysUnique. simpl. apply NoDup_snoc_key; [done|].
    intros x Hx. rewrite Hrow. simpl. by apply Hfree.
  - eapply referencesHold_grows; [| | |exact Href]; simpl; try done.
    by apply prefix_app_r.
Qed.

Lemma tokenStep_constraints db db' :
  constraintsHold db → tokenStep db db' → constraintsHold db'.
Proof.
  intros Hc [->|(g & n & r & Hins)]; [done|].
  destruct Hc as (Hu & Ht & Hs & [Hrt Hss]).
  apply insertRefreshToken_resolved in Hins as (Hrow & -> & Hfk & Hfree).
  split; [done|]. split; [|split; [done|split]].
  - unfold tokenKeysUnique. simpl. apply NoDup_snoc_key; [done|].
    intros x Hx. rewrite Hrow. simpl. by apply Hfree.
  - intros x Hx. simpl in Hx. unfold userExists. simpl.
    apply elem_of_app in Hx as [Hx|Hx]; [by apply Hrt|].
    apply list_elem_of_singleton in Hx as ->. rewrite Hrow. exact Hfk.
  - exact Hss.
Qed.

Lemma sessionStep_constraints db db' :
  constraintsHold db → sessionStep db db' → constraintsHold db'.
Proof.
  intros Hc [->|(g & n & s & Hins)]; [done|].
  destruct Hc as (Hu & Ht & Hs & [Hrt Hss]).
  apply insertSession_resolved in Hins as (Hrow & -> & Hfk & Hfree).
  split; [done|]. split; [done|]. split; [|split].
  - unfold sessionKeysUnique. simpl. apply NoDup_snoc_key; [done|].
    intros x Hx. rewrite Hrow. simpl. by apply Hfree.
  - exact Hrt.
  - intros x Hx. simpl in Hx. unfold userExists. simpl.
    apply elem_of_app in Hx as [Hx|Hx]; [by apply Hss|].
    apply list_elem_of_singleton in Hx as ->. rewrite Hrow. exact Hfk.
Qed.

Lemma revoke_constraints t db :
  constraintsHold db → constraintsHold (TokenService.revokeRefreshToken t db).
Proof.
  intros (Hu & Ht & Hs & [Hrt Hss]).
  split; [done|]. split; [|split; [done|split; [|done]]].
  - unfold tokenKeysUnique. simpl. unfold updateWhere.
    rewrite <- list_fmap_compose.
    erewrite list_fmap_ext; [exact Ht|].
    intros i x _. simpl. by destruct (bool_decide _).
  - intros r Hr. simpl in Hr. unfold updateWhere in Hr.
    apply list_elem_of_fmap in Hr as (r0 & -> & Hr0).
    unfold userExists. simpl.
    destruct (bool_decide _); simpl; by apply Hrt.
Qed.

Lemma deleteSessions_constraints (q : Session.t → bool) db :
  constraintsHold db →
  constraintsHold (SessionService.setSessions db (deleteWhere q (sessions db))).
Proof.
  intros (Hu & Ht & Hs & [Hrt Hss]).
  split; [done|]. split; [done|]. split; [|split; [done|]].
  - unfold sessionKeysUnique. simpl. by apply deleteWhere_keys.
  - intros s Hin. simpl in Hin. apply deleteWhere_elem in Hin as [Hin _].
    by apply Hss.
Qed.

(** ** What the router does to the database *)

Lemma evolves_refl db : evolves db db.
Proof.
  split; [done|]. intros i r Hi. exists r. split; [done|]. by left.
Qed.

Lemma sameOrRevoked_trans r1 r2 r3 :
  sameOrRevoked r1 r2 → sameOrRevoked r2 r3 → sameOrRevoked r1 r3.
Proof.
  intros [->| ->] [->| ->]; [by left | by right | by right | by right].
Qed.

Lemma evolves_trans db1 db2 db3 :
  evolves db1 db2 → evolves db2 db3 → evolves db1 db3.
Proof.
  intros [Hu1 Ht1] [Hu2 Ht2]. split; [by etrans|].
  intros i r Hi. destruct (Ht1 i r Hi) as (r' & Hi' & Hr').
  destruct (Ht2 i r' Hi') as (r'' & Hi'' & Hr'').
  exists r''. split; [done|]. by eapply sameOrRevoked_trans.
Qed.

Lemma evolves_same_users_tokens db db' :
  users db' = users db → refreshTokens db' = refreshTokens db →
  evolves db db'.
Proof.
  intros Hu Ht. split; [by rewrite Hu|].
  intros i r Hi. exists r. rewrite Ht. split; [done|]. by left.
Qed.

Lemma userStep_evolves db db' : userStep db db' → evolves db db'.
Proof.
  intros [->|(g & n & u & Hins)]; [apply evolves_refl|].
  apply insertUser_resolved in Hins as (_ & -> & _).
  split; [by apply prefix_app_r|].
  intros i r Hi. exists r. split; [done|]. by left.
Qed.

Lemma tokenStep_evolves db db' : tokenStep db db' → evolves db db'.
Proof.
  intros [->|(g & n & r0 & Hins)]; [apply evolves_refl|].
  apply insertRefreshToken_resolved in Hins as (_ & -> & _).
  split; [done|].
  intros i r Hi. exists r. simpl. split; [|by left].
  by apply lookup_app_l_Some.
Qed.

Lemma sessionStep_evolves db db' : sessionStep db db' → evolves db db'.
Proof.
  intros [->|(g & n & s & Hins)]; [apply evolves_refl|].
  apply insertSession_resolved in Hins as (_ & -> & _).
  by apply evolves_same_users_tokens.
Qed.

Lemma revoke_evolves t db : evolves db (TokenService.revokeRefreshToken t db).
Proof.
  split; [done|]. intros i r Hi. simpl.
  rewrite updateWhere_lookup, Hi. simpl.
  destruct (bool_decide _); eexists; (split; [done|]); [by right | by left].
Qed.

Lemma findOrCreateUser_step g provider info db :
  userStep db (Routes.findOrCreateUser g provider info db).2.
Proof.
  unfold Routes.findOrCreateUser, mbind, Attempt_bind, readDb, statement.
  destruct (selectWhere _ (users db)) as [|u rest]; [|by left].
  destruct (insertUser g _ db) as [[u db']|e] eqn:Hins; simpl; [|by left].
  right. eauto.
Qed.

Section RouterMore.
Variable hasClient : string → bool.
Variable BASE_URL : string.
Variable calculatePKCECodeChallenge : string → Outcome string.
Variable buildAuthorizationUrl :
  string → list (string * string) → Outcome string.
Variable authorizationCodeGrant :
  string → string → string → string → Outcome string.
Variable fetchDiscord : string → Outcome FetchResponse.t.
Variable parseDiscordUser : string → Outcome DiscordUser.t.
Variable fetchProtectedResource : string → string → Outcome (option string).
Variable parseUserInfo : string → Outcome UserInfo.t.
Variable jwtSign : Timestamp → TokenPayload.t → string → Outcome string.

Local Abbreviation loginHandler :=
  (Routes.loginHandler hasClient BASE_URL calculatePKCECodeChallenge
     buildAuthorizationUrl).
Local Abbreviation fetchUserInfo :=
  (Routes.fetchUserInfo fetchDiscord parseDiscordUser fetchProtectedResource
     parseUserInfo).
Local Abbreviation callbackAttempt :=
  (Routes.callbackAttempt authorizationCodeGrant fetchDiscord
     parseDiscordUser fetchProtectedResource parseUserInfo jwtSign).
Local Abbreviation callbackCheck := (Routes.callbackCheck hasClient).
Local Abbreviation callbackSettle :=
  (Routes.callbackSettle authorizationCodeGrant fetchDiscord
     parseDiscordUser fetchProtectedResource parseUserInfo jwtSign).
Local Abbreviation callbackHandler :=
  (Routes.callbackHandler hasClient authorizationCodeGrant fetchDiscord
     parseDiscordUser fetchProtectedResource parseUserInfo jwtSign).
Local Abbreviation handle :=
  (Routes.handle hasClient BASE_URL calculatePKCECodeChallenge
     buildAuthorizationUrl authorizationCodeGrant fetchDiscord
     parseDiscordUser fetchProtectedResource parseUserInfo jwtSign).
Local Abbreviation run :=
  (Routes.run hasClient BASE_URL calculatePKCECodeChallenge
     buildAuthorizationUrl authorizationCodeGrant fetchDiscord
     parseDiscordUser fetchProtectedResource parseUserInfo jwtSign).

(** The [try] block, seen from the database: at most one user, then at most
    one refresh token, then at most one session. *)
Lemma callbackAttempt_steps provider url p r db :
  ∃ db1 db2, userStep db db1 ∧ tokenStep db1 db2
             ∧ sessionStep db2 (callbackAttempt provider url p r db).2.
Proof.
  unfold Routes.callbackAttempt, mbind, Attempt_bind, await.
  destruct (authorizationCodeGrant _ _ _ _) as [access_token|e];
    [|exists db, db; repeat split; by left].
  destruct (fetchUserInfo provider access_token) as [info|e];
    [|exists db, db; repeat split; by left].
  pose proof (findOrCreateUser_step (userDefaults r) provider info db)
    as Hstep1.
  destruct (Routes.findOrCreateUser _ _ _ db) as [[uid|e] db1];
    simpl in Hstep1; [|exists db1, db1; repeat split; [done|by left..]].
  unfold statement.
  destruct (TokenService.generateTokens _ _ _ _ _ _ _ db1)
    as [[tokens db2]|e] eqn:Hgen;
    [|exists db1, db1; repeat split; [done|by left..]].
  apply generateTokens_resolved in Hgen as (r0 & Hins & _).
  destruct (SessionService.createSession _ _ _ _ db2)
    as [[s db3]|e] eqn:Hcs; simpl.
  - exists db1, db2. split; [done|]. split; [right; eauto|].
    right. unfold SessionService.createSession in Hcs. eauto.
  - exists db1, db2. split; [done|]. split; [right; eauto|]. by left.
Qed.

Lemma handle_evolves w q : evolves (db w) (db (handle w q)).
Proof.
  destruct q as [cv st pr|pr qs url r|now iat t|t|c|c|c]; simpl.
  - unfold Routes.loginHandler. destruct (hasClient pr); simpl;
      [|apply evolves_refl].
    destruct (calculatePKCECodeChallenge cv); apply evolves_refl.
  - unfold Routes.callbackHandler.
    destruct (callbackCheck pr qs w) as [res|p]; [apply evolves_refl|].
    unfold Routes.callbackSettle.
    destruct (callbackAttempt_steps pr url p r (db w))
      as (db1 & db2 & H1 & H2 & H3).
    destruct (callbackAttempt pr url p r (db w)) as [result db3]. simpl in *.
    eapply evolves_trans; [by apply userStep_evolves|].
    eapply evolves_trans; [by apply tokenStep_evolves|].
    by apply sessionStep_evolves.
  - unfold Routes.refreshHandler.
    destruct t as [[|a t]|]; simpl; try apply evolves_refl.
    destruct (TokenService.refreshAccessToken _ _ _ _ _); apply evolves_refl.
  - unfold Routes.revokeHandler.
    destruct t as [[|a t]|]; simpl; try apply evolves_refl.
    apply revoke_evolves.
  - destruct c; apply evolves_refl.
  - unfold Routes.deleteSessionHandler.
    destruct c as [c|]; [|apply evolves_refl].
    unfold SessionService.deleteSession.
    destruct (SessionService.uuidParam _); simpl;
      [by apply evolves_same_users_tokens|apply evolves_refl].
  - unfold Routes.deleteSessionsHandler.
    destruct c as [c|]; [|apply evolves_refl].
    unfold SessionService.deleteUserSessions.
    destruct (SessionService.uuidParam _); simpl;
      [by apply evolves_same_users_tokens|apply evolves_refl].
Qed.

Lemma handle_constraints w q :
  constraintsHold (db w) → constraintsHold (db (handle w q)).
Proof.
  intros Hc.
  destruct q as [cv st pr|pr qs url r|now iat t|t|c|c|c]; simpl.
  - unfold Routes.loginHandler. destruct (hasClient pr); simpl; [|done].
    by destruct (calculatePKCECodeChallenge cv).
  - unfold Routes.callbackHandler.
    destruct (callbackCheck pr qs w) as [res|p]; [done|].
    unfold Routes.callbackSettle.
    destruct (callbackAttempt_steps pr url p r (db w))
      as (db1 & db2 & H1 & H2 & H3).
    destruct (callbackAttempt pr url p r (db w)) as [result db3]. simpl in *.
    eapply sessionStep_constraints; [|exact H3].
    eapply tokenStep_constraints; [|exact H2].
    by eapply userStep_constraints.
  - unfold Routes.refreshHandler.
    destruct t as [[|a t]|]; simpl; try done.
    by destruct (TokenService.refreshAccessToken _ _ _ _ _).
  - unfold Routes.revokeHandler.
    destruct t as [[|a t]|]; simpl; try done.
    by apply revoke_constraints.
  - by destruct c.
  - unfold Routes.deleteSessionHandler. destruct c as [c|]; [|done].
    unfold SessionService.deleteSession.
    destruct (SessionService.uuidParam _); simpl; [|done].
    by apply deleteSessions_constraints.
  - unfold Routes.deleteSessionsHandler. destruct c as [c|]; [|done].
    unfold SessionService.deleteUserSessions.
    destruct (SessionService.uuidParam _); simpl; [|done].
    by apply deleteSessions_constraints.
Qed.

(** X18.  Whatever requests the router serves, one after the other: every
    user row present before is still there afterwards, at the same place
    and unchanged, and so is every refresh-token record, unchanged or with
    [isRevoked] set.  The router never deletes a user or a refresh token
    and never clears a revocation. *)
Theorem router_keeps_users_and_tokens (w : World) (qs : list Routes.Request) :
  users (db w) `prefix_of` users (db (run w qs))
  ∧ Forall2 sameOrRevoked (refreshTokens (db w))
      (take (length (refreshTokens (db w)))
         (refreshTokens (db (run w qs)))).
Proof.
  assert (H : evolves (db w) (db (run w qs))).
  { unfold Routes.run. revert w.
    induction qs as [|q qs IH]; intros w; [apply evolves_refl|].
    simpl. eapply evolves_trans; [apply handle_evolves | apply IH]. }
  destruct H as [Hu Ht]. split; [exact Hu|].
  apply Forall2_same_length_lookup. split.
  - rewrite length_take.
    destruct (decide (length (refreshTokens (db w))
                      ≤ length (refreshTokens (db (run w qs)))))%nat
      as [Hle|Hgt]; [lia|].
    exfalso.
    destruct (refreshTokens (db w) !! length (refreshTokens (db (run w qs))))
      as [r|] eqn:Hr.
    + destruct (Ht _ _ Hr) as (r' & Hr' & _).
      apply lookup_lt_Some in Hr'. lia.
    + apply lookup_ge_None in Hr. lia.
  - intros i r r' Hi Hi'. destruct (Ht i r Hi) as (r'' & Hr'' & Hsame).
    rewrite lookup_take_lt in Hi' by (apply lookup_lt_Some in Hi; lia).
    congruence.
Qed.

(** X19.  Starting from a database that satisfies the primary keys and the
    foreign keys of the migration, every database the router reaches
    satisfies them: ids stay unique in the three tables and every refresh
    token and every session belongs to a stored user. *)
Theorem router_keeps_constraints (db0 : Db) (qs : list Routes.Request) :
  constraintsHold db0 →
  constraintsHold (db (run (Routes.createAuthRouter db0) qs)).
Proof.
  intros H0. unfold Routes.run.
  assert (H : constraintsHold (db (Routes.createAuthRouter db0))) by done.
  revert H. generalize (Routes.createAuthRouter db0) as w.
  induction qs as [|q qs IH]; intros w Hw; [done|].
  simpl. apply IH. by apply handle_constraints.
Qed.

(** X20.  [GET /login/:provider].  An unknown provider is answered 400 and
    registers nothing.  For a configured provider whose challenge is
    computed, the entry is registered under the state value (replacing any
    entry already there), the database is not touched, the callback check
    with that state accepts on the same provider and answers "Invalid
    state" on every other configured provider. *)
Theorem login_registers_state codeVerifier state provider w :
  let out := loginHandler codeVerifier state provider w in
  (hasClient provider = false →
   out = (Resolved (respond 400 (ErrorBody "Invalid provider")), w))
  ∧ (∀ codeChallenge,
       hasClient provider = true →
       calculatePKCECodeChallenge codeVerifier = Resolved codeChallenge →
       let entry := {| PendingExchange.codeVerifier := codeVerifier;
                       PendingExchange.state := state;
                       PendingExchange.provider := provider |} in
       states out.2 = <[state := entry]> (states w)
       ∧ db out.2 = db w
       ∧ callbackCheck provider (Some state) out.2 = inr entry
       ∧ ∀ other, hasClient other = true → other ≠ provider →
           callbackCheck other (Some state) out.2
           = inl (respond 400 (ErrorBody "Invalid state"))).
Proof.
  simpl. unfold Routes.loginHandler. split.
  - intros Hc. by rewrite Hc.
  - intros codeChallenge Hc Hch. rewrite Hc, Hch. simpl.
    split; [done|]. split; [done|]. unfold Routes.callbackCheck. simpl.
    rewrite lookup_insert_eq. simpl. split.
    + rewrite Hc. simpl. by rewrite bool_decide_true.
    + intros other Ho Hne. rewrite Ho. simpl.
      by rewrite bool_decide_false.
Qed.

(** What a resolved [try] block went through. *)
Lemma callbackAttempt_resolved provider url p r db body db' :
  callbackAttempt provider url p r db = (Resolved body, db') →
  ∃ access_token info uid db1 tokens db2 s,
    authorizationCodeGrant provider url (PendingExchange.codeVerifier p)
      (PendingExchange.state p) = Resolved access_token
    ∧ fetchUserInfo provider access_token = Resolved info
    ∧ Routes.findOrCreateUser (userDefaults r) provider info db
      = (Resolved uid, db1)
    ∧ TokenService.generateTokens jwtSign (tokenIat r) (tokenUuid r)
        (tokenNow r) (tokenDefaults r) uid provider db1
      = Resolved (tokens, db2)
    ∧ SessionService.createSession (sessionNow r) (sessionDefaults r) uid
        (Routes.sessionData provider info (lastLogin r)) db2
      = Resolved (s, db')
    ∧ body = LoginBody tokens (Session.id s).
Proof.
  unfold Routes.callbackAttempt, mbind, Attempt_bind, await.
  destruct (authorizationCodeGrant _ _ _ _) as [access_token|e] eqn:Hg;
    [|done].
  destruct (fetchUserInfo provider access_token) as [info|e] eqn:Hi; [|done].
  destruct (Routes.findOrCreateUser _ _ _ db) as [[uid|e] db1] eqn:Hf;
    [|done].
  unfold statement.
  destruct (TokenService.generateTokens _ _ _ _ _ _ _ db1)
    as [[tokens db2]|e] eqn:Hgen; [|done].
  destruct (SessionService.createSession _ _ _ _ db2)
    as [[s db3]|e] eqn:Hcs; [|done].
  intros [= <- <-]. by exists access_token, info, uid, db1, tokens, db2, s.
Qed.

Lemma findOrCreateUser_resolved g provider info db uid db1 :
  Routes.findOrCreateUser g provider info db = (Resolved uid, db1) →
  users db `prefix_of` users db1
  ∧ refreshTokens db1 = refreshTokens db ∧ sessions db1 = sessions db
  ∧ ∃ u, u ∈ users db1 ∧ User.id u = uid
         ∧ User.providerId u = UserInfo.sub info.
Proof.
  unfold Routes.findOrCreateUser, mbind, Attempt_bind, readDb, statement.
  destruct (selectWhere _ (users db)) as [|u rest] eqn:Hsel.
  - destruct (insertUser g _ db) as [[u db']|e] eqn:Hins; simpl; [|done].
    intros [= <- <-].
    apply insertUser_resolved in Hins as (Hrow & -> & _). simpl.
    split; [by apply prefix_app_r|]. split; [done|]. split; [done|].
    exists u. split; [apply elem_of_app; right; left|].
    by rewrite Hrow.
  - simpl. intros [= <- <-]. split; [done|]. split; [done|]. split; [done|].
    assert (Hu : u ∈ selectWhere
                   (λ u, bool_decide (User.providerId u = UserInfo.sub info))
                   (users db)) by (rewrite Hsel; left).
    apply selectWhere_elem in Hu as [Hu Hp].
    apply bool_decide_eq_true in Hp. by exists u.
Qed.

(** X21.  A callback answered 200 left a consistent triple behind: the
    database holds a user with the subject id of the fetched profile, a
    refresh token of the returned value for that user, not revoked and
    expiring 30 days after the clock reading, and a session of the returned
    id for that same user, expiring 24 hours after its clock reading and
    carrying four strings: the provider, the email and name of the profile,
    and the login instant as its ISO string. *)
Theorem callback_success_is_consistent provider url p r w tokens sid :
  (callbackSettle provider url p r w).1
  = respond 200 (LoginBody tokens sid) →
  let db' := db (callbackSettle provider url p r w).2 in
  ∃ access_token info u t s,
    authorizationCodeGrant provider url (PendingExchange.codeVerifier p)
      (PendingExchange.state p) = Resolved access_token
    ∧ fetchUserInfo provider access_token = Resolved info
    ∧ u ∈ users db' ∧ User.providerId u = UserInfo.sub info
    ∧ t ∈ refreshTokens db'
    ∧ RefreshToken.token t = GeneratedTokens.refreshToken tokens
    ∧ RefreshToken.userId t = User.id u
    ∧ RefreshToken.isRevoked t = false
    ∧ RefreshToken.expiresAt t = tokenNow r + 30 * 86400 * 1000
    ∧ s ∈ sessions db' ∧ Session.id s = sid
    ∧ Session.userId s = User.id u
    ∧ Session.expiresAt s = sessionNow r + 24 * 60 * 60 * 1000
    ∧ Session.data s
      = <["provider" := JsString provider]>
          (<["email" := JsString (UserInfo.email info)]>
             (<["name" := JsString (UserInfo.name info)]>
                (<["lastLogin" := JsString (toISOString (lastLogin r))]>
                   ∅))).
Proof.
  unfold Routes.callbackSettle.
  destruct (callbackAttempt provider url p r (db w)) as [[body|e] db3] eqn:Hrun;
    simpl; [|done].
  intros [= ->].
  apply callbackAttempt_resolved in Hrun
    as (at_ & info & uid & db1 & tk & db2 & s & Hg & Hi & Hf & Hgen & Hcs & Hb).
  injection Hb as -> ->.
  apply findOrCreateUser_resolved in Hf as (_ & _ & _ & u & Hu & Huid & Hsub).
  apply generateTokens_resolved in Hgen as (t & Hins & Htok & _ & _).
  apply insertRefreshToken_resolved in Hins as (Ht & -> & _ & _).
  unfold SessionService.createSession in Hcs.
  apply insertSession_resolved in Hcs as (Hs & -> & _ & _). simpl.
  exists at_, info, u, t, s.
  split; [done|]. split; [done|]. split; [done|]. split; [done|].
  split; [apply elem_of_app; right; left|].
  rewrite Ht, Hs, Htok. simpl.
  repeat (split; [done|]). split; [apply elem_of_app; right; left|].
  repeat (split; [done|]).
  unfold jsonb, Routes.sessionData.
  by rewrite !fmap_insert, fmap_empty.
Qed.

(** X22.  A failure after the user step keeps the user: when the profile
    names a subject id that no stored user has, the generated user id is
    free and [jwt.sign] then throws, the callback answers 500
    "Authentication failed", the new user row stays in the database, no
    refresh token and no session is written, and the state entry is
    removed. *)
Theorem signing_failure_keeps_new_user provider url p r w access_token info e :
  authorizationCodeGrant provider url (PendingExchange.codeVerifier p)
    (PendingExchange.state p) = Resolved access_token →
  fetchUserInfo provider access_token = Resolved info →
  (∀ u, u ∈ users (db w) → User.providerId u ≠ UserInfo.sub info) →
  (∀ u, u ∈ users (db w) → User.id u ≠ genId (userDefaults r)) →
  jwtSign (tokenIat r)
    {| TokenPayload.userId := genId (userDefaults r);
       TokenPayload.provider := provider |} "1h" = Rejected e →
  callbackSettle provider url p r w
  = (respond 500 (ErrorBody "Authentication failed"),
     {| states := delete (PendingExchange.state p) (states w);
        db := {| users :=
                   users (db w) ++
                   [ {| User.id := genId (userDefaults r);
                        User.provider := provider;
                        User.providerId := UserInfo.sub info;
                        User.email := UserInfo.email info;
                        User.name := UserInfo.name info;
                        User.createdAt := genNow (userDefaults r) |} ];
                 refreshTokens := refreshTokens (db w);
                 sessions := sessions (db w) |} |}).
Proof.
  intros Hg Hi Hnew Hfree Hsign.
  unfold Routes.callbackSettle, Routes.callbackAttempt, mbind, Attempt_bind,
    await.
  rewrite Hg, Hi.
  unfold Routes.findOrCreateUser, mbind, Attempt_bind, readDb, statement.
  rewrite (proj2 (selectWhere_nil _ _)).
  2:{ intros u Hu. apply bool_decide_eq_false. by apply Hnew. }
  unfold insertUser, mbind, Outcome_bind.
  rewrite (insertRow_primary_key_only userCell User.id) by done.
  rewrite (proj2 (existsb_false_iff _ _)).
  2:{ intros u Hu. apply bool_decide_eq_false. simpl. by apply Hfree. }
  simpl. unfold TokenService.generateTokens, ACCESS_TOKEN_EXPIRES_IN.
  rewrite Hsign. done.
Qed.

End RouterMore.

Section RouterLast.
Variable fetchDiscord : string → Outcome FetchResponse.t.
Variable parseDiscordUser : string → Outcome DiscordUser.t.
Variable fetchProtectedResource : string → string → Outcome (option string).
Variable parseUserInfo : string → Outcome UserInfo.t.
Variable jwtSign : Timestamp → TokenPayload.t → string → Outcome string.

Local Abbreviation fetchUserInfo :=
  (Routes.fetchUserInfo fetchDiscord parseDiscordUser fetchProtectedResource
     parseUserInfo).

(** X23.  Where a profile comes from.  On the Discord path a profile is only
    produced from a response with [ok] set, whose text parsed as a Discord
    user: [id] becomes [sub], [username] becomes [name], [email] is kept and
    the discriminator is dropped.  On every other path it is the parsed
    body of the user-info response, and a response without a body yields
    none; the status of that response is not looked at. *)
Theorem fetchUserInfo_resolved provider access_token info :
  fetchUserInfo provider access_token = Resolved info →
  (provider = "discord" →
   ∃ response body discordUser,
     fetchDiscord access_token = Resolved response
     ∧ FetchResponse.ok response = true
     ∧ FetchResponse.text response = Resolved body
     ∧ parseDiscordUser body = Resolved discordUser
     ∧ info = {| UserInfo.email := DiscordUser.email discordUser;
                 UserInfo.name := DiscordUser.username discordUser;
                 UserInfo.sub := DiscordUser.id discordUser |})
  ∧ (provider ≠ "discord" →
     ∃ body, fetchProtectedResource provider access_token
             = Resolved (Some body)
             ∧ parseUserInfo body = Resolved info).
Proof.
  unfold Routes.fetchUserInfo, mbind, Outcome_bind.
  destruct (decide (provider = "discord")) as [Hd|Hd].
  - destruct (fetchDiscord access_token) as [response|e] eqn:Hf; [|done].
    destruct (FetchResponse.ok response) eqn:Hok; simpl; [|done].
    destruct (FetchResponse.text response) as [body|e] eqn:Ht; [|done].
    destruct (parseDiscordUser body) as [discordUser|e] eqn:Hp; [|done].
    intros [= <-]. split; [|done]. intros _.
    by exists response, body, discordUser.
  - destruct (fetchProtectedResource provider access_token)
      as [[body|]|e] eqn:Hf; [|done|done].
    intros Hp. split; [done|]. intros _. by exists body.
Qed.

(** X24.  Through the routes: once [POST /revoke] has answered for a token
    value, [POST /refresh] with that value answers 401 "Invalid refresh
    token" at every instant, and leaves the world as the revocation left
    it. *)
Theorem revoke_route_then_refresh_route (now iat : Timestamp) (t : string)
    (w : World) :
  t ≠ "" →
  let revoked := (Routes.revokeHandler (Some t) w).2 in
  (Routes.revokeHandler (Some t) w).1
  = respond 200 (MessageBody "Token revoked successfully")
  ∧ Routes.refreshHandler jwtSign now iat (Some t) revoked
    = (respond 401 (ErrorBody "Invalid refresh token"), revoked).
Proof.
  intros Hne. unfold Routes.revokeHandler, Routes.refreshHandler.
  destruct t as [|a t]; [done|]. simpl.
  split; [done|]. by rewrite refreshAccessToken_after_revoke.
Qed.

End RouterLast.

Lemma fetchUserInfo_resolved_witness :
  ∃ response body discordUser,
    Scenario.fetchDiscord "provider-access-token" = Resolved response
    ∧ FetchResponse.ok response = true
    ∧ FetchResponse.text response = Resolved body
    ∧ Scenario.parseDiscordUser body = Resolved discordUser
    ∧ {| UserInfo.email := "dee@example.com"; UserInfo.name := "dee";
         UserInfo.sub := "42" |}
      = {| UserInfo.email := DiscordUser.email discordUser;
           UserInfo.name := DiscordUser.username discordUser;
           UserInfo.sub := DiscordUser.id discordUser |}.
Proof.
  destruct (fetchUserInfo_resolved Scenario.fetchDiscord
              Scenario.parseDiscordUser Scenario.fetchProtectedResource
              Scenario.parseUserInfo "discord" "provider-access-token"
              {| UserInfo.email := "dee@example.com"; UserInfo.name := "dee";
                 UserInfo.sub := "42" |}) as [Hdiscord _].
  - reflexivity.
  - apply Hdiscord. reflexivity.
Defined.

Lemma revoke_route_then_refresh_route_witness :
  (Routes.refreshHandler Scenario.jwtSign (1000 + 31 * Scenario.day)
     (1000 + 31 * Scenario.day) (Some "rt-1")
     (Routes.revokeHandler (Some "rt-1")
        {| states := ∅; db := Scenario.store |}).2).1
  = respond 401 (ErrorBody "Invalid refresh token").
Proof.
  destruct (revoke_route_then_refresh_route Scenario.jwtSign
              (1000 + 31 * Scenario.day) (1000 + 31 * Scenario.day) "rt-1"
              {| states := ∅; db := Scenario.store |}) as [_ Hrefresh].
  - discriminate.
  - by rewrite Hrefresh.
Defined.

(** The second of two logins under the subject id 42, with another email
    and another name, finds the user of the first and leaves the row as the
    first login wrote it. *)
Lemma findOrCreateUser_repeat_witness :
  let first :=
    Routes.findOrCreateUser
      (Scenario.gen "a0000000-0000-4000-8000-000000000001" 1000) "discord"
      {| UserInfo.email := "dee@example.com"; UserInfo.name := "dee";
         UserInfo.sub := "42" |} emptyDb in
  users first.2
  = [ {| User.id := "a0000000-0000-4000-8000-000000000001";
         User.provider := "discord"; User.providerId := "42";
         User.email := "dee@example.com"; User.name := "dee";
         User.createdAt := 1000 |} ]
  ∧ Routes.findOrCreateUser
      (Scenario.gen "a0000000-0000-4000-8000-000000000003" 3000) "discord"
      {| UserInfo.email := "dee@new.example"; UserInfo.name := "dee2";
         UserInfo.sub := "42" |} first.2
    = (Resolved "a0000000-0000-4000-8000-000000000001", first.2).
Proof.
  intros first. split; [reflexivity|].
  apply (findOrCreateUser_repeat
           (Scenario.gen "a0000000-0000-4000-8000-000000000001" 1000)
           (Scenario.gen "a0000000-0000-4000-8000-000000000003" 3000)
           "discord" "discord"
           {| UserInfo.email := "dee@example.com"; UserInfo.name := "dee";
              UserInfo.sub := "42" |}
           {| UserInfo.email := "dee@new.example"; UserInfo.name := "dee2";
              UserInfo.sub := "42" |} emptyDb);
    reflexivity.
Defined.

(** ** The router properties on [Scenario] *)

Lemma emptyDb_constraints : constraintsHold emptyDb.
Proof.
  repeat split; try apply NoDup_nil_2; intros x Hx; inversion Hx.
Qed.

(** A Discord login from an empty database, then a revocation and the
    deletion of the session. *)
Lemma router_keeps_constraints_witness :
  constraintsHold
    (db (Scenario.run (Routes.createAuthRouter emptyDb)
           [ Routes.Login "v-1" "S1" "discord";
             Routes.Callback "discord" (Some "S1") "/cb?state=S1&code=a"
               (Scenario.reads "1" 1000);
             Routes.Revoke (Some "rt-1");
             Routes.DeleteSessions
               (Some {| RequestSession.id :=
                          "c0000000-0000-4000-8000-000000000001";
                        RequestSession.userId :=
                          "a0000000-0000-4000-8000-000000000001";
                        RequestSession.data := ∅;
                        RequestSession.expiresAt := 1000 + Scenario.day |})
           ])).
Proof.
  apply (router_keeps_constraints Scenario.hasClient Scenario.BASE_URL
           Scenario.calculatePKCECodeChallenge Scenario.buildAuthorizationUrl
           Scenario.authorizationCodeGrant Scenario.fetchDiscord
           Scenario.parseDiscordUser Scenario.fetchProtectedResource
           Scenario.parseUserInfo Scenario.jwtSign emptyDb).
  exact emptyDb_constraints.
Defined.

Lemma login_registers_state_witness :
  let w := (Scenario.loginHandler "v-1" "S1" "discord"
              (Routes.createAuthRouter emptyDb)).2 in
  Scenario.callbackCheck "discord" (Some "S1") w
  = inr {| PendingExchange.codeVerifier := "v-1";
           PendingExchange.state := "S1";
           PendingExchange.provider := "discord" |}
  ∧ Scenario.callbackCheck "google" (Some "S1") w
    = inl (respond 400 (ErrorBody "Invalid state")).
Proof.
  intros w.
  destruct (login_registers_state Scenario.hasClient Scenario.BASE_URL
              Scenario.calculatePKCECodeChallenge
              Scenario.buildAuthorizationUrl "v-1" "S1" "discord"
              (Routes.createAuthRouter emptyDb)) as [_ Hreg].
  destruct (Hreg "S256:v-1") as (_ & _ & Hsame & Hother);
    [reflexivity | reflexivity |].
  split; [exact Hsame|]. apply Hother; [reflexivity | discriminate].
Defined.

(** The first Discord login on an empty database, at instant 1000. *)
Lemma callback_success_is_consistent_witness :
  let w := (Scenario.loginHandler "v-1" "S1" "discord"
              (Routes.createAuthRouter emptyDb)).2 in
  let p := {| PendingExchange.codeVerifier := "v-1";
              PendingExchange.state := "S1";
              PendingExchange.provider := "discord" |} in
  let db' := db (Scenario.callbackSettle "discord" "/cb?state=S1&code=a" p
                   (Scenario.reads "1" 1000) w).2 in
  ∃ u t s, u ∈ users db' ∧ User.providerId u = "42"
           ∧ t ∈ refreshTokens db' ∧ RefreshToken.token t = "rt-1"
           ∧ RefreshToken.userId t = User.id u
           ∧ s ∈ sessions db'
           ∧ Session.id s = "c0000000-0000-4000-8000-000000000001"
           ∧ Session.userId s = User.id u
           ∧ Session.data s !! "provider" = Some (JsString "discord")
           ∧ Session.data s !! "email" = Some (JsString "dee@example.com")
           ∧ Session.data s !! "name" = Some (JsString "dee")
           ∧ Session.data s !! "lastLogin"
             = Some (JsString "1970-01-01T00:00:01.000Z").
Proof.
  intros w p db'.
  destruct (callback_success_is_consistent Scenario.authorizationCodeGrant
              Scenario.fetchDiscord Scenario.parseDiscordUser
              Scenario.fetchProtectedResource Scenario.parseUserInfo
              Scenario.jwtSign "discord" "/cb?state=S1&code=a" p
              (Scenario.reads "1" 1000) w
              {| GeneratedTokens.accessToken :=
                   "jwt.a0000000-0000-4000-8000-000000000001.discord";
                 GeneratedTokens.refreshToken := "rt-1";
                 GeneratedTokens.expiresIn := JsNumber 2592000 |}
              "c0000000-0000-4000-8000-000000000001")
    as (at_ & info & u & t & s & _ & Hinfo & Hu & Hsub & Ht & Htok & Htu & _
        & _ & Hs & Hsid & Hsu & _ & Hdata).
  - vm_compute. reflexivity.
  - exists u, t, s. injection Hinfo as <-.
    repeat (split; [assumption|]).
    rewrite Hdata. repeat split.
Defined.

(** The same login when [jwt.sign] throws: the user row of the Discord
    profile stays. *)
Lemma signing_failure_keeps_new_user_witness :
  let w := (Scenario.loginHandler "v-1" "S1" "discord"
              (Routes.createAuthRouter emptyDb)).2 in
  let p := {| PendingExchange.codeVerifier := "v-1";
              PendingExchange.state := "S1";
              PendingExchange.provider := "discord" |} in
  let out := Routes.callbackSettle Scenario.authorizationCodeGrant
               Scenario.fetchDiscord Scenario.parseDiscordUser
               Scenario.fetchProtectedResource Scenario.parseUserInfo
               Scenario.failingJwtSign "discord" "/cb?state=S1&code=a" p
               (Scenario.reads "1" 1000) w in
  out.1 = respond 500 (ErrorBody "Authentication failed")
  ∧ users (db out.2)
    = [ {| User.id := "a0000000-0000-4000-8000-000000000001";
           User.provider := "discord"; User.providerId := "42";
           User.email := "dee@example.com"; User.name := "dee";
           User.createdAt := 1000 |} ]
  ∧ refreshTokens (db out.2) = [] ∧ sessions (db out.2) = [].
Proof.
  intros w p out. unfold out.
  rewrite (signing_failure_keeps_new_user Scenario.authorizationCodeGrant
             Scenario.fetchDiscord Scenario.parseDiscordUser
             Scenario.fetchProtectedResource Scenario.parseUserInfo
             Scenario.failingJwtSign "discord" "/cb?state=S1&code=a" p
             (Scenario.reads "1" 1000) w "provider-access-token"
             {| UserInfo.email := "dee@example.com"; UserInfo.name := "dee";
                UserInfo.sub := "42" |}
             (JsError "secretOrPrivateKey must have a value")).
  - repeat split.
  - reflexivity.
  - reflexivity.
  - intros u Hu. inversion Hu.
  - intros u Hu. inversion Hu.
  - reflexivity.
Defined.
